(** * ConfigurationTree: the record log, the item store and the tree facade

    A shallow embedding of [storage.py], [store.py] and [tree.py].
    Python objects with identity live in explicit heaps; the file is a list
    of bytes with a cursor; exceptions are an outcome next to the state they
    leave behind (an exception does not undo the effects that preceded it). *)

From Stdlib Require Import ZArith NArith Lia Strings.Byte Strings.Ascii.
From Stdlib Require Import DecimalFacts DecimalPos DecimalN.
From stdpp Require Import gmap strings list.

Local Open Scope Z_scope.

(** ** Exceptions and the effect monad *)

Inductive exn : Type :=
  | CorruptedFormat | ConcurrencyError
  | StoreError | NullEntryPoint | DetachedRoot
  | AssertionError | RuntimeError | AttributeError | TypeError
  | KeyError | ValueError | RecursionError.

#[global] Instance exn_eq_dec : EqDecision exn.
Proof. solve_decision. Defined.

(** [Diverge] is the answer of a loop that was given too little fuel; the
    loops below compute their fuel from the size of what they traverse. *)
Inductive outcome (A : Type) : Type :=
  | Return (a : A)
  | Raise (e : exn)
  | Diverge.
Arguments Return {A} a.
Arguments Raise {A} e.
Arguments Diverge {A}.

Definition eff (S A : Type) : Type := S -> outcome A * S.

Definition ret {S A} (a : A) : eff S A := fun s => (Return a, s).
Definition raise {S A} (e : exn) : eff S A := fun s => (Raise e, s).
Definition bind {S A B} (m : eff S A) (k : A -> eff S B) : eff S B :=
  fun s => match m s with
           | (Return a, s') => k a s'
           | (Raise e, s') => (Raise e, s')
           | (Diverge, s') => (Diverge, s')
           end.
Definition get_state {S} : eff S S := fun s => (Return s, s).
Definition put_state {S} (s : S) : eff S unit := fun _ => (Return tt, s).
(** [assert c] of Python: AssertionError when the condition is false. *)
Definition assert {S} (c : bool) : eff S unit :=
  if c then ret tt else raise AssertionError.

Notation "'let*' x := m 'in' k" := (bind m (fun x => k))
  (at level 10, x pattern, m at level 100, k at level 200, only parsing).

(** ** Python [bytes] *)

Definition TAB : byte := x09.
Definition NL : byte := x0a.

Definition bytes := list byte.

Definition b (s : string) : list byte := String.list_byte_of_string s.

#[global] Instance byte_eq_dec : EqDecision byte := Byte.byte_eq_dec.

(** [sub in data] for a one-byte [sub]. *)
Definition byte_in (c : byte) (l : list byte) : bool := existsb (Byte.eqb c) l.

Fixpoint index_of (c : byte) (l : list byte) : option nat :=
  match l with
  | [] => None
  | x :: l' => if Byte.eqb x c then Some O else S <$> index_of c l'
  end.

(** [data.find(c, start)]: the first index at or after [start], or -1. *)
Definition find (c : byte) (l : list byte) (start : nat) : Z :=
  match index_of c (drop start l) with
  | Some i => Z.of_nat (start + i)
  | None => -1
  end.

(** [data[lo:hi]] with Python's treatment of negative and large bounds. *)
Definition clamp (n : nat) (i : Z) : nat :=
  if i <? 0 then Z.to_nat (Z.max 0 (i + Z.of_nat n))
  else Nat.min (Z.to_nat i) n.

Definition slice (l : list byte) (lo hi : option Z) : list byte :=
  let n := length l in
  let lo' := from_option (clamp n) O lo in
  let hi' := from_option (clamp n) n hi in
  take (hi' - lo') (drop lo' l).

Definition startswith (c : byte) (l : list byte) : bool :=
  match l with
  | x :: _ => Byte.eqb x c
  | [] => false
  end.

Definition endswith (c : byte) (l : list byte) : bool :=
  match last l with
  | Some x => Byte.eqb x c
  | None => false
  end.

Definition bytes_eqb (x y : list byte) : bool := bool_decide (x = y).

Definition is_digit (c : byte) : bool :=
  (48 <=? Byte.to_N c)%N && (Byte.to_N c <=? 57)%N.

(** [data.isdigit()]: non-empty and ASCII digits only. *)
Definition isdigit (l : list byte) : bool :=
  match l with
  | [] => false
  | _ => forallb is_digit l
  end.

(** Decimal text.  [int(line)] behind the guard of [_parse_current_offset]
    only ever sees ASCII digits followed by a newline: it skips the
    surrounding white space and reads the digits in base ten.  Signs and
    digit separators, which [int] would also take, cannot pass the guard. *)

Definition digit_of_byte (c : byte) : option (Decimal.uint -> Decimal.uint) :=
  match c with
  | x30 => Some Decimal.D0 | x31 => Some Decimal.D1 | x32 => Some Decimal.D2
  | x33 => Some Decimal.D3 | x34 => Some Decimal.D4 | x35 => Some Decimal.D5
  | x36 => Some Decimal.D6 | x37 => Some Decimal.D7 | x38 => Some Decimal.D8
  | x39 => Some Decimal.D9
  | _ => None
  end.

Fixpoint uint_of_bytes (l : list byte) : option Decimal.uint :=
  match l with
  | [] => Some Decimal.Nil
  | c :: l' =>
      match digit_of_byte c, uint_of_bytes l' with
      | Some d, Some u => Some (d u)
      | _, _ => None
      end
  end.

Fixpoint bytes_of_uint (u : Decimal.uint) : list byte :=
  match u with
  | Decimal.Nil => []
  | Decimal.D0 u => x30 :: bytes_of_uint u
  | Decimal.D1 u => x31 :: bytes_of_uint u
  | Decimal.D2 u => x32 :: bytes_of_uint u
  | Decimal.D3 u => x33 :: bytes_of_uint u
  | Decimal.D4 u => x34 :: bytes_of_uint u
  | Decimal.D5 u => x35 :: bytes_of_uint u
  | Decimal.D6 u => x36 :: bytes_of_uint u
  | Decimal.D7 u => x37 :: bytes_of_uint u
  | Decimal.D8 u => x38 :: bytes_of_uint u
  | Decimal.D9 u => x39 :: bytes_of_uint u
  end.

Definition is_space (c : byte) : bool :=
  match c with
  | x09 | x0a | x0b | x0c | x0d | x20 => true
  | _ => false
  end.

Fixpoint lstrip (l : list byte) : list byte :=
  match l with
  | c :: l' => if is_space c then lstrip l' else l
  | [] => []
  end.

Definition strip (l : list byte) : list byte := rev (lstrip (rev (lstrip l))).

(** [int(data)] *)
Definition int {S} (l : list byte) : eff S Z :=
  match strip l with
  | [] => raise ValueError
  | t => match uint_of_bytes t with
         | Some u => ret (Z.of_N (N.of_uint u))
         | None => raise ValueError
         end
  end.

(** ['{:0{}d}'.format(n, width)]: sign-aware zero padding to at least
    [width] characters. *)
Definition decimal (n : N) : list byte := bytes_of_uint (N.to_uint n).

Definition zfill (width : nat) (l : list byte) : list byte :=
  replicate (width - length l) x30 ++ l.

Definition format_0d (n : Z) (width : nat) : list byte :=
  if n <? 0 then x2d :: zfill (width - 1) (decimal (Z.to_N (- n)))
  else zfill width (decimal (Z.to_N n)).

(** ** storage.py *)

Definition IDENTIFIER : list byte := b "3dbf4cbc-f015-43d9-b280-ff6962a22198".
Definition DEFAULT_HEADER : nat := 15.
Definition MAX_HEADER : nat := 15.

(** A [Storage] object: the file it holds (content and cursor) and the two
    lock flags.  [lockable] is false for an in-memory [BytesIO].  The
    [fcntl] lock itself, which makes other processes wait, is outside the
    model: operations of different handles are taken one after the other. *)
Record Storage : Type := mkStorage {
  content : list byte;
  position : nat;
  locked : bool;
  lockable : bool
}.

Definition set_content (c : list byte) (s : Storage) : Storage :=
  mkStorage c (position s) (locked s) (lockable s).
Definition set_position (p : nat) (s : Storage) : Storage :=
  mkStorage (content s) p (locked s) (lockable s).
Definition set_locked (l : bool) (s : Storage) : Storage :=
  mkStorage (content s) (position s) l (lockable s).

(** The file object: [seek], [tell], [read], [readline], [write]. *)

Definition f_seek (offset : Z) : eff Storage unit := fun s =>
  if offset <? 0 then (Raise ValueError, s)
  else (Return tt, set_position (Z.to_nat offset) s).

Definition f_seek_end : eff Storage unit := fun s =>
  (Return tt, set_position (length (content s)) s).

Definition f_tell : eff Storage Z := fun s => (Return (Z.of_nat (position s)), s).

Definition f_read (n : nat) : eff Storage (list byte) := fun s =>
  let data := take n (drop (position s) (content s)) in
  (Return data, set_position (position s + length data) s).

Fixpoint line_of (l : list byte) : list byte :=
  match l with
  | [] => []
  | c :: l' => if Byte.eqb c NL then [c] else c :: line_of l'
  end.

Definition f_readline : eff Storage (list byte) := fun s =>
  let data := line_of (drop (position s) (content s)) in
  (Return data, set_position (position s + length data) s).

(** Writing past the end fills the gap with zero bytes. *)
Definition write_at (pos : nat) (data old : list byte) : list byte :=
  take pos old ++ replicate (pos - length old) x00 ++ data
    ++ drop (pos + length data) old.

Definition f_write (data : list byte) : eff Storage unit := fun s =>
  (Return tt,
   set_position (position s + length data)
     (set_content (write_at (position s) data (content s)) s)).

Definition f_truncate0 : eff Storage unit := fun s =>
  (Return tt, set_content [] s).

(** [Storage._init] on a file object. *)
Definition Storage__init : eff Storage unit :=
  let* _ := f_truncate0 in
  let* _ := f_seek 0 in
  f_write (IDENTIFIER ++ [NL] ++ format_0d 0 DEFAULT_HEADER ++ [NL]).

(** [Storage.open_in_memory] *)
Definition Storage_open_in_memory : Storage :=
  snd (Storage__init (mkStorage [] 0 false false)).

(** [with self.__lock(write=...)]: the body runs with the flag set on a
    lockable file, and the flag is cleared on the way out, also when the
    body raises. *)
Definition Storage___lock {A} (write : bool) (body : eff Storage A)
  : eff Storage A := fun s =>
  if locked s then (Raise AssertionError, s)
  else if lockable s then
    let '(r, s') := body (set_locked true s) in (r, set_locked false s')
  else body s.

(** [Storage._parse_current_offset] *)
Definition Storage__parse_current_offset {S} (line : option (list byte))
  : eff S Z :=
  match line with
  | None | Some [] => raise AssertionError
  | Some line =>
      if negb ((2 <=? length line)%nat && (length line <=? MAX_HEADER + 1)%nat
               && endswith NL line
               && isdigit (slice line None (Some (-1))))
      then raise CorruptedFormat
      else int line
  end.

Definition BLOCK : nat := 4096.

(** [Storage._getline]: the loop reads blocks of 4096 bytes; every turn
    but the last consumes at least one byte. *)
Fixpoint getline_loop (fuel : nat) (buffer : list byte)
  : eff Storage (option (list byte) * list byte) :=
  match fuel with
  | O => fun s => (Diverge, s)
  | S fuel' =>
      let* data := f_read BLOCK in
      match data with
      | [] =>
          match buffer with
          | [] => ret (None, [])
          | _ => raise RuntimeError
          end
      | _ =>
          let p := find NL data 0 in
          if negb (p =? -1)
          then ret (Some (buffer ++ slice data None (Some (p + 1))),
                    slice data (Some (p + 1)) None)
          else getline_loop fuel' (buffer ++ data)
      end
  end.

Definition Storage__getline (buffer : list byte)
  : eff Storage (option (list byte) * list byte) :=
  let p := find NL buffer 0 in
  if negb (p =? -1)
  then ret (Some (slice buffer None (Some (p + 1))),
            slice buffer (Some (p + 1)) None)
  else fun s => getline_loop (S (length (content s) - position s)) buffer s.

(** [line[:-1]] and the other uses of a line that [_getline] may have
    returned as [None]: Python raises TypeError on subscripting [None] and
    AttributeError on calling a method of it. *)
Definition subscript {S} (line : option (list byte)) : eff S (list byte) :=
  match line with
  | Some l => ret l
  | None => raise TypeError
  end.

Definition attribute {S} (line : option (list byte)) : eff S (list byte) :=
  match line with
  | Some l => ret l
  | None => raise AttributeError
  end.

(** [Storage.get_current] *)
Definition Storage_get_current : eff Storage Z :=
  let* _ := f_seek 0 in
  let* line := Storage___lock false (
    let* (line, buffer) := Storage__getline [] in
    let* l := subscript line in
    let* _ := assert (bytes_eqb (slice l None (Some (-1))) IDENTIFIER) in
    let* (line, buffer) := Storage__getline buffer in
    ret line) in
  Storage__parse_current_offset line.

(** [Storage.set_current] *)
Definition Storage_set_current (offset : Z) (lease : option Z)
  : eff Storage unit :=
  let* _ := f_seek 0 in
  Storage___lock true (
    let* (line, buffer) := Storage__getline [] in
    let* l := subscript line in
    let* _ := assert (bytes_eqb (slice l None (Some (-1))) IDENTIFIER) in
    let pos := length l in
    let* (line, buffer) := Storage__getline buffer in
    let* current_offset := Storage__parse_current_offset line in
    if match lease with
       | Some lease => negb (current_offset =? lease)
       | None => false
       end
    then raise ConcurrencyError
    else
      let line := default [] line in
      let new_line := format_0d offset (length line - 1) ++ [NL] in
      let* _ := assert (length new_line =? length line)%nat in
      let* _ := f_seek (Z.of_nat pos) in
      f_write new_line).

(** [Storage.load] *)
Definition Storage_load (offset : Z) : eff Storage (list byte) :=
  let* _ := f_seek offset in
  let* (line, buffer) := Storage__getline [] in
  let* line := attribute line in
  if negb (startswith TAB line) then raise CorruptedFormat
  else if negb (endswith NL line) then raise CorruptedFormat
  else if negb (find TAB line 1 =? -1) then raise CorruptedFormat
  else ret (slice line (Some 1) (Some (-1))).

(** [Storage.store] *)
Definition Storage_store (record : list byte) : eff Storage Z :=
  Storage___lock true (
    let* _ := f_seek_end in
    let* pos := f_tell in
    let* _ := assert (2 <=? pos) in
    let* _ := assert (negb (byte_in TAB record)) in
    let* _ := assert (negb (byte_in NL record)) in
    let* _ := f_write ([TAB] ++ record ++ [NL]) in
    ret pos).

(** [Storage.scan] *)
Fixpoint scan_loop (fuel : nat) : eff Storage unit :=
  match fuel with
  | O => fun s => (Diverge, s)
  | S fuel' =>
      let* line := f_readline in
      match line with
      | [] => ret tt
      | _ =>
          if negb (endswith NL line) then raise CorruptedFormat
          else if negb (startswith TAB line) then raise CorruptedFormat
          else if negb (find TAB line 1 =? -1) then raise CorruptedFormat
          else scan_loop fuel'
      end
  end.

Definition Storage_scan : eff Storage unit :=
  let* _ := f_seek 0 in
  Storage___lock true (
    let* line := f_readline in
    match line with
    | [] => raise CorruptedFormat
    | _ =>
        if negb (endswith NL line) then raise CorruptedFormat
        else if negb (bytes_eqb (slice line None (Some (-1))) IDENTIFIER)
        then raise CorruptedFormat
        else
          let* line := f_readline in
          if negb (endswith NL line) then raise CorruptedFormat
          else
            let* _ := Storage__parse_current_offset (Some line) in
            fun s => scan_loop (S (length (content s) - position s)) s
    end).

(** ** Closed forms of the storage operations, used in the statements *)

Definition is_nil {A} (l : list A) : bool :=
  match l with [] => true | _ => false end.

(** [load] on any storage and offset, in closed form. *)
Definition load_result (rest : list byte) : outcome (list byte) :=
  match index_of NL rest with
  | None => if is_nil rest then Raise AttributeError else Raise RuntimeError
  | Some i =>
      let line := take (S i) rest in
      if negb (startswith TAB line) then Raise CorruptedFormat
      else if negb (find TAB line 1 =? -1) then Raise CorruptedFormat
      else Return (slice line (Some 1) (Some (-1)))
  end.

(** The two lines read by [get_current] and [set_current]: the state after
    them, and the second line. *)
Definition second_line (rest : list byte) : outcome (option (list byte)) :=
  match index_of NL rest with
  | Some i => Return (Some (take (S i) rest))
  | None => if is_nil rest then Return None else Raise RuntimeError
  end.

(** The root line is acceptable when it has between one and [MAX_HEADER]
    digits before its newline; it then denotes a number in base ten. *)
Definition root_digits_ok (digits : list byte) : bool :=
  (1 <=? length digits)%nat && (length digits <=? MAX_HEADER)%nat
  && forallb is_digit digits.

Definition decimal_value (digits : list byte) : Z :=
  match uint_of_bytes digits with
  | Some u => Z.of_N (N.of_uint u)
  | None => 0
  end.

Definition lease_fails (lease : option Z) (current : Z) : bool :=
  match lease with
  | Some l => negb (current =? l)
  | None => false
  end.

(** ** The layout of a file and what [scan] makes of it *)

(** A line with its newline, and the lines of a file one after the
    other. *)
Definition frame (l : list byte) : list byte := l ++ [NL].
Definition join_lines (ls : list (list byte)) : list byte :=
  concat (map frame ls).

(** What [scan] asks of a record line, here without its newline: the
    marker in front and nowhere else. *)
Definition record_line_ok (l : list byte) : bool :=
  startswith TAB (frame l) && (find TAB (frame l) 1 =? -1).

(** [scan] on a file made of the lines [ls] followed by [tail], a last
    line without a newline, in closed form. *)
Definition scan_result (ls : list (list byte)) (tail : list byte)
  : outcome unit :=
  match ls with
  | l1 :: l2 :: records =>
      if bytes_eqb l1 IDENTIFIER && root_digits_ok l2
         && forallb record_line_ok records && is_nil tail
      then Return tt
      else Raise CorruptedFormat
  | _ => Raise CorruptedFormat
  end.

(** The files produced from a freshly initialized storage by calls of
    [store] and [set_current] that return, the offsets given to
    [set_current] being positions in a file, hence not negative. *)
Inductive legal : Storage -> Prop :=
  | legal_init s :
      locked s = false -> legal (snd (Storage__init s))
  | legal_store s record offset s' :
      legal s -> Storage_store record s = (Return offset, s') -> legal s'
  | legal_set_current s offset lease s' :
      legal s -> 0 <= offset ->
      Storage_set_current offset lease s = (Return tt, s') -> legal s'.

(** The layout of a legal file: the identifier, a root line of
    [DEFAULT_HEADER] digits and the records behind their markers, each
    line with its newline. *)
Definition file_of (digits : list byte) (records : list (list byte))
  : list byte :=
  join_lines (IDENTIFIER :: digits :: map (cons TAB) records).

Definition root_start : nat := length IDENTIFIER + 1.
Definition records_start : nat := root_start + DEFAULT_HEADER + 1.

(** The bytes that frame the lines, and the changes of one byte at the
    position [i] that touch the framing: a framing byte goes, a framing
    byte comes, or the root line gets a byte that is not a digit. *)
Definition is_frame (c : byte) : bool := Byte.eqb c TAB || Byte.eqb c NL.

Definition framing_change (i : nat) (old x : byte) : bool :=
  is_frame old || is_frame x
  || ((i <? records_start)%nat && negb (is_digit x)).

(** The file of [s] with the byte at [i] replaced by [x]. *)
Definition mutate (i : nat) (x : byte) (s : Storage) : Storage :=
  set_content (<[i := x]> (content s)) s.

(** ** store.py *)

(** JSON values, as [json.loads] returns them and [json.dumps] takes them.
    The two functions belong to Python's library and are taken as given:
    [dumps v] is [json.dumps(v, separators=(',', ':'), sort_keys=True)]
    encoded in UTF-8, [loads] answers [None] where decoding or parsing
    raises. *)
#[warnings="-register-all"]
Inductive json : Type :=
  | JNull
  | JBool (v : bool)
  | JInt (n : Z)
  | JStr (s : string)
  | JList (l : list json)
  | JDict (d : gmap string json).

Class Json : Type := {
  dumps : json -> list byte;
  loads : list byte -> option json
}.

(** [isinstance(value, int)] holds for the integers and for the booleans. *)
Definition as_int (v : json) : option Z :=
  match v with
  | JInt n => Some n
  | JBool v => Some (if v then 1 else 0)
  | _ => None
  end.

Inductive Kind : Type := Kind_node | Kind_leaf.

Definition Kind_value (k : Kind) : list byte :=
  match k with
  | Kind_node => [x40]
  | Kind_leaf => [x3d]
  end.

(** Objects are named by their position in a heap that only grows. *)
Abbreviation addr := nat.

(** [Link.parent] is a node or, under the key [__ROOT__], the store. *)
Inductive owner : Type := OStore | ONode (a : addr).

Record Link : Type := mkLink { l_parent : owner; l_key : string }.

(** An entry of a node: the tuple [(offset, None)] of a child not loaded
    yet, the tuple [(offset, weakref(item))] of the volatile mode, or the
    child itself.  A weak reference is taken to be alive: nothing is ever
    collected here. *)
Inductive entry : Type :=
  | ETuple (offset : Z) (ref : option addr)
  | EItem (a : addr).

Inductive body : Type :=
  | BLeaf (value : json)
  | BNode (entries : gmap string entry).

(** [Item]: [__link], [__store] (set or not; a world has one store) and
    [__offset], with the fields of the subclass in [i_body]. *)
Record Item : Type := mkItem {
  i_link : option Link;
  i_store : bool;
  i_offset : option Z;
  i_body : body
}.

Definition is_Node (it : Item) : bool :=
  match i_body it with BNode _ => true | BLeaf _ => false end.

(** The base class [Schema] of tree.py; objects differ by identity only. *)
Inductive Schema : Type := mkSchema (id : nat).

(** [Tree]: the facade over a node. [__entries] is a WeakValueDictionary;
    the facades it names are taken to be held by their users. *)
Record Tree : Type := mkTree {
  t_entries : gmap string addr;
  t_parent : option addr;
  t_name : option string;
  t_node : option addr;
  t_schema : Schema
}.

Inductive root_ref : Type :=
  | RootNone
  | RootInt (offset : Z)
  | RootItem (a : addr).

(** One process: its [Store] (with the [Storage] it owns), the items and
    the facades it has created, and the facades on which the schema hook
    [setup] was called, latest first. *)
Record World : Type := mkWorld {
  storage : Storage;
  current_root : Z;
  root : root_ref;
  volatile : bool;
  items : list Item;
  trees : list Tree;
  setups : list addr
}.

Definition set_storage (s : Storage) (w : World) : World :=
  mkWorld s (current_root w) (root w) (volatile w) (items w) (trees w) (setups w).
Definition set_current_root (c : Z) (w : World) : World :=
  mkWorld (storage w) c (root w) (volatile w) (items w) (trees w) (setups w).
Definition set_root (r : root_ref) (w : World) : World :=
  mkWorld (storage w) (current_root w) r (volatile w) (items w) (trees w) (setups w).
Definition set_items (l : list Item) (w : World) : World :=
  mkWorld (storage w) (current_root w) (root w) (volatile w) l (trees w) (setups w).
Definition set_trees (l : list Tree) (w : World) : World :=
  mkWorld (storage w) (current_root w) (root w) (volatile w) (items w) l (setups w).
Definition set_setups (l : list addr) (w : World) : World :=
  mkWorld (storage w) (current_root w) (root w) (volatile w) (items w) (trees w) l.

(** A call of the storage from the store. *)
Definition on_storage {A} (m : eff Storage A) : eff World A := fun w =>
  let '(r, s) := m (storage w) in (r, set_storage s w).

(** Reading and writing the fields of an object.  An address without an
    object is no Python state; reading one raises [TypeError] here. *)
Definition read_item (a : addr) : eff World Item := fun w =>
  match items w !! a with
  | Some it => (Return it, w)
  | None => (Raise TypeError, w)
  end.

Definition update_item (a : addr) (f : Item -> Item) : eff World unit := fun w =>
  match items w !! a with
  | Some it => (Return tt, set_items (<[a := f it]> (items w)) w)
  | None => (Raise TypeError, w)
  end.

Definition new_item (it : Item) : eff World addr := fun w =>
  (Return (length (items w)), set_items (items w ++ [it]) w).

Definition read_tree (t : addr) : eff World Tree := fun w =>
  match trees w !! t with
  | Some x => (Return x, w)
  | None => (Raise TypeError, w)
  end.

Definition update_tree (t : addr) (f : Tree -> Tree) : eff World unit := fun w =>
  match trees w !! t with
  | Some x => (Return tt, set_trees (<[t := f x]> (trees w)) w)
  | None => (Raise TypeError, w)
  end.

Definition new_tree (x : Tree) : eff World addr := fun w =>
  (Return (length (trees w)), set_trees (trees w ++ [x]) w).

Definition with_link (l : option Link) (it : Item) : Item :=
  mkItem l (i_store it) (i_offset it) (i_body it).
Definition with_offset (o : option Z) (it : Item) : Item :=
  mkItem (i_link it) (i_store it) o (i_body it).
Definition with_body (bd : body) (it : Item) : Item :=
  mkItem (i_link it) (i_store it) (i_offset it) bd.

Definition with_entries (e : gmap string addr) (x : Tree) : Tree :=
  mkTree e (t_parent x) (t_name x) (t_node x) (t_schema x).
Definition with_parent (p : option addr) (x : Tree) : Tree :=
  mkTree (t_entries x) p (t_name x) (t_node x) (t_schema x).
Definition with_node (n : option addr) (x : Tree) : Tree :=
  mkTree (t_entries x) (t_parent x) (t_name x) n (t_schema x).
Definition with_schema (s : Schema) (x : Tree) : Tree :=
  mkTree (t_entries x) (t_parent x) (t_name x) (t_node x) s.

(** [for x in l: body(x)] *)
Fixpoint for_each {S A} (l : list A) (f : A -> eff S unit) : eff S unit :=
  match l with
  | [] => ret tt
  | x :: l' => let* _ := f x in for_each l' f
  end.

(** [for x in l: acc = body(acc, x)] *)
Fixpoint fold_eff {S A B} (f : B -> A -> eff S B) (l : list A) (acc : B)
  : eff S B :=
  match l with
  | [] => ret acc
  | x :: l' => let* acc' := f acc x in fold_eff f l' acc'
  end.

(** [sorted(keys)] *)
Fixpoint insert_sorted (k : string) (l : list string) : list string :=
  match l with
  | [] => [k]
  | x :: l' => if String.leb k x then k :: l else x :: insert_sorted k l'
  end.

Definition sorted (l : list string) : list string :=
  foldr insert_sorted [] l.

(** [sorted(entries.items())]: the keys of a dictionary are distinct. *)
Definition sorted_items {A} (m : gmap string A) : list (string * A) :=
  omap (fun k => (fun v => (k, v)) <$> m !! k) (sorted (map_to_list m).*1).

(** [node.__entries[key] = e] *)
Definition set_entry (a : addr) (key : string) (e : entry) : eff World unit :=
  update_item a (fun it =>
    match i_body it with
    | BNode es => with_body (BNode (<[key := e]> es)) it
    | BLeaf _ => it
    end).

(** [del node.__entries[key]] *)
Definition del_entry (a : addr) (key : string) : eff World unit :=
  update_item a (fun it =>
    match i_body it with
    | BNode es => with_body (BNode (delete key es)) it
    | BLeaf _ => it
    end).

Definition ROOT : string := "__ROOT__".

(** [Item._attach] *)
Definition Item__attach (a : addr) (l : Link) : eff World unit :=
  let* it := read_item a in
  match i_link it with
  | Some _ => raise StoreError
  | None => update_item a (with_link (Some l))
  end.

(** [Item._detach] *)
Definition Item__detach (a : addr) : eff World unit :=
  let* it := read_item a in
  match i_link it with
  | None => raise StoreError
  | Some _ => update_item a (with_link None)
  end.

(** [Item._set_offset]; its [assert self.modified] tests a bound method,
    which is always true. *)
Definition Item__set_offset (a : addr) (offset : Z) : eff World unit :=
  update_item a (with_offset (Some offset)).

(** [Item._changed], with [Item._child_changed] and
    [Store._child_changed] at the end of the chain of links. *)
Fixpoint Item__changed (fuel : nat) (a : addr) : eff World unit :=
  match fuel with
  | O => raise RecursionError
  | S fuel' =>
      let* it := read_item a in
      match i_offset it with
      | None => ret tt
      | Some _ =>
          let* _ := update_item a (with_offset None) in
          match i_link it with
          | None => ret tt
          | Some l =>
              match l_parent l with
              | OStore => assert (String.eqb (l_key l) ROOT)
              | ONode p => Item__changed fuel' p
              end
          end
      end
  end.

Section Store.
Context `{Json}.

(** [Store.__init__] *)
Definition Store___init__ (s : Storage) (vol : bool) (alternate_root : option Z)
  : outcome World :=
  match alternate_root with
  | Some r => Return (mkWorld s r (RootInt r) vol [] [] [])
  | None =>
      match Storage_get_current s with
      | (Return r, s') => Return (mkWorld s' r (RootInt r) vol [] [] [])
      | (Raise e, _) => Raise e
      | (Diverge, _) => Diverge
      end
  end.

(** [Store.open_in_memory] *)
Definition Store_open_in_memory (vol : bool) : outcome World :=
  Store___init__ Storage_open_in_memory vol None.

(** [Store._record] *)
Definition Store__record (kind : Kind) (value : json) : eff World Z :=
  let data := dumps value in
  on_storage (Storage_store (Kind_value kind ++ data)).

(** [Node(data, store, offset)] from the decoded object of a node record:
    every value must be an integer. *)
Definition node_entries (d : gmap string json) : option (gmap string entry) :=
  if bool_decide (map_Forall (fun _ v => is_Some (as_int v)) d)
  then Some (omap (fun v => (fun o => ETuple o None) <$> as_int v) d)
  else None.

(** [Store._load] *)
Definition Store__load (offset : Z) : eff World addr :=
  let* record := on_storage (Storage_load offset) in
  if (length record <? 2)%nat then raise StoreError
  else
    let* kind :=
      (if bytes_eqb (slice record None (Some 1)) (Kind_value Kind_node)
       then ret Kind_node
       else if bytes_eqb (slice record None (Some 1)) (Kind_value Kind_leaf)
       then ret Kind_leaf
       else raise ValueError) in
    match loads (slice record (Some 1) None) with
    | None => raise StoreError
    | Some data =>
        match kind with
        | Kind_node =>
            match data with
            | JDict d =>
                match node_entries d with
                | Some e => new_item (mkItem None true (Some offset) (BNode e))
                | None => raise StoreError
                end
            | _ => raise StoreError
            end
        | Kind_leaf => new_item (mkItem None true (Some offset) (BLeaf data))
        end
    end.

(** [Leaf._persist] and [Node._persist].  The loop of the node runs over
    [sorted(self.__entries.items())], a copy made before the first turn. *)
Definition persist_entry (persist : addr -> eff World unit) (a : addr)
    (node : gmap string json) (item : string * entry)
  : eff World (gmap string json) :=
  let '(key, e) := item in
  let* offset :=
    match e with
    | ETuple o _ => ret o
    | EItem c =>
        let* child := read_item c in
        let* _ :=
          match i_offset child with
          | None => persist c
          | Some _ => ret tt
          end in
        let* child := read_item c in
        (* [_persist] has returned: the offset is set *)
        let* o := from_option ret (raise AssertionError) (i_offset child) in
        let* w := get_state in
        let* _ :=
          if volatile w then set_entry a key (ETuple o (Some c)) else ret tt in
        ret o
    end in
  ret (<[key := JInt offset]> node).

Fixpoint Item__persist (fuel : nat) (a : addr) : eff World unit :=
  match fuel with
  | O => raise RecursionError
  | S fuel' =>
      let* it := read_item a in
      match i_body it with
      | BLeaf value =>
          let* _ := assert (bool_decide (is_Some (i_link it))) in
          let* _ := assert (bool_decide (i_offset it = None)) in
          let* o := Store__record Kind_leaf value in
          Item__set_offset a o
      | BNode entries =>
          let* _ := assert (bool_decide (is_Some (i_link it))) in
          let* node :=
            fold_eff (persist_entry (Item__persist fuel') a)
              (sorted_items entries) ∅ in
          let* o := Store__record Kind_node (JDict node) in
          Item__set_offset a o
      end
  end.

(** [Store._get_root] *)
Definition Store__get_root : eff World addr :=
  let* w := get_state in
  match root w with
  | RootNone => raise StoreError
  | RootInt r =>
      if r =? 0 then raise NullEntryPoint
      else
        let* a := Store__load r in
        let* _ := fun w => (Return tt, set_root (RootItem a) w) in
        let* _ := Item__attach a (mkLink OStore ROOT) in
        ret a
  | RootItem a => ret a
  end.

(** [Store._set_root] *)
Definition Store__set_root (value : addr) : eff World unit :=
  let* _ := Item__attach value (mkLink OStore ROOT) in
  fun w => (Return tt, set_root (RootItem value) w).

(** [Store.commit], first part: the offset of the root, persisting what
    is not yet written. *)
Definition Store_commit_offset (fuel : nat) : eff World Z :=
  let* w := get_state in
  match root w with
  | RootNone => raise DetachedRoot
  | RootInt r => ret r
  | RootItem a =>
      let* it := read_item a in
      let* _ :=
        match i_offset it with
        | None => Item__persist fuel a
        | Some _ => ret tt
        end in
      let* it := read_item a in
      from_option ret (raise AssertionError) (i_offset it)
  end.

(** [Store.commit] *)
Definition Store_commit (fuel : nat) : eff World Z :=
  let* offset := Store_commit_offset fuel in
  let* w := get_state in
  let* _ := on_storage (Storage_set_current offset (Some (current_root w))) in
  let* _ := fun w => (Return tt, set_current_root offset w) in
  ret offset.

(** [try: m except e: handler], the handler starting from the state in
    which the exception was raised. *)
Definition catch {S A} (m : eff S A) (e : exn) (handler : eff S A) : eff S A :=
  fun s => match m s with
           | (Raise e', s') => if bool_decide (e' = e) then handler s'
                               else (Raise e', s')
           | r => r
           end.

(** The entries of the node on which a method of [Node] is called.  On a
    leaf the call fails: [keys], [remove] and [node] do not exist there
    (AttributeError), [get] and [set] take other arguments (TypeError). *)
Definition entries_of (e : exn) (it : Item) : eff World (gmap string entry) :=
  match i_body it with
  | BNode es => ret es
  | BLeaf _ => raise e
  end.

(** [Node()] and [Leaf(value)] *)
Definition Node_new : eff World addr :=
  new_item (mkItem None false None (BNode ∅)).
Definition Leaf_new (value : json) : eff World addr :=
  new_item (mkItem None false None (BLeaf value)).

(** [Node.keys]: a set, here in the order of the map. *)
Definition Node_keys (a : addr) : eff World (list string) :=
  let* it := read_item a in
  let* es := entries_of AttributeError it in
  ret (map_to_list es).*1.

(** [Node.get] *)
Definition Node_get (a : addr) (key : string) : eff World addr :=
  let* it := read_item a in
  let* es := entries_of TypeError it in
  match es !! key with
  | None => raise KeyError
  | Some (EItem c) => ret c
  | Some (ETuple offset (Some c)) => ret c
  | Some (ETuple offset None) =>
      if negb (i_store it) then raise AttributeError
      else
        let* c := Store__load offset in
        let* _ := Item__attach c (mkLink (ONode a) key) in
        let* w := get_state in
        let* _ :=
          set_entry a key
            (if volatile w then ETuple offset (Some c) else EItem c) in
        ret c
  end.

(** [Node.set] *)
Definition Node_set (fuel : nat) (a : addr) (key : string) (value : addr)
  : eff World unit :=
  let* it := read_item a in
  let* _ := entries_of TypeError it in
  let* _ := Item__attach value (mkLink (ONode a) key) in
  let* v := read_item value in
  let* w := get_state in
  let e :=
    match i_offset v with
    | Some o => if i_store it && volatile w then ETuple o (Some value)
                else EItem value
    | None => EItem value
    end in
  let* _ := set_entry a key e in
  Item__changed fuel a.

(** [Node.remove] *)
Definition Node_remove (fuel : nat) (a : addr) (key : string)
  : eff World addr :=
  let* item := Node_get a key in
  let* _ := Item__detach item in
  let* _ := del_entry a key in
  let* _ := Item__changed fuel a in
  ret item.

(** [Node.node]; the second component tells whether [created_cb] ran. *)
Definition Node_node (fuel : nat) (a : addr) (key : string)
  : eff World (addr * bool) :=
  let* it := read_item a in
  let* _ := entries_of AttributeError it in
  catch
    (let* node := Node_get a key in
     let* it := read_item node in
     let* _ := assert (is_Node it) in
     ret (node, false))
    KeyError
    (let* node := Node_new in
     let* _ := Node_set fuel a key node in
     ret (node, true)).

(** [Leaf.clone] and [Node.clone] *)
Fixpoint Item_clone (fuel : nat) (a : addr) : eff World addr :=
  match fuel with
  | O => raise RecursionError
  | S fuel' =>
      let* it := read_item a in
      match i_body it with
      | BLeaf value => Leaf_new value
      | BNode _ =>
          let* n := Node_new in
          let* keys := Node_keys a in
          let* _ :=
            for_each keys (fun key =>
              let* value := Node_get a key in
              let* c := Item_clone fuel' value in
              Node_set fuel n key c) in
          ret n
      end
  end.

(** ** tree.py *)

(** What [Tree._get] hands out: a facade or the value of a leaf. *)
Inductive value : Type :=
  | VTree (t : addr)
  | VLeaf (v : json).

(** The hooks of the base class [Schema]: [descend] answers the schema
    itself, the others do nothing and answer [None]. *)
Definition Schema_descend (s : Schema) (tree : addr) (name : string)
  : eff World Schema := ret s.
Definition Schema_validate (s : Schema) (tree : addr) (name : string)
    (v : value) : eff World unit := ret tt.
Definition Schema_setup (s : Schema) (tree : addr) : eff World unit := ret tt.
Definition Schema_extra (s : Schema) (tree : addr)
  : eff World (option (gmap string value)) := ret None.
Definition Schema_pose (s : Schema) (tree : addr) (name : string) (v : json)
  : eff World (option addr) := ret None.

(** [Tree._setup]; the call of the hook is recorded. *)
Definition Tree__setup (t : addr) : eff World unit :=
  let* x := read_tree t in
  let* _ := fun w => (Return tt, set_setups (t :: setups w) w) in
  Schema_setup (t_schema x) t.

(** [Tree._get] *)
Definition Tree__get (t : addr) (name : string) (raw : bool)
    (default : option value) : eff World value :=
  let* x := read_tree t in
  match t_entries x !! name with
  | Some c => ret (VTree c)
  | None =>
      let* extra := Schema_extra (t_schema x) t in
      match extra ≫= (fun m => m !! name) with
      | Some v => ret v
      | None =>
          let* node :=
            match t_node x with
            | Some n =>
                let* it := read_item n in
                if negb (is_Node it) then raise ValueError
                else catch (let* c := Node_get n name in ret (Some c))
                           KeyError (ret None)
            | None => ret None
            end in
          let* leaf :=
            match node with
            | Some c =>
                let* it := read_item c in
                ret (match i_body it with
                     | BLeaf v => Some v
                     | BNode _ => None
                     end)
            | None => ret None
            end in
          match leaf with
          | Some v =>
              if raw then ret (VLeaf v)
              else
                let* result := Schema_pose (t_schema x) t name v in
                match result with
                | Some r => ret (VTree r)
                | None => ret (VLeaf v)
                end
          | None =>
              match default with
              | Some d => ret d
              | None =>
                  let* schema := Schema_descend (t_schema x) t name in
                  let* val :=
                    new_tree (mkTree ∅ (Some t) (Some name) node schema) in
                  let* _ :=
                    update_tree t (fun x =>
                      with_entries (<[name := val]> (t_entries x)) x) in
                  ret (VTree val)
              end
          end
      end
  end.

(** [facade.__node.method(...)]: the node of a facade, which may be unset. *)
Definition node_of (t : addr) : eff World addr :=
  let* x := read_tree t in
  from_option ret (raise AttributeError) (t_node x).

(** [Tree.__realize] *)
Fixpoint Tree___realize (fuel : nat) (t : addr) : eff World unit :=
  match fuel with
  | O => raise RecursionError
  | S fuel' =>
      let* x := read_tree t in
      match t_node x with
      | Some _ => ret tt
      | None =>
          let* p := from_option ret (raise AttributeError) (t_parent x) in
          let* _ := Tree___realize fuel' p in
          let* pn := node_of p in
          let* name := from_option ret (raise AssertionError) (t_name x) in
          let* (n, created) := Node_node fuel pn name in
          let* _ := update_tree t (with_node (Some n)) in
          if created : bool then Tree__setup t else ret tt
      end
  end.

(** [Tree.__load] *)
Fixpoint Tree___load (fuel : nat) (t : addr) : eff World unit :=
  match fuel with
  | O => raise RecursionError
  | S fuel' =>
      let* x := read_tree t in
      match t_node x with
      | Some _ => ret tt
      | None =>
          let* p := from_option ret (raise AttributeError) (t_parent x) in
          let* _ := Tree___load fuel' p in
          let* pn := node_of p in
          let* name := from_option ret (raise KeyError) (t_name x) in
          let* n := Node_get pn name in
          let* it := read_item n in
          if is_Node it then update_tree t (with_node (Some n)) else ret tt
      end
  end.

(** [Tree._keys] *)
Definition Tree__keys (fuel : nat) (t : addr) : eff World (list string) :=
  let* _ := Tree___load fuel t in
  let* x := read_tree t in
  match t_node x with
  | None => raise KeyError
  | Some n => Node_keys n
  end.

(** [Tree._del] *)
Definition Tree__del (fuel : nat) (t : addr) (name : string) : eff World unit :=
  let* x := read_tree t in
  match t_node x with
  | Some n => let* _ := Node_remove fuel n name in ret tt
  | None => ret tt
  end.

(** [Tree.__check] *)
Fixpoint Tree___check (fuel : nat) (t : addr) (schema : Schema)
  : eff World unit :=
  match fuel with
  | O => raise RecursionError
  | S fuel' =>
      let* _ := Tree___realize fuel t in
      let* n := node_of t in
      let* keys := Node_keys n in
      for_each (sorted keys) (fun k =>
        let* v := Tree__get t k false None in
        match v with
        | VLeaf _ => Schema_validate schema t k v
        | VTree c =>
            let* sub := Schema_descend schema t k in
            Tree___check fuel' c sub
        end)
  end.

(** [Tree.__precheck] *)
Definition Tree___precheck (fuel : nat) (t : addr) (name : string) (v : addr)
  : eff World unit :=
  let* x := read_tree t in
  let* schema := Schema_descend (t_schema x) t name in
  Tree___check fuel v schema.

(** [Tree.__patch] and [Tree.__rec_patch] *)
Fixpoint Tree___patch (fuel : nat) (t : addr) (name : string) (v : addr)
  : eff World unit :=
  match fuel with
  | O => raise RecursionError
  | S fuel' =>
      let* x := read_tree t in
      let* schema := Schema_descend (t_schema x) t name in
      let* _ := update_tree v (with_schema schema) in
      (* value.__rec_patch() *)
      let* _ := Tree___realize fuel v in
      let* n := node_of v in
      let* keys := Node_keys n in
      for_each (sorted keys) (fun k =>
        let* c := Tree__get v k false None in
        match c with
        | VTree c => Tree___patch fuel' v k c
        | VLeaf _ => ret tt
        end)
  end.

(** The second argument of [Tree._set]: [Move(source)], a facade to copy,
    [Empty()], or a value for a leaf. *)
Inductive setarg : Type :=
  | AMove (source : addr)
  | ATree (t : addr)
  | AEmpty
  | AValue (v : json).

(** The loop of [Tree._set] that walks from the destination to the root. *)
Fixpoint move_guard (fuel : nat) (p : option addr) (vnode : option addr)
  : eff World unit :=
  match p with
  | None => ret tt
  | Some p =>
      match fuel with
      | O => fun w => (Diverge, w)
      | S fuel' =>
          let* x := read_tree p in
          if bool_decide (t_node x = vnode) then raise RuntimeError
          else move_guard fuel' (t_parent x) vnode
      end
  end.

(** [Tree._set] *)
Definition Tree__set (fuel : nat) (t : addr) (name : string) (arg : setarg)
  : eff World unit :=
  match arg with
  | AMove v =>
      let* vx := read_tree v in
      match t_node vx with
      | None => raise KeyError
      | Some _ =>
          let* _ := Tree___precheck fuel t name v in
          let* vx := read_tree v in
          let* _ := move_guard fuel (Some t) (t_node vx) in
          let* _ := Tree___realize fuel t in
          let* vx := read_tree v in
          let* vp := from_option ret (raise AttributeError) (t_parent vx) in
          let* vpn := node_of vp in
          let* vname := from_option ret (raise KeyError) (t_name vx) in
          let* n := Node_remove fuel vpn vname in
          let* _ := Tree___patch fuel t name v in
          let* tn := node_of t in
          let* _ := Node_set fuel tn name n in
          let* _ :=
            update_tree t (fun x => with_entries (delete name (t_entries x)) x) in
          update_tree v (with_parent (Some t))
      end
  | ATree v =>
      let* x := read_tree t in
      if bool_decide (t_entries x !! name = Some v) then ret tt
      else
        let* _ := Tree___precheck fuel t name v in
        let* vn := node_of v in
        let* n := Item_clone fuel vn in
        let* _ := Tree___realize fuel t in
        let* _ := Tree___patch fuel t name v in
        let* tn := node_of t in
        Node_set fuel tn name n
  | AEmpty =>
      let* value := Node_new in
      let* _ := Tree___realize fuel t in
      let* tn := node_of t in
      Node_set fuel tn name value
  | AValue v =>
      let* x := read_tree t in
      let* _ := Schema_validate (t_schema x) t name (VLeaf v) in
      let* value := Leaf_new v in
      let* _ := Tree___realize fuel t in
      let* tn := node_of t in
      Node_set fuel tn name value
  end.

(** [Configuration(None, schema=..., volatile=...)] *)
Definition Configuration_in_memory (schema : Schema) (vol : bool)
  : outcome (addr * World) :=
  match Store_open_in_memory vol with
  | Return w =>
      match (let* n := Node_new in
             let* t := new_tree (mkTree ∅ None None (Some n) schema) in
             let* _ := Store__set_root n in
             ret t) w with
      | (Return t, w') => Return (t, w')
      | (Raise e, _) => Raise e
      | (Diverge, _) => Diverge
      end
  | Raise e => Raise e
  | Diverge => Diverge
  end.

(** Python [str] methods used by the queries. *)















End Store.

(** ** Examples *)

(** An instance of the JSON functions for the examples, which hold
    integers only: integers and objects of integers are written in the
    compact form, anything else as [null]; nothing is ever read back. *)
Definition example_dumps_int (v : json) : list byte :=
  match v with
  | JInt n => format_0d n 1
  | _ => b "null"
  end.

Fixpoint join_bytes (sep : list byte) (l : list (list byte)) : list byte :=
  match l with
  | [] => []
  | [x] => x
  | x :: l' => x ++ sep ++ join_bytes sep l'
  end.

Definition example_dumps (v : json) : list byte :=
  match v with
  | JDict d =>
      b "{" ++
      join_bytes (b ",")
        (map (fun item : string * json =>
                [x22] ++ b item.1 ++ [x22; x3a] ++ example_dumps_int item.2)
           (sorted_items d))
      ++ b "}"
  | _ => example_dumps_int v
  end.

Definition example_json : Json :=
  {| dumps := example_dumps; loads := fun _ => None |}.

(** [tree.name], for a name that leads to a facade. *)
Definition facade `{Json} (t : addr) (name : string) : eff World addr :=
  let* v := Tree__get t name false None in
  match v with
  | VTree c => ret c
  | VLeaf _ => raise AttributeError
  end.

Definition no_world : World :=
  mkWorld (mkStorage [] 0 false false) 0 RootNone false [] [] [].

(** [Configuration(None)], an empty tree in memory; its facade is 0. *)
Definition empty_config `{Json} : World :=
  match Configuration_in_memory (mkSchema 0) false with
  | Return (_, w) => w
  | _ => no_world
  end.

(** The tree [{a: {b: 1, c: 2}, d: {b: 3}}], built by
    [root.a.b = 1; root.a.c = 2; root.d.b = 3]. *)
Definition example_config `{Json} : World :=
  snd ((let* a := facade 0%nat "a" in
        let* _ := Tree__set 8 a "b" (AValue (JInt 1)) in
        let* _ := Tree__set 8 a "c" (AValue (JInt 2)) in
        let* d := facade 0%nat "d" in
        Tree__set 8 d "b" (AValue (JInt 3))) empty_config).

(** The tree [{a: {b: {c: 1}}}], built by [root.a.b.c = 1].  The facade of
    the root is 0, that of [root.a] is 1 and that of [root.a.b] is 2. *)
Definition nested_config `{Json} : World :=
  snd ((let* a := facade 0%nat "a" in
        let* b := facade a "b" in
        Tree__set 8 b "c" (AValue (JInt 1))) empty_config).

(** A store just opened on a new file in memory. *)
Definition fresh_store `{Json} : World :=
  match Store_open_in_memory false with
  | Return w => w
  | _ => no_world
  end.

(** A leaf stored under [k] in the root node and then replaced there:
    [a = Leaf(1); n.set('k', a); n.set('k', Leaf(2))].  The root node is
    item 0, [a] is item 1 and the second leaf is item 2. *)
Definition replaced_child `{Json} : World :=
  snd ((let* a := Leaf_new (JInt 1) in
        let* _ := Node_set 8 0%nat "k" a in
        let* c := Leaf_new (JInt 2) in
        Node_set 8 0%nat "k" c) empty_config).

(** A file whose last record has lost its newline: the header of a new
    storage followed by a TAB and [abc].  The record starts at offset 53
    and the file ends at offset 57. *)
Definition truncated_storage : Storage :=
  mkStorage (content Storage_open_in_memory ++ [TAB] ++ b "abc") 0 false false.

(** A storage in memory holding the one record [hello], at offset 53. *)
Definition hello_storage : Storage :=
  snd (Storage_store (b "hello") Storage_open_in_memory).

(** A second handle on the file of [w]: the state [w2] of another process
    whose storage sees the content that [w] has left. *)
Definition on_file_of (w w2 : World) : World :=
  set_storage (set_content (content (storage w)) (storage w2)) w2.

(** An instance of the JSON functions that reads back the values of the
    list [known]: the first of them whose text is the data. *)
Definition example_loads (known : list json) (data : list byte)
  : option json :=
  List.find (fun v => bytes_eqb (example_dumps v) data) known.

Definition reading_json (known : list json) : Json :=
  {| dumps := example_dumps; loads := example_loads known |}.

(** ** Notions used in the statements *)

(** An effect keeps the relation [R] between the state it starts from and
    the state it leaves, whatever its outcome. *)
Definition preserves {S A} (R : S -> S -> Prop) (m : eff S A) : Prop :=
  forall s r s', m s = (r, s') -> R s s'.

(** What the store does to its file while it persists items: with the lock
    free before, it is free after, and the file has only grown at its end. *)
Definition file_grows (w w' : World) : Prop :=
  locked (storage w) = false ->
  locked (storage w') = false
  /\ lockable (storage w') = lockable (storage w)
  /\ current_root w' = current_root w
  /\ root w' = root w
  /\ exists extra, content (storage w') = content (storage w) ++ extra.





(** The state [w'] is [w] but for items whose offset has been cleared. *)
Definition dirtied (w w' : World) : Prop :=
  storage w' = storage w
  /\ current_root w' = current_root w
  /\ root w' = root w
  /\ volatile w' = volatile w
  /\ trees w' = trees w
  /\ setups w' = setups w
  /\ Forall2 (fun it it' => it' = it \/ it' = with_offset None it)
       (items w) (items w').

(** An entry after a lazy load: the same, or the child that the load has
    created for the tuple [(offset, None)]. *)
Definition entry_resolved (B : nat) (e e' : entry) : Prop :=
  e' = e
  \/ exists o c, e = ETuple o None
       /\ (e' = EItem c \/ e' = ETuple o (Some c)) /\ (B <= c)%nat.

Definition body_resolved (B : nat) (bd bd' : body) : Prop :=
  match bd, bd' with
  | BLeaf v, BLeaf v' => v' = v
  | BNode es, BNode es' =>
      forall k, option_Forall2 (entry_resolved B) (es !! k) (es' !! k)
  | _, _ => False
  end.

Definition item_resolved (B : nat) (it it' : Item) : Prop :=
  i_link it' = i_link it
  /\ i_store it' = i_store it
  /\ i_offset it' = i_offset it
  /\ body_resolved B (i_body it) (i_body it').

(** Some node of [w] has a child that is still on file only. *)
Definition unresolved (w : World) : Prop :=
  exists a it es k o,
    items w !! a = Some it /\ i_body it = BNode es
    /\ es !! k = Some (ETuple o None).

(** Nothing but loading has happened between [w] and [w']: the file has
    the same content, no [setup] was called, every item of [w] has its
    link, its offset, its value or its keys, with children that were not
    loaded possibly loaded now, and every facade of [w] has its parent,
    its name and, when it had one, its node.  With every child of [w] in
    memory already, the items are the same.  The root of the store is the
    same. *)
Definition only_loaded (w w' : World) : Prop :=
  content (storage w') = content (storage w)
  /\ setups w' = setups w
  /\ (length (items w) <= length (items w'))%nat
  /\ (forall a it, items w !! a = Some it ->
        exists it', items w' !! a = Some it'
          /\ item_resolved (length (items w)) it it')
  /\ (length (trees w) <= length (trees w'))%nat
  /\ (forall t x, trees w !! t = Some x ->
        exists x', trees w' !! t = Some x'
          /\ t_parent x' = t_parent x /\ t_name x' = t_name x
          /\ (forall n, t_node x = Some n -> t_node x' = Some n))
  /\ (~ unresolved w -> items w' = items w)
  /\ root w' = root w
  /\ current_root w' = current_root w.

(** A facade kept in the cache of [t] under [k] and not bound to a node
    is a child of [t] named [k]. *)
Definition child_ok (w : World) (t : addr) (k : string) (c : addr) : Prop :=
  exists cx, trees w !! c = Some cx
    /\ (t_node cx = None -> t_parent cx = Some t /\ t_name cx = Some k).

Definition cache_ok (w : World) : Prop :=
  forall t x k c,
    trees w !! t = Some x -> t_entries x !! k = Some c -> child_ok w t k c.

(** [cache_ok], computed. *)
Definition cache_okb (w : World) : bool :=
  forallb (fun tx : addr * Tree =>
    forallb (fun kc : string * addr =>
      match trees w !! kc.2 with
      | Some cx =>
          match t_node cx with
          | Some _ => true
          | None => bool_decide (t_parent cx = Some tx.1
                                 /\ t_name cx = Some kc.1)
          end
      | None => false
      end) (map_to_list (t_entries tx.2)))
    (imap pair (trees w)).

(** The node [n] exists and has the key [k]. *)
Definition has_key (w : World) (n : addr) (k : string) : Prop :=
  exists it es, items w !! n = Some it /\ i_body it = BNode es
                /\ is_Some (es !! k).



(** ** storage.py: the generator [records] *)

(** A generator over the storage, run to its end: the state is the file
    together with what has been yielded so far. *)
Definition yielding : Type := Storage * list (Z * list byte).

Definition on_file {A} (m : eff Storage A) : eff yielding A := fun st =>
  let '(r, s') := m st.1 in (r, (s', st.2)).

Definition yield (y : Z * list byte) : eff yielding unit := fun st =>
  (Return tt, (st.1, st.2 ++ [y])).

(** [with self.__lock():] around the body of a generator. *)
Definition lock_yielding {A} (body : eff yielding A) : eff yielding A :=
  fun st =>
  if locked st.1 then (Raise AssertionError, st)
  else if lockable st.1 then
    let '(r, st') := body (set_locked true st.1, st.2) in
    (r, (set_locked false st'.1, st'.2))
  else body st.

(** [Storage.records] *)
Fixpoint records_loop (fuel : nat) : eff yielding unit :=
  match fuel with
  | O => fun st => (Diverge, st)
  | S fuel' =>
      let* offset := on_file f_tell in
      let* line := on_file f_readline in
      match line with
      | [] => ret tt
      | _ =>
          if negb (endswith NL line) then raise CorruptedFormat
          else if negb (startswith TAB line) then raise CorruptedFormat
          else if negb (find TAB line 1 =? -1) then raise CorruptedFormat
          else
            let* _ := yield (offset, slice line (Some 1) (Some (-1))) in
            records_loop fuel'
      end
  end.

Definition Storage_records : eff yielding unit :=
  let* _ := on_file (f_seek 0) in
  lock_yielding (
    let offset := 0 in
    let* line := on_file f_readline in
    if negb (endswith NL line) then raise CorruptedFormat
    else if negb (bytes_eqb (slice line None (Some (-1))) IDENTIFIER)
    then raise CorruptedFormat
    else
      let* _ := yield (offset, slice line None (Some (-1))) in
      let* offset := on_file f_tell in
      let* line := on_file f_readline in
      if negb (endswith NL line) then raise CorruptedFormat
      else
        let* _ := yield (offset, slice line None (Some (-1))) in
        fun st =>
          records_loop (S (length (content st.1) - position st.1)) st).

(** [list(storage.records())], with the way the generator has ended. *)
Definition records_of (s : Storage) : list (Z * list byte) * outcome unit :=
  let '(r, st) := Storage_records (s, []) in (st.2, r).

(** The files reached from [s] by calls of [store] and [set_current]
    that return, the offsets given to [set_current] not negative. *)
Inductive reaches (s : Storage) : Storage -> Prop :=
  | reaches_here : reaches s s
  | reaches_store s1 record offset s2 :
      reaches s s1 -> Storage_store record s1 = (Return offset, s2) ->
      reaches s s2
  | reaches_set_current s1 offset lease s2 :
      reaches s s1 -> 0 <= offset ->
      Storage_set_current offset lease s1 = (Return tt, s2) ->
      reaches s s2.

(** ** store.py and tree.py: further methods *)

(** [Store._reset] *)
Definition Store__reset : eff World unit := fun w =>
  (Return tt, set_root (RootInt (current_root w)) w).

(** [Store.detach_root]; an offset and [None] have no [_detach]. *)
Definition Store_detach_root : eff World addr :=
  let* w := get_state in
  match root w with
  | RootItem a =>
      let* _ := Item__detach a in
      let* _ := fun w => (Return tt, set_root RootNone w) in
      ret a
  | _ => raise AttributeError
  end.

Section Membership.
Context `{Json}.

(** [Tree._has]; without a node, [None] has no [keys]. *)
Definition Tree__has (fuel : nat) (t : addr) (name : string)
  : eff World bool :=
  let* _ := Tree___load fuel t in
  let* x := read_tree t in
  match t_node x with
  | None => raise AttributeError
  | Some n =>
      let* ks := Node_keys n in
      ret (bool_decide (name ∈ ks))
  end.

End Membership.

(** [Leaf.get] and [Leaf.set]; a node has other methods of these names. *)
Definition Leaf_get (a : addr) : eff World json :=
  let* it := read_item a in
  match i_body it with
  | BLeaf v => ret v
  | BNode _ => raise TypeError
  end.

Definition Leaf_set (fuel : nat) (a : addr) (value : json) : eff World unit :=
  let* it := read_item a in
  match i_body it with
  | BLeaf _ =>
      let* _ := update_item a (with_body (BLeaf value)) in
      Item__changed fuel a
  | BNode _ => raise TypeError
  end.

(** ** Further notions used in the statements *)

(** The records with the offsets at which they start, the first one at
    [offset]. *)
Fixpoint record_table (offset : nat) (records : list (list byte))
  : list (Z * list byte) :=
  match records with
  | [] => []
  | r :: rs => (Z.of_nat offset, r) :: record_table (offset + length r + 2) rs
  end.

(** The layout of a file: not locked, a root line of [DEFAULT_HEADER]
    digits, records free of markers and newlines. *)
Definition laid_out (s : Storage) (digits : list byte)
    (records : list (list byte)) : Prop :=
  locked s = false
  /\ content s = file_of digits records
  /\ length digits = DEFAULT_HEADER
  /\ forallb is_digit digits = true
  /\ Forall (fun r => (TAB ∉ r) /\ (NL ∉ r)) records.

(** The flags of the lock in [s'] are those of [s]. *)
Definition same_flags (s s' : Storage) : Prop :=
  locked s' = locked s /\ lockable s' = lockable s.

(** The first digit of [u] is not a zero. *)
Definition leading (u : Decimal.uint) : bool :=
  match u with
  | Decimal.Nil | Decimal.D0 _ => false
  | _ => true
  end.

(** The item [b], when it is modified and attached to a node, has a
    modified parent. *)
Definition parent_modified (w : World) (b : addr) : Prop :=
  forall it p k,
    items w !! b = Some it -> i_offset it = None ->
    i_link it = Some (mkLink (ONode p) k) ->
    exists pit, items w !! p = Some pit /\ i_offset pit = None.

(** Every modified item has a modified parent, so that the modified
    items are found from the root through modified items only. *)
Definition parents_modified (w : World) : Prop :=
  forall b, parent_modified w b.

(** The chain of links of [a] ends, [d] items up, at an item that is
    detached or is the root of the store. *)
Inductive rooted (w : World) : addr -> nat -> Prop :=
  | rooted_detached a it :
      items w !! a = Some it -> i_link it = None -> rooted w a 0
  | rooted_store a it :
      items w !! a = Some it -> i_link it = Some (mkLink OStore ROOT) ->
      rooted w a 0
  | rooted_child a it p k d :
      items w !! a = Some it -> i_link it = Some (mkLink (ONode p) k) ->
      rooted w p d -> rooted w a (S d).

(** The offset of the item [a], if it exists and is not modified. *)
Definition offset_of (w : World) (a : addr) : option Z :=
  items w !! a ≫= i_offset.

(** From [w] to [w'] the records of the file have stayed where they were
    and the items have kept their values and their entries. *)
Definition grown (w w' : World) : Prop :=
  (forall o r, fst (Storage_load o (storage w)) = Return r ->
               fst (Storage_load o (storage w')) = Return r)
  /\ forall b it, items w !! b = Some it ->
       exists it', items w' !! b = Some it' /\ i_body it' = i_body it.

(** What [_persist] does to a store that is not volatile: records are
    added to the file, items get an offset, and nothing else changes; an
    item that had an offset keeps it. *)
Definition persisted (w w' : World) : Prop :=
  locked (storage w') = false
  /\ lockable (storage w') = lockable (storage w)
  /\ (exists extra, content (storage w') = content (storage w) ++ extra)
  /\ current_root w' = current_root w /\ root w' = root w
  /\ volatile w' = volatile w /\ trees w' = trees w /\ setups w' = setups w
  /\ length (items w') = length (items w)
  /\ forall b it, items w !! b = Some it ->
       exists it', items w' !! b = Some it'
         /\ i_link it' = i_link it /\ i_store it' = i_store it
         /\ i_body it' = i_body it
         /\ (forall o, i_offset it = Some o -> i_offset it' = Some o).

(** What the loop of [Node._persist] has put in [node] for the entry
    [e]: the offset of the tuple, or the offset that the child has. *)
Definition child_now (w : World) (e : entry) (j : option json) : Prop :=
  match e with
  | ETuple o _ => j = Some (JInt o)
  | EItem c => exists o, j = Some (JInt o) /\ offset_of w c = Some o
  end.

Section Written.
Context `{Json}.

(** The file of [w'] holds at [o] the record of the item [a], made of the
    JSON value [v]: for a leaf its value, for a node the dictionary of
    the offsets of its children, where a child that was modified in [w]
    is itself on the file of [w'] at the offset that the dictionary
    gives. *)
Inductive written (w w' : World) : addr -> Z -> json -> Prop :=
  | written_leaf a it v o :
      items w' !! a = Some it -> i_body it = BLeaf v ->
      fst (Storage_load o (storage w'))
        = Return (Kind_value Kind_leaf ++ dumps v) ->
      written w w' a o v
  | written_node a it es o node :
      items w' !! a = Some it -> i_body it = BNode es ->
      fst (Storage_load o (storage w'))
        = Return (Kind_value Kind_node ++ dumps (JDict node)) ->
      (forall k, node !! k = None <-> es !! k = None) ->
      (forall k e, es !! k = Some e -> child_written w w' e (node !! k)) ->
      written w w' a o (JDict node)
with child_written (w w' : World) : entry -> option json -> Prop :=
  | child_on_file o r : child_written w w' (ETuple o r) (Some (JInt o))
  | child_clean c o :
      offset_of w c = Some o -> child_written w w' (EItem c) (Some (JInt o))
  | child_dirty c o v :
      offset_of w c = None -> written w w' c o v ->
      child_written w w' (EItem c) (Some (JInt o)).

Scheme written_mut := Minimality for written Sort Prop
  with child_written_mut := Minimality for child_written Sort Prop.

(** Every item that was modified in [w] and has an offset in [w'] is on
    the file of [w'] at that offset. *)
Definition all_written (w w' : World) : Prop :=
  forall b o, offset_of w b = None -> offset_of w' b = Some o ->
    exists v, written w w' b o v.

End Written.

(** The flags of the lock of the file are the same in [w'] as in [w]. *)
Definition flags_kept (w w' : World) : Prop :=
  same_flags (storage w) (storage w').

(** The facades of [w] are in [w'] what they were in [w], but that a
    facade without a node may have got one. *)
Definition facades_kept (w w' : World) : Prop :=
  forall t x, trees w !! t = Some x ->
    exists x', trees w' !! t = Some x'
      /\ t_entries x' = t_entries x /\ t_parent x' = t_parent x
      /\ t_name x' = t_name x /\ t_schema x' = t_schema x
      /\ (forall n, t_node x = Some n -> t_node x' = Some n).

(** The leaves of [w] are in [w'] with the values they had. *)
Definition leaves_kept (w w' : World) : Prop :=
  forall a it v, items w !! a = Some it -> i_body it = BLeaf v ->
    exists it', items w' !! a = Some it' /\ i_body it' = BLeaf v.

(** The item [b] is [a] or is found from [a] by following the links to
    the parents. *)
Inductive above (w : World) : addr -> addr -> Prop :=
  | above_self a : above w a a
  | above_parent a it p k b :
      items w !! a = Some it -> i_link it = Some (mkLink (ONode p) k) ->
      above w p b -> above w a b.

(** * Properties *)

(** *** Bytes *)

Lemma byte_eqb_true (x y : byte) : Byte.eqb x y = true <-> x = y.
Proof. split; [apply Byte.byte_dec_bl | apply Byte.byte_dec_lb]. Qed.

Lemma byte_eqb_false (x y : byte) : Byte.eqb x y = false <-> x <> y.
Proof.
  split; [apply Byte.eqb_false|].
  intros H. destruct (Byte.eqb x y) eqn:E; [|reflexivity].
  apply byte_eqb_true in E. contradiction.
Qed.

(** *** Slices and searches *)

Lemma slice_to (l : list byte) (n : nat) :
  slice l None (Some (Z.of_nat n)) = take n l.
Proof.
  unfold slice, clamp; simpl.
  destruct (Z.ltb_spec (Z.of_nat n) 0); [lia|].
  rewrite Nat2Z.id, Nat.sub_0_r, drop_0.
  destruct (Nat.min_spec n (length l)) as [[? ->]|[? ->]]; [done|].
  by rewrite !take_ge by lia.
Qed.

Lemma slice_from (l : list byte) (n : nat) :
  slice l (Some (Z.of_nat n)) None = drop n l.
Proof.
  unfold slice, clamp; simpl.
  destruct (Z.ltb_spec (Z.of_nat n) 0); [lia|].
  rewrite Nat2Z.id.
  destruct (Nat.min_spec n (length l)) as [[? ->]|[? ->]].
  - apply take_ge. rewrite length_drop. lia.
  - rewrite !drop_ge by lia. by rewrite take_nil.
Qed.

Lemma slice_init (l : list byte) :
  slice l None (Some (-1)) = take (length l - 1) l.
Proof.
  unfold slice, clamp; simpl. rewrite drop_0, Nat.sub_0_r.
  f_equal. lia.
Qed.

Lemma slice_inner (l : list byte) :
  slice l (Some 1) (Some (-1)) = take (length l - 2) (drop 1 l).
Proof.
  unfold slice, clamp; simpl.
  destruct l as [|x l]; [done|]. simpl.
  rewrite drop_0. f_equal. lia.
Qed.

Lemma index_of_Some c l i :
  index_of c l = Some i ->
  (i < length l)%nat /\ l !! i = Some c /\ index_of c (take i l) = None.
Proof.
  revert i. induction l as [|x l IH]; intros i; simpl; [done|].
  destruct (Byte.eqb x c) eqn:E.
  - intros [= <-]. apply byte_eqb_true in E. subst. simpl. split; [lia|done].
  - destruct (index_of c l) as [j|]; [|done]. simpl. intros [= <-].
    destruct (IH j eq_refl) as (? & ? & ?). simpl. rewrite E.
    split; [lia|]. split; [done|]. by rewrite H1.
Qed.

Lemma index_of_None c l : index_of c l = None <-> c ∉ l.
Proof.
  induction l as [|x l IH]; simpl.
  - split; [intros _; apply not_elem_of_nil|done].
  - destruct (Byte.eqb x c) eqn:E.
    + apply byte_eqb_true in E. subst. split; [done|]. intros []. left.
    + apply byte_eqb_false in E. rewrite not_elem_of_cons.
      destruct (index_of c l); simpl; split; try done.
      * intros [_ ?]. by apply IH in H.
      * intros _. split; [done|]. by apply IH.
Qed.

Lemma index_of_app_l c l1 l2 i :
  index_of c l1 = Some i -> index_of c (l1 ++ l2) = Some i.
Proof.
  revert i. induction l1 as [|x l1 IH]; intros i; simpl; [done|].
  destruct (Byte.eqb x c); [done|].
  destruct (index_of c l1) as [j|]; [|done]. simpl.
  intros [= <-]. by rewrite (IH j).
Qed.

Lemma index_of_app_r c l1 l2 :
  index_of c l1 = None ->
  index_of c (l1 ++ l2) = (fun i => (length l1 + i)%nat) <$> index_of c l2.
Proof.
  induction l1 as [|x l1 IH]; simpl.
  - intros _. by destruct (index_of c l2).
  - destruct (Byte.eqb x c); [done|].
    destruct (index_of c l1); [done|]. intros _.
    rewrite IH by done. by destruct (index_of c l2).
Qed.

Lemma find_0 c l :
  find c l 0 = match index_of c l with Some i => Z.of_nat i | None => -1 end.
Proof. unfold find. rewrite drop_0. by destruct (index_of c l). Qed.

Lemma byte_in_false c l : byte_in c l = false <-> c ∉ l.
Proof.
  unfold byte_in. induction l as [|x l IH]; simpl.
  - split; [intros _; apply not_elem_of_nil|done].
  - rewrite orb_false_iff, IH, not_elem_of_cons, byte_eqb_false. done.
Qed.

(** *** Reading lines *)

Lemma BLOCK_pos : BLOCK = S (pred BLOCK).
Proof. reflexivity. Qed.

Local Opaque BLOCK.

Lemma getline_loop_spec fuel buffer s :
  index_of NL buffer = None ->
  (length (content s) - position s < fuel)%nat ->
  let rest := drop (position s) (content s) in
  exists buffer' p',
    getline_loop fuel buffer s =
      (match index_of NL rest with
       | Some i => Return (Some (buffer ++ take (S i) rest), buffer')
       | None => if is_nil (buffer ++ rest) then Return (None, [])
                 else Raise RuntimeError
       end, set_position p' s)
    /\ (forall i, index_of NL rest = Some i ->
          buffer' ++ drop p' (content s) = drop (S i) rest).
Proof.
  revert buffer s. induction fuel as [|fuel IH]; intros buffer s Hb Hf; [lia|].
  simpl. unfold bind, f_read.
  set (rest := drop (position s) (content s)).
  assert (rest = take BLOCK rest ++ drop (position s + length (take BLOCK rest)) (content s)) as Hsplit.
  { rewrite <- drop_drop. fold rest. rewrite length_take.
    destruct (Nat.min_spec BLOCK (length rest)) as [[? ->]|[? ->]].
    - by rewrite take_drop.
    - rewrite take_ge, drop_ge by lia. by rewrite app_nil_r. }
  destruct (take BLOCK rest) as [|x data'] eqn:Hdata.
  - assert (rest = []) as Hrest.
    { destruct rest; [done|]. rewrite BLOCK_pos in Hdata. done. }
    rewrite Hrest. simpl. rewrite app_nil_r.
    exists [], (position s + 0)%nat. split; [|done].
    destruct buffer; done.
  - cbv beta iota. set (data := x :: data') in *.
    assert (0 < length data)%nat as Hlen by (simpl; lia).
    clearbody data. clear x data'.
    assert (position s < length (content s))%nat as Hpos.
    { destruct (decide (position s < length (content s))%nat); [done|].
      unfold rest in Hsplit. rewrite drop_ge in Hsplit by lia.
      destruct data; simpl in *; [lia|done]. }
    rewrite find_0.
    destruct (index_of NL data) as [j|] eqn:Hj.
    + destruct (Z.eqb_spec (Z.of_nat j) (-1)); [lia|]. simpl.
      replace (Z.of_nat j + 1) with (Z.of_nat (S j)) by lia.
      rewrite slice_to, slice_from. unfold ret.
      destruct (index_of_Some _ _ _ Hj) as (Hjl & _ & _).
      assert (index_of NL rest = Some j) as ->.
      { rewrite Hsplit. by apply index_of_app_l. }
      exists (drop (S j) data), (position s + length data)%nat.
      split.
      * do 3 f_equal. rewrite Hsplit. by rewrite take_app_le by lia.
      * intros i [= <-]. rewrite Hsplit. by rewrite drop_app_le by lia.
    + destruct (Z.eqb_spec (-1) (-1)); [|done]. simpl.
      set (s' := set_position (position s + length data) s).
      destruct (IH (buffer ++ data) s') as (buffer' & p' & Hrun & Hrest).
      { rewrite index_of_app_r by done. by rewrite Hj. }
      { simpl. lia. }
      simpl in Hrun, Hrest. fold s'.
      exists buffer', p'. rewrite Hrun.
      set (rest' := drop (position s + length data) (content s)) in *.
      rewrite Hsplit. rewrite index_of_app_r by done.
      destruct (index_of NL rest') as [i'|] eqn:Hi'; simpl.
      * split.
        -- rewrite <- app_assoc. do 4 f_equal.
           replace (S (length data + i')) with (length data + S i')%nat by lia.
           by rewrite take_app_add.
        -- intros i [= <-]. rewrite (Hrest i' eq_refl).
           replace (S (length data + i')) with (length data + S i')%nat by lia.
           by rewrite drop_app_add.
      * split; [|done]. rewrite <- app_assoc. done.
Qed.

Lemma set_position_id s : set_position (position s) s = s.
Proof. by destruct s. Qed.

Lemma getline_spec buffer s :
  let stream := buffer ++ drop (position s) (content s) in
  exists buffer' p',
    Storage__getline buffer s =
      (match index_of NL stream with
       | Some i => Return (Some (take (S i) stream), buffer')
       | None => if is_nil stream then Return (None, [])
                 else Raise RuntimeError
       end, set_position p' s)
    /\ (forall i, index_of NL stream = Some i ->
          buffer' ++ drop p' (content s) = drop (S i) stream).
Proof.
  intros stream. unfold Storage__getline. rewrite find_0.
  destruct (index_of NL buffer) as [j|] eqn:Hj.
  - destruct (Z.eqb_spec (Z.of_nat j) (-1)); [lia|]. simpl.
    replace (Z.of_nat j + 1) with (Z.of_nat (S j)) by lia.
    rewrite slice_to, slice_from. unfold ret.
    destruct (index_of_Some _ _ _ Hj) as (Hjl & _ & _).
    unfold stream. rewrite (index_of_app_l _ _ _ _ Hj).
    exists (drop (S j) buffer), (position s). rewrite set_position_id.
    split.
    + by rewrite take_app_le by lia.
    + intros i [= <-]. by rewrite drop_app_le by lia.
  - destruct (Z.eqb_spec (-1) (-1)); [|done]. simpl.
    destruct (getline_loop_spec (S (length (content s) - position s)) buffer s)
      as (buffer' & p' & Hrun & Hrest); [done|lia|].
    simpl in Hrun, Hrest. exists buffer', p'. rewrite Hrun.
    unfold stream. rewrite index_of_app_r by done.
    destruct (index_of NL (drop (position s) (content s))) as [i|] eqn:Hi;
      simpl.
    + split.
      * replace (S (length buffer + i)) with (length buffer + S i)%nat by lia.
        by rewrite take_app_add.
      * intros ? [= <-]. rewrite (Hrest i eq_refl).
        replace (S (length buffer + i)) with (length buffer + S i)%nat by lia.
        by rewrite drop_app_add.
    + done.
Qed.

Lemma endswith_take_index c l i :
  index_of c l = Some i -> endswith c (take (S i) l) = true.
Proof.
  intros Hi. destruct (index_of_Some _ _ _ Hi) as (Hl & Hc & _).
  unfold endswith. rewrite (take_S_r _ _ _ Hc), last_snoc.
  by apply byte_eqb_true.
Qed.

Lemma load_spec offset s :
  exists p',
    Storage_load offset s =
      (if offset <? 0 then Raise ValueError
       else load_result (drop (Z.to_nat offset) (content s)),
       set_position p' s).
Proof.
  unfold Storage_load, bind at 1, f_seek.
  destruct (Z.ltb_spec offset 0).
  - exists (position s). by rewrite set_position_id.
  - set (s1 := set_position (Z.to_nat offset) s).
    destruct (getline_spec [] s1) as (buffer' & p' & Hrun & _).
    simpl in Hrun. unfold bind. rewrite Hrun. unfold load_result.
    exists p'.
    destruct (index_of NL (drop (Z.to_nat offset) (content s))) as [i|] eqn:Hi.
    + simpl. rewrite (endswith_take_index _ _ _ Hi). simpl.
      set (line := take (S i) _).
      destruct (startswith TAB line); simpl; [|done].
      destruct (find TAB line 1 =? -1); simpl; done.
    + destruct (drop (Z.to_nat offset) (content s)); simpl; done.
Qed.

Lemma write_at_end data old : write_at (length old) data old = old ++ data.
Proof.
  unfold write_at. rewrite take_ge, Nat.sub_diag by lia. simpl.
  rewrite drop_ge by lia. by rewrite app_nil_r.
Qed.

Lemma lock_spec {A} write (body : eff Storage A) s :
  locked s = false ->
  Storage___lock write body s =
    let '(r, s') := body (set_locked (lockable s) s) in
    (r, if lockable s then set_locked false s' else s').
Proof.
  intros Hl. unfold Storage___lock. rewrite Hl.
  destruct (lockable s) eqn:E; [done|].
  replace (set_locked false s) with s; [by destruct (body s)|].
  destruct s; simpl in *; by subst.
Qed.

Lemma store_spec record s :
  locked s = false ->
  (2 <= length (content s))%nat ->
  byte_in TAB record = false ->
  byte_in NL record = false ->
  Storage_store record s =
    (Return (Z.of_nat (length (content s))),
     mkStorage (content s ++ [TAB] ++ record ++ [NL])
       (length (content s) + length ([TAB] ++ record ++ [NL]))
       false (lockable s)).
Proof.
  intros Hl Hlen Ht Hn. unfold Storage_store. rewrite lock_spec by done.
  unfold bind, f_seek_end, f_tell, assert, f_write, ret. simpl.
  destruct (Z.leb_spec 2 (Z.of_nat (length (content s)))); [|lia].
  rewrite Ht, Hn. simpl. rewrite write_at_end.
  destruct s as [c p l lk]; simpl in *; subst l.
  destruct lk; reflexivity.
Qed.

Lemma index_of_record (record tail : list byte) :
  NL ∉ record ->
  index_of NL ([TAB] ++ record ++ [NL] ++ tail) = Some (S (length record)).
Proof.
  intros Hn. simpl. rewrite index_of_app_r by (by apply index_of_None).
  simpl. by rewrite Nat.add_0_r.
Qed.

Lemma find_from_1 c x l : find c (x :: l) 1 = match index_of c l with
                                               | Some i => Z.of_nat (1 + i)
                                               | None => -1 end.
Proof. unfold find. simpl. by rewrite drop_0. Qed.

Lemma load_result_record (record tail : list byte) :
  TAB ∉ record -> NL ∉ record ->
  load_result ([TAB] ++ record ++ [NL] ++ tail) = Return record.
Proof.
  intros Ht Hn. unfold load_result. rewrite index_of_record by done.
  replace (take (S (S (length record))) ([TAB] ++ record ++ [NL] ++ tail))
    with (TAB :: record ++ [NL]).
  2:{ simpl. f_equal.
      replace (S (length record)) with (length record + 1)%nat by lia.
      by rewrite take_app_add. }
  assert (startswith TAB (TAB :: record ++ [NL]) = true) as -> by done.
  rewrite find_from_1.
  assert (index_of TAB (record ++ [NL]) = None) as ->.
  { apply index_of_None. rewrite elem_of_app, list_elem_of_singleton.
    intros [?|?]; done. }
  simpl negb. cbv iota.
  rewrite slice_inner. simpl. rewrite drop_0, length_app. simpl.
  replace (length record + 1 - 1)%nat with (length record) by lia.
  by rewrite take_app_length.
Qed.

(** C2.  On a storage that is not locked and holds at least the two bytes
    of the shortest header, [store] of a record without TAB and NL returns
    an offset, and [load] of that offset then returns the record. *)
Theorem load_store_roundtrip (record : list byte) (s : Storage) :
  locked s = false ->
  (2 <= length (content s))%nat ->
  byte_in TAB record = false ->
  byte_in NL record = false ->
  exists offset s',
    Storage_store record s = (Return offset, s')
    /\ fst (Storage_load offset s') = Return record.
Proof.
  intros Hl Hlen Ht Hn.
  eexists _, _. split; [by apply store_spec|].
  destruct (load_spec (Z.of_nat (length (content s)))
    (mkStorage (content s ++ [TAB] ++ record ++ [NL])
       (length (content s) + length ([TAB] ++ record ++ [NL]))
       false (lockable s))) as (p' & ->).
  simpl fst. destruct (Z.ltb_spec (Z.of_nat (length (content s))) 0); [lia|].
  rewrite Nat2Z.id. simpl content. rewrite drop_app_length.
  rewrite <- (app_nil_r [NL]).
  apply (load_result_record record []); by apply byte_in_false.
Qed.

(** *** The header *)

Lemma IDENTIFIER_length : length IDENTIFIER = 36%nat.
Proof. reflexivity. Qed.

Lemma IDENTIFIER_no_NL : index_of NL IDENTIFIER = None.
Proof. reflexivity. Qed.

Local Opaque IDENTIFIER.

Lemma read_identifier s rest :
  content s = IDENTIFIER ++ [NL] ++ rest ->
  position s = 0%nat ->
  exists buffer' p',
    Storage__getline [] s =
      (Return (Some (IDENTIFIER ++ [NL]), buffer'), set_position p' s)
    /\ buffer' ++ drop p' (content s) = rest.
Proof.
  intros Hc Hp.
  destruct (getline_spec [] s) as (buffer' & p' & Hrun & Hrest).
  simpl in Hrun, Hrest. rewrite Hp, drop_0 in Hrun, Hrest.
  assert (index_of NL (content s) = Some (length IDENTIFIER)) as Hi.
  { rewrite Hc, index_of_app_r by apply IDENTIFIER_no_NL. simpl.
    by rewrite Nat.add_0_r. }
  rewrite Hi in Hrun. specialize (Hrest _ Hi).
  exists buffer', p'. split.
  - rewrite Hrun, Hc.
    replace (S (length IDENTIFIER)) with (length IDENTIFIER + 1)%nat by lia.
    by rewrite take_app_add.
  - rewrite Hrest, Hc.
    replace (S (length IDENTIFIER)) with (length IDENTIFIER + 1)%nat by lia.
    by rewrite drop_app_add.
Qed.

Lemma slice_init_snoc (l : list byte) x : slice (l ++ [x]) None (Some (-1)) = l.
Proof.
  rewrite slice_init, length_app. simpl.
  replace (length l + 1 - 1)%nat with (length l) by lia.
  by rewrite take_app_length.
Qed.

Lemma read_header {A}
    (k : list byte -> option (list byte) -> list byte -> eff Storage A) s rest :
  content s = IDENTIFIER ++ [NL] ++ rest ->
  position s = 0%nat ->
  exists buffer' p',
    (let* (line, buffer) := Storage__getline [] in
     let* l := subscript line in
     let* _ := assert (bytes_eqb (slice l None (Some (-1))) IDENTIFIER) in
     let* (line, buffer) := Storage__getline buffer in
     k l line buffer) s =
    match second_line rest with
    | Return line => k (IDENTIFIER ++ [NL]) line buffer' (set_position p' s)
    | Raise e => (Raise e, set_position p' s)
    | Diverge => (Diverge, set_position p' s)
    end.
Proof.
  intros Hc Hp.
  destruct (read_identifier s rest Hc Hp) as (buffer1 & p1 & Hrun1 & Hrest1).
  destruct (getline_spec buffer1 (set_position p1 s))
    as (buffer2 & p2 & Hrun2 & _).
  simpl in Hrun2. rewrite Hrest1 in Hrun2.
  exists (if index_of NL rest is Some _ then buffer2 else []), p2.
  unfold bind at 1. rewrite Hrun1. unfold bind at 1, subscript, ret at 1.
  unfold bind at 1. rewrite slice_init_snoc. unfold bytes_eqb.
  rewrite bool_decide_eq_true_2 by done. unfold assert, ret at 1.
  unfold bind at 1. rewrite Hrun2. unfold second_line.
  change (set_position p2 (set_position p1 s)) with (set_position p2 s).
  destruct (index_of NL rest); [done|]. by destruct rest.
Qed.

(** *** Decimal text *)

Lemma is_digit_spec c :
  is_digit c = true -> is_space c = false /\ is_Some (digit_of_byte c).
Proof. destruct c; intros Hd; try discriminate Hd; split; done. Qed.

Lemma uint_of_bytes_digits l :
  forallb is_digit l = true -> is_Some (uint_of_bytes l).
Proof.
  induction l as [|c l IH]; simpl; [done|].
  intros [Hc Hl]%andb_true_iff.
  destruct (is_digit_spec c Hc) as [_ [d ->]].
  destruct (IH Hl) as [u ->]. done.
Qed.

Lemma uint_of_bytes_is_digit l u :
  uint_of_bytes l = Some u -> forallb is_digit l = true.
Proof.
  revert u. induction l as [|c l IH]; intros u; simpl; [done|].
  destruct (digit_of_byte c) eqn:Hc; [|done].
  destruct (uint_of_bytes l) eqn:Hl; [|done]. intros _.
  rewrite (IH _ eq_refl), andb_true_r.
  destruct c; try discriminate Hc; done.
Qed.

Lemma lstrip_digit c l : is_digit c = true -> lstrip (c :: l) = c :: l.
Proof. intros [Hs _]%is_digit_spec. simpl. by rewrite Hs. Qed.

Lemma strip_digits_NL l :
  l <> [] -> forallb is_digit l = true -> strip (l ++ [NL]) = l.
Proof.
  intros Hne Hd. unfold strip.
  assert (forall k : list byte, forallb is_digit k = true ->
            lstrip (rev k) = rev k) as Hrev.
  { intros k Hkd. destruct (rev k) as [|x r] eqn:Hr; [done|].
    apply lstrip_digit.
    assert (In x k) as Hin by (apply in_rev; rewrite Hr; left; done).
    rewrite forallb_forall in Hkd. by apply Hkd. }
  assert (lstrip (l ++ [NL]) = l ++ [NL]) as ->.
  { destruct l as [|c l]; [done|]. simpl in Hd.
    apply andb_true_iff in Hd as [Hc Hl].
    rewrite <- app_comm_cons. by apply lstrip_digit. }
  rewrite rev_app_distr. simpl rev at 2. simpl app.
  change (lstrip (NL :: rev l)) with (lstrip (rev l)).
  rewrite Hrev by done. by rewrite rev_involutive.
Qed.

Lemma endswith_snoc c l : endswith c (l ++ [c]) = true.
Proof. unfold endswith. rewrite last_snoc. by apply byte_eqb_true. Qed.

Lemma parse_spec {S} (digits : list byte) (st : S) :
  Storage__parse_current_offset (Some (digits ++ [NL])) st =
    (if root_digits_ok digits then Return (decimal_value digits)
     else Raise CorruptedFormat, st).
Proof.
  unfold Storage__parse_current_offset.
  destruct (digits ++ [NL]) as [|x line] eqn:Hline.
  { by destruct digits. }
  rewrite <- Hline. clear x line Hline.
  rewrite endswith_snoc, slice_init_snoc, length_app.
  change (length [NL]) with 1%nat.
  unfold root_digits_ok.
  destruct (decide (digits = [])) as [->|Hne]; [done|].
  assert (isdigit digits = forallb is_digit digits) as ->
    by (by destruct digits).
  assert (1 <= length digits)%nat as Hlen
    by (destruct digits; [done|simpl; lia]).
  destruct (Nat.leb_spec 1 (length digits)); [|lia].
  destruct (Nat.leb_spec 2 (length digits + 1)); [|lia].
  destruct (Nat.leb_spec (length digits) MAX_HEADER);
    destruct (Nat.leb_spec (length digits + 1) (MAX_HEADER + 1)); try lia;
    cbn [andb negb]; [|done].
  destruct (forallb is_digit digits) eqn:Hd; cbn [negb]; [|done].
  unfold int. rewrite strip_digits_NL by done.
  unfold decimal_value.
  destruct (uint_of_bytes_digits _ Hd) as [u Hu].
  destruct digits as [|c0 l0]; [done|]. by rewrite Hu.
Qed.

Lemma parse_state {S} line (st : S) :
  Storage__parse_current_offset line st =
    (fst (Storage__parse_current_offset line tt), st).
Proof.
  unfold Storage__parse_current_offset.
  destruct line as [[|x l]|]; try done.
  destruct (negb _); [done|].
  unfold int. destruct (strip (x :: l)); [done|].
  by destruct (uint_of_bytes _).
Qed.

Lemma second_line_root digits tail :
  NL ∉ digits ->
  second_line (digits ++ [NL] ++ tail) = Return (Some (digits ++ [NL])).
Proof.
  intros Hn. unfold second_line.
  rewrite index_of_app_r by (by apply index_of_None). simpl.
  rewrite Nat.add_0_r.
  replace (S (length digits)) with (length digits + 1)%nat by lia.
  by rewrite take_app_add.
Qed.

Lemma get_current_gen s rest :
  locked s = false ->
  content s = IDENTIFIER ++ [NL] ++ rest ->
  exists p',
    Storage_get_current s =
      (match second_line rest with
       | Return line => fst (Storage__parse_current_offset line tt)
       | Raise e => Raise e
       | Diverge => Diverge
       end, set_position p' s).
Proof.
  intros Hl Hc. unfold Storage_get_current.
  unfold bind at 1, f_seek. simpl.
  set (s0 := set_position (Z.to_nat 0) s).
  unfold bind at 1. rewrite lock_spec by done.
  destruct (read_header (fun _ line _ => ret line)
              (set_locked (lockable s0) s0) rest) as (buffer' & p' & ->);
    [done..|].
  exists p'.
  destruct (second_line rest) as [line| |]; unfold ret.
  - rewrite parse_state. f_equal.
    destruct s as [c p l lk]; simpl in *; subst l. by destruct lk.
  - f_equal. destruct s as [c p l lk]; simpl in *; subst l. by destruct lk.
  - f_equal. destruct s as [c p l lk]; simpl in *; subst l. by destruct lk.
Qed.

Lemma get_current_spec s digits tail :
  locked s = false ->
  content s = IDENTIFIER ++ [NL] ++ digits ++ [NL] ++ tail ->
  NL ∉ digits ->
  exists p',
    Storage_get_current s =
      (if root_digits_ok digits then Return (decimal_value digits)
       else Raise CorruptedFormat, set_position p' s).
Proof.
  intros Hl Hc Hn.
  destruct (get_current_gen s _ Hl Hc) as (p' & ->). exists p'.
  rewrite second_line_root by done. by rewrite parse_spec.
Qed.

Lemma write_at_middle (a old new c : list byte) :
  length new = length old ->
  write_at (length a) new (a ++ old ++ c) = a ++ new ++ c.
Proof.
  intros Hlen. unfold write_at.
  rewrite take_app_length.
  replace (length a - length (a ++ old ++ c))%nat with 0%nat
    by (rewrite length_app; lia).
  simpl. rewrite drop_app_add, Hlen, drop_app_length. done.
Qed.

Lemma set_current_spec offset lease s digits tail :
  locked s = false ->
  content s = IDENTIFIER ++ [NL] ++ digits ++ [NL] ++ tail ->
  NL ∉ digits ->
  exists p' q',
    Storage_set_current offset lease s =
      if negb (root_digits_ok digits)
      then (Raise CorruptedFormat, set_position p' s)
      else if lease_fails lease (decimal_value digits)
      then (Raise ConcurrencyError, set_position p' s)
      else if (length (format_0d offset (length digits)) =? length digits)%nat
      then (Return tt,
            mkStorage (IDENTIFIER ++ [NL] ++ format_0d offset (length digits)
                         ++ [NL] ++ tail)
              q' false (lockable s))
      else (Raise AssertionError, set_position p' s).
Proof.
  intros Hl Hc Hn. unfold Storage_set_current.
  unfold bind at 1, f_seek. simpl.
  set (s0 := set_position (Z.to_nat 0) s).
  rewrite lock_spec by done.
  epose proof (read_header _ (set_locked (lockable s0) s0) _ Hc eq_refl)
    as (buffer' & p' & Hh).
  rewrite Hh.
  rewrite second_line_root by done.
  unfold bind at 1. rewrite parse_spec.
  exists p', (length (IDENTIFIER ++ [NL]) +
              length (format_0d offset (length digits) ++ [NL]))%nat.
  destruct (root_digits_ok digits); cbn [negb].
  2:{ f_equal. destruct s as [c p l lk]; simpl in *; subst l. by destruct lk. }
  fold (lease_fails lease (decimal_value digits)).
  destruct (lease_fails lease (decimal_value digits)).
  { unfold raise. f_equal.
    destruct s as [c p l lk]; simpl in *; subst l. by destruct lk. }
  cbn [default].
  assert (length (digits ++ [NL]) = length digits + 1)%nat as Hl1
    by (by rewrite length_app).
  assert (length (digits ++ [NL]) - 1 = length digits)%nat as Hl2 by lia.
  assert (forall x : list byte, length (x ++ [NL]) = length x + 1)%nat as Hl3
    by (intros; by rewrite length_app).
  unfold bind at 1, assert. cbn [default from_option id].
  rewrite Hl2, Hl1, Hl3.
  destruct (Nat.eqb_spec (length (format_0d offset (length digits)))
              (length digits)) as [Hlen|Hlen].
  2:{ destruct (Nat.eqb_spec (length (format_0d offset (length digits)) + 1)
                  (length digits + 1)); [lia|].
      unfold raise. f_equal.
      destruct s as [c p l lk]; simpl in *; subst l. by destruct lk. }
  destruct (Nat.eqb_spec (length (format_0d offset (length digits)) + 1)
              (length digits + 1)); [|lia].
  unfold ret at 1. unfold bind at 1, f_seek.
  destruct (Z.ltb_spec (Z.of_nat (length (IDENTIFIER ++ [NL]))) 0); [lia|].
  unfold f_write. rewrite Nat2Z.id. f_equal.
  cbn [content position set_position set_content set_locked s0].
  rewrite Hc.
  rewrite (app_assoc IDENTIFIER [NL]).
  rewrite (app_assoc digits [NL] tail).
  rewrite write_at_middle by (rewrite !Hl3; lia).
  rewrite <- !app_assoc.
  destruct s as [c p l lk]; simpl in *; subst l.
  rewrite !length_app. by destruct lk.
Qed.

Lemma bytes_of_uint_of_bytes l u :
  uint_of_bytes l = Some u -> bytes_of_uint u = l.
Proof.
  revert u. induction l as [|c l IH]; intros u; simpl.
  - by intros [= <-].
  - destruct (digit_of_byte c) as [d|] eqn:Hc; [|done].
    destruct (uint_of_bytes l) as [u'|]; [|done].
    intros [= <-]. specialize (IH _ eq_refl).
    destruct c; try discriminate Hc; injection Hc as <-; simpl; by rewrite IH.
Qed.

Lemma uint_of_bytes_of_uint u : uint_of_bytes (bytes_of_uint u) = Some u.
Proof. induction u; simpl; rewrite ?IHu; done. Qed.

Lemma uint_of_bytes_zeros k l u :
  uint_of_bytes l = Some u ->
  uint_of_bytes (replicate k x30 ++ l) = Some (Nat.iter k Decimal.D0 u).
Proof. intros Hu. induction k as [|k IH]; simpl; [done|]. by rewrite IH. Qed.

Lemma of_uint_zeros k u : N.of_uint (Nat.iter k Decimal.D0 u) = N.of_uint u.
Proof. induction k as [|k IH]; simpl; [done|]. by rewrite <- IH. Qed.

Lemma bytes_of_uint_nzhead u :
  bytes_of_uint u =
    replicate (length (bytes_of_uint u) - length (bytes_of_uint (Decimal.nzhead u))) x30
      ++ bytes_of_uint (Decimal.nzhead u)
  /\ (length (bytes_of_uint (Decimal.nzhead u)) <= length (bytes_of_uint u))%nat.
Proof.
  induction u; simpl; rewrite ?Nat.sub_diag; try (split; [done|lia]).
  destruct IHu as [IH Hle]. split; [|lia].
  replace (S (length (bytes_of_uint u))
             - length (bytes_of_uint (Decimal.nzhead u)))%nat
    with (S (length (bytes_of_uint u) - length (bytes_of_uint (Decimal.nzhead u))))
    by lia.
  simpl. by rewrite <- IH.
Qed.

Lemma zfill_unorm u :
  u <> Decimal.Nil ->
  zfill (length (bytes_of_uint u)) (bytes_of_uint (Decimal.unorm u)) = bytes_of_uint u.
Proof.
  intros Hne. destruct (bytes_of_uint_nzhead u) as [Hsplit Hle].
  unfold Decimal.unorm, zfill. destruct (Decimal.nzhead u) eqn:Hnz; try (by rewrite <- Hsplit).
  simpl in *. rewrite Nat.sub_0_r, app_nil_r in Hsplit.
  rewrite Hsplit at 2.
  destruct (length (bytes_of_uint u)) as [|n] eqn:Hn.
  - destruct u; simpl in Hn; done.
  - simpl. rewrite Nat.sub_0_r. by rewrite <- replicate_cons_app.
Qed.

Lemma format_0d_roundtrip digits :
  digits <> [] -> forallb is_digit digits = true ->
  format_0d (decimal_value digits) (length digits) = digits.
Proof.
  intros Hne Hd. destruct (uint_of_bytes_digits _ Hd) as [u Hu].
  unfold decimal_value, format_0d. rewrite Hu.
  destruct (Z.ltb_spec (Z.of_N (N.of_uint u)) 0); [lia|].
  rewrite N2Z.id. unfold decimal.
  rewrite DecimalN.Unsigned.to_of.
  pose proof (bytes_of_uint_of_bytes _ _ Hu) as Hb.
  rewrite <- Hb. apply zfill_unorm.
  intros ->. simpl in Hb. by subst.
Qed.

Lemma format_0d_value n width :
  0 <= n -> length (format_0d n width) = width ->
  forallb is_digit (format_0d n width) = true
  /\ decimal_value (format_0d n width) = n.
Proof.
  intros Hn Hlen. unfold format_0d in *.
  destruct (Z.ltb_spec n 0); [lia|]. unfold zfill, decimal in *.
  set (u := N.to_uint (Z.to_N n)) in *.
  pose proof (uint_of_bytes_zeros (width - length (bytes_of_uint u)) _ _
                (uint_of_bytes_of_uint u)) as Hu.
  split.
  - by apply (uint_of_bytes_is_digit _ _ Hu).
  - unfold decimal_value. rewrite Hu, of_uint_zeros. unfold u.
    rewrite DecimalN.Unsigned.of_to. lia.
Qed.

(** *** Effects that keep a relation between the states *)

Section Preserves.
Context {S : Type} (R : S -> S -> Prop) `{!PreOrder R}.

Lemma preserves_ret {A} (a : A) : preserves R (ret a).
Proof. intros s r s' [= _ <-]. reflexivity. Qed.

Lemma preserves_raise {A} e : preserves R (@raise S A e).
Proof. intros s r s' [= _ <-]. reflexivity. Qed.

Lemma preserves_get_state : preserves R (@get_state S).
Proof. intros s r s' [= _ <-]. reflexivity. Qed.

Lemma preserves_assert c : preserves R (@assert S c).
Proof. destruct c; [apply preserves_ret|apply preserves_raise]. Qed.

Lemma preserves_bind {A B} (m : eff S A) (k : A -> eff S B) :
  preserves R m -> (forall a, preserves R (k a)) -> preserves R (bind m k).
Proof.
  intros Hm Hk s r s'. unfold bind.
  destruct (m s) as [[a|e|] s1] eqn:E; pose proof (Hm _ _ _ E).
  - intros Hka. etrans; [done|]. by eapply Hk.
  - by intros [= _ <-].
  - by intros [= _ <-].
Qed.

Lemma preserves_catch {A} (m h : eff S A) e :
  preserves R m -> preserves R h -> preserves R (catch m e h).
Proof.
  intros Hm Hh s r s'. unfold catch.
  destruct (m s) as [[a|e'|] s1] eqn:E; pose proof (Hm _ _ _ E).
  - by intros [= _ <-].
  - case_bool_decide.
    + intros Hr. etrans; [done|]. by eapply Hh.
    + by intros [= _ <-].
  - by intros [= _ <-].
Qed.

Lemma preserves_from_option {A} (o : option A) e :
  preserves R (from_option ret (raise e) o).
Proof. destruct o; [apply preserves_ret|apply preserves_raise]. Qed.

Lemma preserves_for_each {A} (l : list A) (f : A -> eff S unit) :
  (forall x, preserves R (f x)) -> preserves R (for_each l f).
Proof.
  intros Hf. induction l as [|x l IH]; simpl.
  - apply preserves_ret.
  - apply preserves_bind; [apply Hf|]. intros _. apply IH.
Qed.

Lemma preserves_fold_eff {A B} (f : B -> A -> eff S B) (l : list A) acc :
  (forall b x, preserves R (f b x)) -> preserves R (fold_eff f l acc).
Proof.
  intros Hf. revert acc. induction l as [|x l IH]; intros acc; simpl.
  - apply preserves_ret.
  - apply preserves_bind; [apply Hf|]. intros b'. apply IH.
Qed.

End Preserves.

(** Decomposes an effect along its binds and case distinctions. *)
Ltac preserves_step :=
  lazymatch goal with
  | |- preserves _ (bind _ _) =>
      apply preserves_bind; [apply _| |intros ?]
  | |- preserves _ (ret _) => apply preserves_ret; apply _
  | |- preserves _ (raise _) => apply preserves_raise; apply _
  | |- preserves _ get_state => apply preserves_get_state; apply _
  | |- preserves _ (assert _) => apply preserves_assert; apply _
  | |- preserves _ (from_option ret (raise _) _) =>
      apply preserves_from_option; apply _
  | |- preserves _ (catch _ _ _) => apply preserves_catch; [apply _| |]
  | |- preserves _ (for_each _ _) =>
      apply preserves_for_each; [apply _|intros ?]
  | |- preserves _ (fold_eff _ _ _) =>
      apply preserves_fold_eff; [apply _|intros ? ?]
  | |- preserves _ (match ?x with _ => _ end) => destruct x
  | |- preserves _ (if ?c then _ else _) => destruct c
  end.

(** *** The file only grows while the store persists items *)

#[local] Instance file_grows_preorder : PreOrder file_grows.
Proof.
  split.
  - intros w Hl. repeat split; try done. exists []. by rewrite app_nil_r.
  - intros w1 w2 w3 H12 H23 Hl.
    destruct (H12 Hl) as (Hl2 & Hk2 & Hc2 & Hr2 & e2 & He2).
    destruct (H23 Hl2) as (Hl3 & Hk3 & Hc3 & Hr3 & e3 & He3).
    repeat split; try congruence.
    exists (e2 ++ e3). rewrite He3, He2. by rewrite app_assoc.
Qed.

Lemma store_grows record s r s' :
  locked s = false ->
  Storage_store record s = (r, s') ->
  locked s' = false /\ lockable s' = lockable s
  /\ exists extra, content s' = content s ++ extra.
Proof.
  intros Hl. unfold Storage_store. rewrite lock_spec by done.
  unfold bind, f_seek_end, f_tell, assert, f_write, ret, raise. simpl.
  destruct s as [c p l lk]; simpl in *; subst l.
  destruct (2 <=? _), (byte_in TAB record), (byte_in NL record); simpl;
    intros [= <- <-]; destruct lk; simpl; repeat split;
    try (by exists []; rewrite app_nil_r);
    rewrite write_at_end; eauto.
Qed.

Lemma preserves_read_item a : preserves file_grows (read_item a).
Proof.
  intros w r w'. unfold read_item.
  destruct (items w !! a); intros [= _ <-]; reflexivity.
Qed.

Lemma preserves_update_item a f : preserves file_grows (update_item a f).
Proof.
  intros w r w'. unfold update_item.
  destruct (items w !! a); intros [= _ <-]; [|reflexivity].
  intros Hl. repeat split; try done. exists []. by rewrite app_nil_r.
Qed.

Section StoreFacts.
Context `{Json}.

Lemma preserves_record kind v : preserves file_grows (Store__record kind v).
Proof.
  intros w r w'. unfold Store__record, on_storage.
  destruct (Storage_store _ (storage w)) as [r1 s1] eqn:E.
  intros [= _ <-] Hl. destruct (store_grows _ _ _ _ Hl E) as (? & ? & ?).
  simpl. done.
Qed.

Lemma preserves_persist fuel a : preserves file_grows (Item__persist fuel a).
Proof.
  revert a. induction fuel as [|fuel IH]; intros a; simpl.
  - preserves_step.
  - unfold persist_entry, Item__set_offset, set_entry.
    repeat (preserves_step || apply preserves_record
            || apply preserves_update_item || apply preserves_read_item
            || apply IH).
Qed.

Lemma preserves_commit_offset fuel :
  preserves file_grows (Store_commit_offset fuel).
Proof.
  unfold Store_commit_offset.
  repeat (preserves_step || apply preserves_read_item
          || apply preserves_persist).
Qed.

Lemma commit_offset_clean fuel w R :
  (root w = RootInt R
   \/ exists a it, root w = RootItem a /\ items w !! a = Some it
                   /\ i_offset it = Some R) ->
  Store_commit_offset fuel w = (Return R, w).
Proof.
  unfold Store_commit_offset, bind, get_state.
  intros [->|(a & it & -> & Ha & Ho)]; [done|].
  unfold read_item. rewrite Ha, Ho. simpl. unfold bind, ret. by rewrite Ha, Ho.
Qed.

(** [commit] after its first part, on a file with a well-formed header. *)
Lemma commit_after_offset fuel w offset w1 digits tail :
  Store_commit_offset fuel w = (Return offset, w1) ->
  locked (storage w1) = false ->
  content (storage w1) = IDENTIFIER ++ [NL] ++ digits ++ [NL] ++ tail ->
  NL ∉ digits ->
  exists p' q',
    Store_commit fuel w =
      if negb (root_digits_ok digits)
      then (Raise CorruptedFormat,
            set_storage (set_position p' (storage w1)) w1)
      else if negb (decimal_value digits =? current_root w1)
      then (Raise ConcurrencyError,
            set_storage (set_position p' (storage w1)) w1)
      else if (length (format_0d offset (length digits)) =? length digits)%nat
      then (Return offset,
            set_current_root offset
              (set_storage
                 (mkStorage (IDENTIFIER ++ [NL]
                               ++ format_0d offset (length digits)
                               ++ [NL] ++ tail)
                    q' false (lockable (storage w1))) w1))
      else (Raise AssertionError,
            set_storage (set_position p' (storage w1)) w1).
Proof.
  intros Hoff Hl Hc Hn.
  destruct (set_current_spec offset (Some (current_root w1)) (storage w1)
              digits tail Hl Hc Hn) as (p' & q' & Hset).
  exists p', q'. unfold Store_commit. unfold bind at 1. rewrite Hoff.
  unfold bind at 1, get_state. unfold bind at 1, on_storage. rewrite Hset.
  unfold lease_fails.
  destruct (root_digits_ok digits); cbn [negb]; [|done].
  destruct (negb (decimal_value digits =? current_root w1)); [done|].
  destruct (_ =? _)%nat; done.
Qed.


Lemma is_digit_not_NL l : forallb is_digit l = true -> NL ∉ l.
Proof.
  intros Hd Hin. rewrite forallb_forall in Hd.
  apply list_elem_of_In in Hin. by apply Hd in Hin.
Qed.

Lemma commit_returns_offset fuel w r w' :
  Store_commit fuel w = (Return r, w') ->
  exists w1, Store_commit_offset fuel w = (Return r, w1).
Proof.
  unfold Store_commit. unfold bind at 1.
  destruct (Store_commit_offset fuel w) as [[o| |] w1]; [|done..].
  unfold bind at 1, get_state. unfold bind at 1.
  destruct (on_storage _ w1) as [[[]| |] w2]; [|done..].
  unfold bind, ret. intros [= -> _]. eauto.
Qed.

(** C1.  First part: once [commit] has the offset to write, it calls
    [set_current] with the observed root as the lease, so that on a
    well-formed header it raises ConcurrencyError exactly when the root on
    the file differs from the observed root, then leaving the file and the
    observed root as they are, and otherwise (the offset fitting the
    width of the line) returns the offset, which becomes the observed
    root.  Second part: when a handle A has committed a new root [R'] on
    a file whose root both A and B had observed as [R], A observes [R'],
    the file says [R'], and the commit of B, which sees the file as A has
    left it, raises ConcurrencyError once its items are persisted and
    leaves the root line on [R'] and the observed root of B on [R]. *)
Theorem commit_is_compare_and_swap :
  (forall fuel w offset w1 digits tail,
      locked (storage w) = false ->
      Store_commit_offset fuel w = (Return offset, w1) ->
      content (storage w1) = IDENTIFIER ++ [NL] ++ digits ++ [NL] ++ tail ->
      NL ∉ digits ->
      root_digits_ok digits = true ->
      (fst (Store_commit fuel w) = Raise ConcurrencyError
       <-> decimal_value digits <> current_root w)
      /\ (decimal_value digits <> current_root w ->
          content (storage (snd (Store_commit fuel w))) = content (storage w1)
          /\ current_root (snd (Store_commit fuel w)) = current_root w)
      /\ (decimal_value digits = current_root w ->
          length (format_0d offset (length digits)) = length digits ->
          fst (Store_commit fuel w) = Return offset
          /\ current_root (snd (Store_commit fuel w)) = offset))
  /\ (forall fuelA fuelB wA wA' wB R R' digits tail,
      locked (storage wA) = false ->
      locked (storage wB) = false ->
      content (storage wA) = IDENTIFIER ++ [NL] ++ digits ++ [NL] ++ tail ->
      NL ∉ digits ->
      current_root wB = R ->
      Store_commit fuelA wA = (Return R', wA') ->
      R' <> R ->
      0 <= R' ->
      let wB1 := on_file_of wA' wB in
      current_root wA' = R'
      /\ fst (Storage_get_current (storage wA')) = Return R'
      /\ forall offset w1,
           Store_commit_offset fuelB wB1 = (Return offset, w1) ->
           fst (Store_commit fuelB wB1) = Raise ConcurrencyError
           /\ fst (Storage_get_current (storage (snd (Store_commit fuelB wB1))))
              = Return R'
           /\ current_root (snd (Store_commit fuelB wB1)) = R).
Proof.
  split.
  - intros fuel w offset w1 digits tail Hl Hoff Hc Hn Hok.
    destruct (preserves_commit_offset _ _ _ _ Hoff Hl)
      as (Hl1 & _ & Hcur & _ & _).
    destruct (commit_after_offset fuel w offset w1 digits tail Hoff Hl1 Hc Hn)
      as (p' & q' & ->).
    rewrite Hok, Hcur. cbn [negb].
    destruct (Z.eqb_spec (decimal_value digits) (current_root w)) as [He|He];
      cbn [negb].
    + split; [|split]; [|done|].
      * destruct (_ =? _)%nat; simpl; split; done.
      * intros _ ->. rewrite Nat.eqb_refl. done.
    + split; [done|]. split; [|done]. intros _. simpl. done.
  - intros fuelA fuelB wA wA' wB R R' digits tail HlA HlB Hc Hn HcurB HcA
      Hne Hpos wB1.
    destruct (commit_returns_offset _ _ _ _ HcA) as (wA1 & HoffA).
    destruct (preserves_commit_offset _ _ _ _ HoffA HlA)
      as (HlA1 & HkA1 & HcurA1 & _ & extraA & HcA1).
    rewrite Hc in HcA1. rewrite <- !app_assoc in HcA1.
    destruct (commit_after_offset fuelA wA R' wA1 digits (tail ++ extraA)
                HoffA HlA1 HcA1 Hn) as (p' & q' & HA).
    rewrite HcA in HA.
    destruct (root_digits_ok digits) eqn:Hok; cbn [negb] in HA; [|done].
    destruct (negb (decimal_value digits =? current_root wA1));
      [done|].
    destruct (Nat.eqb_spec (length (format_0d R' (length digits)))
                (length digits)) as [Hlen|]; [|done].
    injection HA as ->.
    set (digits' := format_0d R' (length digits)) in *.
    destruct (format_0d_value R' (length digits) Hpos Hlen) as [Hd' Hv'].
    fold digits' in Hd', Hv'.
    assert (NL ∉ digits') as Hn' by (by apply is_digit_not_NL).
    assert (root_digits_ok digits' = true) as Hok'.
    { unfold root_digits_ok in *. rewrite Hlen, Hd'.
      by apply andb_true_iff in Hok as [-> _]. }
    split; [done|]. split.
    { simpl. edestruct get_current_spec as (? & ->); [| |exact Hn'|];
        [done|simpl; reflexivity|]. by rewrite Hok', Hv'. }
    intros offset w1 HoffB.
    assert (locked (storage wB1) = false) as HlB1 by done.
    destruct (preserves_commit_offset _ _ _ _ HoffB HlB1)
      as (HlB2 & _ & HcurB2 & _ & extraB & HcB2).
    simpl in HcB2. rewrite <- !app_assoc in HcB2. simpl in HcB2.
    destruct (commit_after_offset fuelB wB1 offset w1 digits'
                ((tail ++ extraA) ++ extraB)
                HoffB HlB2) as (p2 & q2 & ->); [|done|].
    { rewrite HcB2. by repeat (progress (rewrite <- ?app_assoc; simpl)). }
    rewrite Hok', Hv', HcurB2. cbn [negb]. simpl current_root. rewrite HcurB.
    destruct (Z.eqb_spec R' R); [done|]. cbn [negb fst snd].
    split; [done|]. split; [|simpl; by rewrite HcurB2].
    simpl. edestruct get_current_spec as (? & ->); [| |exact Hn'|];
      [done|simpl; rewrite HcB2;
            by repeat (progress (rewrite <- ?app_assoc; simpl))|].
    by rewrite Hok', Hv'.
Qed.

End StoreFacts.

(** *** Items *)

#[local] Instance dirtied_preorder : PreOrder dirtied.
Proof.
  split.
  - intros w. repeat split; try done.
    apply Forall2_same_length_lookup_2; [done|].
    intros i x y Hx Hy. left. congruence.
  - intros w1 w2 w3 (?&?&?&?&?&?&H12) (?&?&?&?&?&?&H23).
    repeat split; try congruence.
    eapply Forall2_trans; [|exact H12|exact H23].
    intros x y z [-> | ->] [-> | ->]; auto.
Qed.

Lemma dirtied_lookup w w' a it :
  dirtied w w' -> items w !! a = Some it ->
  exists it', items w' !! a = Some it'
    /\ (it' = it \/ it' = with_offset None it).
Proof.
  intros (_&_&_&_&_&_&HF) Ha.
  destruct (Forall2_lookup_l _ _ _ _ _ HF Ha) as (it' & ? & ?). eauto.
Qed.

Lemma preserves_changed fuel a : preserves dirtied (Item__changed fuel a).
Proof.
  revert a. induction fuel as [|fuel IH]; intros a; simpl.
  - preserves_step.
  - apply preserves_bind; [apply _| |intros it].
    { intros w r w'. unfold read_item.
      destruct (items w !! a); intros [= _ <-]; reflexivity. }
    destruct (i_offset it) eqn:Ho; [|preserves_step].
    apply preserves_bind; [apply _| |intros _].
    { intros w r w'. unfold update_item.
      destruct (items w !! a) as [it0|] eqn:Ha; intros [= _ <-];
        [|reflexivity].
      repeat split; try done. simpl.
      apply Forall2_same_length_lookup_2; [by rewrite length_insert|].
      intros i x y Hx Hy. destruct (decide (i = a)) as [->|Hne].
      - rewrite list_lookup_insert_eq in Hy by (by eapply lookup_lt_Some).
        right. pose proof (eq_trans (eq_sym Hx) Ha) as He. by simplify_eq.
      - rewrite list_lookup_insert_ne in Hy by done. left. congruence. }
    repeat (preserves_step || apply IH).
Qed.

(** *** Running an effect step by step *)

Lemma run_bind {S A B} (m : eff S A) (k : A -> eff S B) s a s1 :
  m s = (Return a, s1) -> bind m k s = k a s1.
Proof. unfold bind. by intros ->. Qed.


Lemma run_read_item w a it :
  items w !! a = Some it -> read_item a w = (Return it, w).
Proof. unfold read_item. by intros ->. Qed.

Lemma run_update_item w a it f :
  items w !! a = Some it ->
  update_item a f w = (Return tt, set_items (<[a := f it]> (items w)) w).
Proof. unfold update_item. by intros ->. Qed.

Lemma run_read_tree w t x :
  trees w !! t = Some x -> read_tree t w = (Return x, w).
Proof. unfold read_tree. by intros ->. Qed.

Lemma run_update_tree w t x f :
  trees w !! t = Some x ->
  update_tree t f w = (Return tt, set_trees (<[t := f x]> (trees w)) w).
Proof. unfold update_tree. by intros ->. Qed.

Lemma run_node_of w t x n :
  trees w !! t = Some x -> t_node x = Some n -> node_of t w = (Return n, w).
Proof.
  intros Ht Hn. unfold node_of.
  rewrite (run_bind _ _ _ _ _ (run_read_tree _ _ _ Ht)). by rewrite Hn.
Qed.

Section ItemFacts.
Context `{Json}.




End ItemFacts.



(** C7, at the failing input: after [n.set('k', a)] and
    [n.set('k', Leaf(2))] the first leaf (item 1) still carries its link
    to [n] under ['k'] although ['k'] now holds the second leaf (item 2),
    so that it cannot be put anywhere else; [remove], in contrast, clears
    the link of the child it takes out. *)
Theorem Node_set_keeps_previous_child_attached :
  let w := replaced_child (H := example_json) in
  (exists it, items w !! 1%nat = Some it
     /\ i_link it = Some (mkLink (ONode 0%nat) "k"))
  /\ (exists it es, items w !! 0%nat = Some it /\ i_body it = BNode es
        /\ es !! "k" = Some (EItem 2%nat))
  /\ fst (Node_set 8 0%nat "j" 1%nat w) = Raise StoreError
  /\ (exists it, items (snd (Node_remove (H := example_json) 8 0%nat "k" w))
                   !! 2%nat = Some it
        /\ i_link it = None).
Proof.
  intros w. split; [|split; [|split]].
  - eexists. split; vm_compute; reflexivity.
  - eexists _, _. split; [vm_compute; reflexivity|].
    split; [reflexivity|]. vm_compute. reflexivity.
  - vm_compute. reflexivity.
  - eexists. split; vm_compute; reflexivity.
Qed.

(** *** Queries *)








(** *** Moving a tree into its own descendant *)

Lemma entry_resolved_refl B e : entry_resolved B e e.
Proof. by left. Qed.

Lemma entry_resolved_trans B1 B2 e1 e2 e3 :
  (B1 <= B2)%nat ->
  entry_resolved B1 e1 e2 -> entry_resolved B2 e2 e3 ->
  entry_resolved B1 e1 e3.
Proof.
  intros HB [->|(o & c & -> & He2 & Hc)] [->|(o' & c' & He2' & He3 & Hc')].
  - by left.
  - right. exists o', c'. split; [done|]. split; [done|lia].
  - right. eauto.
  - destruct He2 as [->| ->]; discriminate He2'.
Qed.

Lemma body_resolved_refl B bd : body_resolved B bd bd.
Proof.
  destruct bd; simpl; [done|]. intros k.
  destruct (entries !! k); constructor. apply entry_resolved_refl.
Qed.

Lemma body_resolved_trans B1 B2 b1 b2 b3 :
  (B1 <= B2)%nat ->
  body_resolved B1 b1 b2 -> body_resolved B2 b2 b3 -> body_resolved B1 b1 b3.
Proof.
  intros HB. destruct b1, b2, b3; simpl; try done; [congruence|].
  intros H12 H23 k. specialize (H12 k). specialize (H23 k).
  destruct H12; inversion H23; subst; constructor.
  by eapply entry_resolved_trans.
Qed.

Lemma item_resolved_refl B it : item_resolved B it it.
Proof. repeat split. apply body_resolved_refl. Qed.

Lemma item_resolved_trans B1 B2 i1 i2 i3 :
  (B1 <= B2)%nat ->
  item_resolved B1 i1 i2 -> item_resolved B2 i2 i3 -> item_resolved B1 i1 i3.
Proof.
  intros HB (?&?&?&?) (?&?&?&?). repeat split; try congruence.
  by eapply body_resolved_trans.
Qed.

#[local] Instance only_loaded_preorder : PreOrder only_loaded.
Proof.
  split.
  - intros w. repeat split; try done.
    + intros a it Ha. exists it. split; [done|]. apply item_resolved_refl.
    + intros t x Ht. exists x. done.
  - intros w1 w2 w3 (Hc & Hs & Hl & Hi & Htl & Ht & Hu & Hr & Hcr)
      (Hc' & Hs' & Hl' & Hi' & Htl' & Ht' & Hu' & Hr' & Hcr').
    repeat split; try congruence; try lia.
    + intros a it Ha. destruct (Hi _ _ Ha) as (it2 & Ha2 & Hr2).
      destruct (Hi' _ _ Ha2) as (it3 & Ha3 & Hr3).
      exists it3. split; [done|]. by eapply item_resolved_trans.
    + intros t x Hx. destruct (Ht _ _ Hx) as (x2 & Hx2 & Hp & Hn & Hnode).
      destruct (Ht' _ _ Hx2) as (x3 & Hx3 & Hp' & Hn' & Hnode').
      exists x3. repeat split; try congruence. intros n ?. eauto.
    + intros Hn. specialize (Hu Hn). rewrite Hu', Hu; [done|].
      unfold unresolved. by rewrite Hu.
Qed.







(** The effect has stopped in the state it started from. *)
Ltac same_state :=
  intros [= <- <-]; split; [reflexivity|]; repeat split; done.

Section Loading.
Context `{Json}.

(** [_load] reads the file and adds at most one item, which has no link. *)
Lemma load_adds_item offset w r w' :
  Store__load offset w = (r, w') ->
  r <> Diverge /\ r <> Raise KeyError
  /\ content (storage w') = content (storage w)
  /\ setups w' = setups w /\ trees w' = trees w
  /\ volatile w' = volatile w
  /\ root w' = root w /\ current_root w' = current_root w
  /\ match r with
     | Return c =>
         c = length (items w)
         /\ exists it, items w' = items w ++ [it] /\ i_link it = None
     | _ => items w' = items w
     end.
Proof.
  unfold Store__load. unfold bind at 1, on_storage.
  destruct (load_spec offset (storage w)) as (p' & ->).
  set (w0 := set_storage (set_position p' (storage w)) w).
  destruct (offset <? 0); [by intros [= <- <-]|].
  unfold load_result.
  destruct (index_of NL _) as [i|]; [|destruct (is_nil _); by intros [= <- <-]].
  set (line := take (S i) _).
  destruct (negb (startswith TAB line)); [by intros [= <- <-]|].
  destruct (negb (find TAB line 1 =? -1)); [by intros [= <- <-]|].
  set (record := slice line (Some 1) (Some (-1))).
  destruct (length record <? 2)%nat; [by intros [= <- <-]|].
  unfold bind at 1.
  destruct (bytes_eqb _ _); [|destruct (bytes_eqb _ _)];
    unfold ret, raise; try (by intros [= <- <-]);
    (destruct (loads _) as [data|]; [|by intros [= <- <-]]).
  - destruct data; try (by intros [= <- <-]).
    destruct (node_entries d); [|by intros [= <- <-]].
    unfold new_item. intros [= <- <-]. simpl. repeat split; try done.
    by eexists.
  - unfold new_item. intros [= <- <-]. simpl. repeat split; try done.
    by eexists.
Qed.

Lemma Node_get_loads n k w r w' :
  Node_get n k w = (r, w') ->
  only_loaded w w' /\ trees w' = trees w /\ r <> Diverge
  /\ (r = Raise KeyError -> ~ has_key w n k).
Proof.
  unfold Node_get. unfold bind at 1, read_item.
  destruct (items w !! n) as [it|] eqn:Hn;
    [|same_state].
  unfold bind at 1, entries_of.
  destruct (i_body it) as [|es] eqn:Hb;
    [same_state|].
  unfold ret at 1.
  destruct (es !! k) as [[o [c|]|c]|] eqn:Hk.
  - same_state.
  - destruct (negb (i_store it)); [same_state|].
    unfold bind at 1.
    destruct (Store__load o w) as [r1 w1] eqn:Hload.
    destruct (load_adds_item _ _ _ _ Hload)
      as (Hd & Hke & Hc1 & Hs1 & Ht1 & Hv1 & Hr1 & Hcr1 & Hitems).
    assert (forall e, r1 = Raise e \/ r1 = Diverge -> (r1, w1) = (r, w') ->
              only_loaded w w' /\ trees w' = trees w /\ r <> Diverge
              /\ (r = Raise KeyError -> ~ has_key w n k)) as Hfail.
    { intros e He [= <- <-]. destruct He as [-> | ->]; [|done].
      split; [|by repeat split; try congruence].
      repeat split; try done; try (rewrite Hitems; lia).
      - intros a it0 Ha. exists it0. rewrite Hitems. split; [done|].
        apply item_resolved_refl.
      - rewrite Ht1. lia.
      - intros t x Hx. exists x. by rewrite Ht1. }
    destruct r1 as [c|e|]; [|by apply (Hfail e); left
                             |by apply (Hfail KeyError); right].
    clear Hfail. destruct Hitems as (-> & itc & Hi1 & Hlc).
    assert (n < length (items w))%nat as Hlt by (by eapply lookup_lt_Some).
    assert (items w1 !! length (items w) = Some itc) as Hc
      by (rewrite Hi1; by apply list_lookup_middle).
    set (c := length (items w)) in *.
    set (w2 := set_items
                 (<[c := with_link (Some (mkLink (ONode n) k)) itc]>
                    (items w1)) w1).
    assert (items w2 !! n = Some it) as Hn2.
    { simpl. rewrite list_lookup_insert_ne by (unfold c; lia).
      rewrite Hi1. by rewrite lookup_app_l. }
    erewrite (run_bind (Item__attach _ _) _ _ tt w2).
    2:{ unfold Item__attach.
        rewrite (run_bind _ _ _ _ _ (run_read_item _ _ _ Hc)). rewrite Hlc.
        exact (run_update_item _ _ _ _ Hc). }
    rewrite (run_bind _ _ _ w2 w2) by done.
    set (e' := if volatile w2 then ETuple o (Some c) else EItem c).
    unfold set_entry.
    rewrite (run_bind _ _ _ _ _ (run_update_item _ _ _ _ Hn2)). rewrite Hb.
    intros [= <- <-]. split; [|by repeat split].
    repeat split; simpl; try done.
    + rewrite !length_insert, Hi1, length_app. lia.
    + intros a it0 Ha.
      assert (a < length (items w))%nat as Hla by (by eapply lookup_lt_Some).
      destruct (decide (a = n)) as [->|Hne].
      * rewrite list_lookup_insert_eq
          by (rewrite length_insert, Hi1, length_app; lia).
        eexists. split; [done|]. rewrite Hn in Ha. injection Ha as <-.
        repeat split; simpl. rewrite Hb. intros k'.
        destruct (decide (k' = k)) as [->|Hk'].
        -- rewrite lookup_insert_eq, Hk. constructor. right.
           exists o, c. split; [done|]. split; [|done].
           unfold e'. destruct (volatile w2); auto.
        -- rewrite lookup_insert_ne by done.
           destruct (es !! k'); constructor. apply entry_resolved_refl.
      * rewrite list_lookup_insert_ne by done.
        rewrite list_lookup_insert_ne by (unfold c; lia).
        rewrite Hi1, lookup_app_l by done.
        exists it0. split; [done|]. apply item_resolved_refl.
    + rewrite Ht1. lia.
    + intros t x Hx. exists x. by rewrite Ht1.
    + intros []. by exists n, it, es, k, o.
  - same_state.
  - intros [= <- <-]. split; [done|]. split; [done|]. split; [done|].
    intros _ (it' & es' & Hn' & Hb' & [e He]). congruence.
Qed.

Lemma Tree__get_loads t k w r w' :
  cache_ok w ->
  Tree__get t k false None w = (r, w') ->
  only_loaded w w' /\ r <> Diverge /\ cache_ok w'
  /\ (forall c, r = Return (VTree c) -> child_ok w' t k c).
Proof.
  intros Hcache. unfold Tree__get. unfold bind at 1, read_tree.
  destruct (trees w !! t) as [x|] eqn:Ht.
  2:{ intros [= <- <-]. split; [reflexivity|]. by repeat split. }
  destruct (t_entries x !! k) as [c|] eqn:Hk.
  { intros [= <- <-]. split; [reflexivity|]. split; [done|]. split; [done|].
    intros c' [= <-]. by eapply Hcache. }
  unfold Schema_extra. unfold bind at 1, ret at 1.
  change (None ≫= (fun m : gmap string value => m !! k)) with (@None value).
  cbv beta iota. unfold bind at 1.
  match goal with |- context [match ?m w with _ => _ end] =>
    destruct (m w) as [rn w1] eqn:Hnode end.
  assert (only_loaded w w1 /\ trees w1 = trees w /\ rn <> Diverge) as
    (Hl1 & Ht1 & Hd1).
  { destruct (t_node x) as [n|]; [|by injection Hnode as <- <-].
    revert Hnode. unfold bind at 1, read_item.
    destruct (items w !! n) as [it|]; [|by intros [= <- <-]].
    destruct (negb (is_Node it)); [by intros [= <- <-]|].
    unfold catch, bind.
    destruct (Node_get n k w) as [rg wg] eqn:Hget.
    destruct (Node_get_loads _ _ _ _ _ Hget) as (Hl & Htr & Hd & _).
    destruct rg as [c|e|]; [by intros [= <- <-]| |done].
    case_bool_decide; by intros [= <- <-]. }
  assert (cache_ok w1) as Hcache1.
  { intros t0 x0 k0 c0. rewrite Ht1. intros Hx0 Hk0.
    destruct (Hcache _ _ _ _ Hx0 Hk0) as (cx & ? & ?).
    exists cx. by rewrite Ht1. }
  destruct rn as [node|e|];
    [|intros [= <- <-]; split; [done|]; split; [done|]; by split|done].
  unfold bind at 1.
  match goal with |- context [match ?m w1 with _ => _ end] =>
    destruct (m w1) as [rl w2] eqn:Hleaf end.
  assert (w2 = w1 /\ rl <> Diverge) as [-> Hd2].
  { destruct node as [c|]; [|by injection Hleaf as <- <-].
    revert Hleaf. unfold bind, read_item.
    destruct (items w1 !! c); by intros [= <- <-]. }
  destruct rl as [leaf|e|];
    [|intros [= <- <-]; split; [done|]; split; [done|]; by split|done].
  destruct leaf as [v|].
  { unfold Schema_pose, bind, ret. intros [= <- <-].
    split; [done|]. split; [done|]. by split. }
  unfold Schema_descend. unfold bind at 1, ret at 1.
  unfold bind at 1, new_tree.
  set (new := mkTree ∅ (Some t) (Some k) node (t_schema x)).
  set (val := length (trees w1)).
  assert (t < length (trees w1))%nat as Hlt
    by (rewrite Ht1; by eapply lookup_lt_Some).
  unfold bind at 1, update_tree. simpl trees.
  assert (trees w1 !! t = Some x) as Ht' by by rewrite Ht1.
  rewrite lookup_app_l, Ht' by done.
  unfold ret. intros [= <- <-].
  set (x' := with_entries (<[k:=val]> (t_entries x)) x).
  assert (forall a, <[t:=x']> (trees w1 ++ [new]) !! a =
            if decide (a = t) then Some x'
            else if decide (a = val) then Some new
            else trees w1 !! a) as Hlook.
  { intros a. destruct (decide (a = t)) as [->|Hne].
    - apply list_lookup_insert_eq. rewrite length_app. lia.
    - rewrite list_lookup_insert_ne by done.
      destruct (decide (a = val)) as [->|Hne2].
      + by apply list_lookup_middle.
      + destruct (decide (a < val)%nat).
        * by rewrite lookup_app_l.
        * rewrite !lookup_ge_None_2; [done|fold val; lia|].
          rewrite length_app. simpl. fold val. lia. }
  match goal with |- only_loaded _ ?w3 /\ _ =>
    assert (only_loaded w1 w3) as Hl2 end.
  { repeat split; simpl; try done.
    - intros a it Ha. exists it. split; [done|]. apply item_resolved_refl.
    - rewrite length_insert, length_app. lia.
    - intros t0 x0 Hx0. rewrite Hlook.
      destruct (decide (t0 = t)) as [->|].
      + exists x'. rewrite Ht' in Hx0. injection Hx0 as <-. done.
      + destruct (decide (t0 = val)) as [->|]; [|by exists x0].
        apply lookup_lt_Some in Hx0. unfold val in *. lia. }
  split; [by etrans|]. split; [done|]. split.
  - intros t0 x0 k0 c0. unfold child_ok. simpl trees. rewrite !Hlook.
    intros Hx0 Hk0.
    assert (forall c1, child_ok w1 t0 k0 c1 ->
              exists cx, (if decide (c1 = t) then Some x'
                          else if decide (c1 = val) then Some new
                               else trees w1 !! c1) = Some cx
                /\ (t_node cx = None ->
                    t_parent cx = Some t0 /\ t_name cx = Some k0)) as Hold.
    { intros c1 (cx & Hc1 & Hcx).
      destruct (decide (c1 = t)) as [->|].
      - exists x'. split; [done|]. rewrite Ht' in Hc1.
        by injection Hc1 as <-.
      - destruct (decide (c1 = val)) as [->|]; [|by exists cx].
        apply lookup_lt_Some in Hc1. unfold val in *. lia. }
    destruct (decide (t0 = t)) as [->|].
    + injection Hx0 as <-. simpl in Hk0.
      destruct (decide (k0 = k)) as [->|].
      * rewrite lookup_insert_eq in Hk0. injection Hk0 as <-.
        rewrite decide_False by lia. rewrite decide_True by done.
        exists new. done.
      * rewrite lookup_insert_ne in Hk0 by done.
        apply Hold. by eapply Hcache1.
    + destruct (decide (t0 = val)) as [->|].
      * injection Hx0 as <-. simpl in Hk0. by rewrite lookup_empty in Hk0.
      * apply Hold. by eapply Hcache1.
  - intros c [= <-]. unfold child_ok. simpl trees. rewrite Hlook.
    rewrite decide_False by lia. rewrite decide_True by done.
    exists new. done.
Qed.







End Loading.

Lemma cache_okb_spec w : cache_okb w = true -> cache_ok w.
Proof.
  unfold cache_okb. intros Hb t x k c Hx Hk.
  rewrite forallb_forall in Hb.
  specialize (Hb (t, x)). rewrite <- list_elem_of_In in Hb.
  assert ((t, x) ∈ imap pair (trees w)) as Hin
    by (apply elem_of_lookup_imap; by exists t, x).
  specialize (Hb Hin). rewrite forallb_forall in Hb.
  specialize (Hb (k, c)). rewrite <- list_elem_of_In in Hb. simpl in Hb.
  assert ((k, c) ∈ map_to_list (t_entries x)) as Hin'
    by by apply elem_of_map_to_list.
  specialize (Hb Hin').
  unfold child_ok. destruct (trees w !! c) as [cx|]; [|done].
  exists cx. split; [done|]. intros Hnone. rewrite Hnone in Hb.
  by apply bool_decide_eq_true in Hb.
Qed.

(** The same from one level further down: [root.a.b.x = Move(root.a)]
    raises RuntimeError and leaves the items and the facades as they
    were. *)
Example move_into_grandchild_refused :
  let w := nested_config (H := example_json) in
  let r := Tree__set (H := example_json) 8 2%nat "x" (AMove 1%nat) w in
  fst r = Raise RuntimeError
  /\ items (snd r) = items w /\ trees (snd r) = trees w.
Proof. vm_compute. by repeat split. Qed.

(** *** Reading the root line and loading records *)


(** C3.  [load] in closed form, for every storage and offset: a
    negative offset is refused by [seek]; a line that has its newline is
    handled as the claim says, CorruptedFormat for a missing marker or a
    second one and the inner bytes otherwise; but where no newline
    follows, a last line without newline raises the RuntimeError of [_getline], and an offset at the
    end of the file or past it the AttributeError of a method call on
    [None], so that the test for the newline in [load] is never reached.
    On the file of [truncated_storage], whose record at 53 has lost its
    newline: offsets 53, 57 (the end) and 1000. *)
Theorem load_unterminated_line :
  (forall s offset,
     fst (Storage_load offset s) =
       if offset <? 0 then Raise ValueError
       else load_result (drop (Z.to_nat offset) (content s)))
  /\ (forall rest,
        is_Some (index_of NL rest)
        \/ load_result rest =
             if is_nil rest then Raise AttributeError else Raise RuntimeError)
  /\ fst (Storage_load 53 truncated_storage) = Raise RuntimeError
  /\ fst (Storage_load 57 truncated_storage) = Raise AttributeError
  /\ fst (Storage_load 1000 truncated_storage) = Raise AttributeError
  /\ fst (Storage_load 0 truncated_storage) = Raise CorruptedFormat
  /\ fst (Storage_load 53 hello_storage) = Return (b "hello").
Proof.
  split; [|split].
  - intros s offset. by destruct (load_spec offset s) as (p' & ->).
  - intros rest. unfold load_result.
    destruct (index_of NL rest); [left; by eexists|by right].
  - repeat split; vm_compute; reflexivity.
Qed.

(** *** Scanning *)

(** Membership of a byte in a list put together from pieces. *)
Ltac bytes_solver :=
  rewrite ?not_elem_of_app, ?not_elem_of_cons, ?elem_of_app, ?elem_of_cons,
    ?list_elem_of_singleton, ?elem_of_nil in *;
  intuition (subst; try done; try congruence).

Lemma line_of_frame l rest : NL ∉ l -> line_of (frame l ++ rest) = frame l.
Proof.
  unfold frame. induction l as [|c l IH]; intros Hn; simpl.
  - done.
  - apply not_elem_of_cons in Hn as [Hc Hl].
    assert (Byte.eqb c NL = false) as -> by (by apply byte_eqb_false).
    f_equal. by apply IH.
Qed.

Lemma line_of_tail l : NL ∉ l -> line_of l = l.
Proof.
  induction l as [|c l IH]; intros Hn; simpl; [done|].
  apply not_elem_of_cons in Hn as [Hc Hl].
  assert (Byte.eqb c NL = false) as -> by (by apply byte_eqb_false).
  f_equal. by apply IH.
Qed.

Lemma endswith_tail c l : c ∉ l -> endswith c l = false.
Proof.
  intros Hn. unfold endswith. destruct (last l) as [x|] eqn:Hlast; [|done].
  apply byte_eqb_false. intros ->. apply Hn.
  apply last_Some in Hlast as [l' ->]. bytes_solver.
Qed.

Lemma frame_not_nil l : frame l <> [].
Proof. unfold frame. by destruct l. Qed.

Lemma length_join_lines ls : (length ls <= length (join_lines ls))%nat.
Proof.
  induction ls as [|l ls IH]; simpl; [done|].
  unfold join_lines in *. simpl. rewrite length_app. unfold frame at 1.
  rewrite length_app. simpl. lia.
Qed.

Lemma join_lines_cons l ls : join_lines (l :: ls) = frame l ++ join_lines ls.
Proof. done. Qed.

Lemma join_lines_app ls1 ls2 :
  join_lines (ls1 ++ ls2) = join_lines ls1 ++ join_lines ls2.
Proof. unfold join_lines. by rewrite map_app, concat_app. Qed.

Lemma scan_loop_lines tail : NL ∉ tail -> forall records fuel s,
  Forall (fun l => NL ∉ l) records ->
  drop (position s) (content s) = join_lines records ++ tail ->
  (length records < fuel)%nat ->
  fst (scan_loop fuel s) =
    if forallb record_line_ok records && is_nil tail then Return tt
    else Raise CorruptedFormat.
Proof.
  intros Htail. induction records as [|l records IH]; intros fuel s Hn Hd Hf;
    (destruct fuel as [|fuel]; [lia|]); simpl scan_loop;
    unfold bind at 1, f_readline; rewrite Hd.
  - simpl. rewrite line_of_tail by done.
    destruct tail as [|c tail]; [done|]. simpl.
    by rewrite (endswith_tail _ _ Htail).
  - rewrite join_lines_cons, <- app_assoc.
    apply Forall_cons in Hn as [Hl Hn].
    rewrite line_of_frame by done.
    destruct (frame l) as [|c line] eqn:Hline; [by destruct (frame_not_nil l)|].
    rewrite <- Hline. unfold frame at 1. rewrite endswith_snoc. cbn [negb].
    cbn [forallb]. unfold record_line_ok at 1.
    destruct (startswith TAB (frame l)); cbn [negb andb]; [|done].
    destruct (find TAB (frame l) 1 =? -1); cbn [negb andb]; [|done].
    apply IH; [done| |simpl in Hf; lia]. simpl.
    rewrite <- drop_drop, Hd, join_lines_cons, <- app_assoc.
    by rewrite drop_app_length.
Qed.

Local Opaque scan_loop Storage__parse_current_offset.

Lemma scan_lines ls tail s :
  locked s = false ->
  content s = join_lines ls ++ tail ->
  Forall (fun l => NL ∉ l) ls -> NL ∉ tail ->
  fst (Storage_scan s) = scan_result ls tail.
Proof.
  intros Hl Hc Hn Htail. unfold Storage_scan.
  unfold bind at 1, f_seek. simpl.
  set (s0 := set_position (Z.to_nat 0) s).
  rewrite lock_spec by done.
  set (s1 := set_locked (lockable s0) s0).
  assert (forall (r : outcome unit) s',
            fst (let '(r, s') := (r, s') in
                 (r, if lockable s0 then set_locked false s' else s')) = r)
    as Hfst by done.
  assert (content s1 = join_lines ls ++ tail) as Hc1 by done.
  unfold bind at 1, f_readline.
  change (position s1) with 0%nat. rewrite drop_0, Hc1.
  destruct ls as [|l1 ls].
  { simpl. rewrite line_of_tail by done.
    destruct tail as [|c tail]; [done|].
    by rewrite (endswith_tail _ _ Htail). }
  apply Forall_cons in Hn as [Hn1 Hn].
  rewrite join_lines_cons, <- app_assoc, line_of_frame by done.
  destruct (frame l1) as [|c line] eqn:Hline;
    [by destruct (frame_not_nil l1)|].
  rewrite <- Hline. unfold frame at 1 2. rewrite endswith_snoc, slice_init_snoc.
  cbn [negb].
  destruct (bytes_eqb l1 IDENTIFIER) eqn:Hid; cbn [negb].
  2:{ simpl. destruct ls; [done|]. by rewrite Hid. }
  unfold bind at 1, f_readline.
  set (s2 := set_position _ s1).
  assert (drop (position s2) (content s2) = join_lines ls ++ tail) as Hd2.
  { simpl. rewrite Hc, join_lines_cons, <- app_assoc.
    by rewrite drop_app_length. }
  rewrite Hd2.
  destruct ls as [|l2 records].
  { simpl. rewrite line_of_tail, (endswith_tail _ _ Htail) by done. done. }
  apply Forall_cons in Hn as [Hn2 Hn].
  rewrite join_lines_cons, <- app_assoc, line_of_frame by done.
  unfold frame at 1 2. rewrite endswith_snoc. cbn [negb].
  set (s3 := set_position _ s2).
  unfold bind at 1. rewrite parse_spec. simpl scan_result. rewrite Hid.
  cbn [andb].
  destruct (root_digits_ok l2); cbn [andb]; [|done].
  assert (drop (position s3) (content s3) = join_lines records ++ tail) as Hd3.
  { change (drop (position s2 + length (frame l2)) (content s2)
            = join_lines records ++ tail).
    rewrite <- drop_drop, Hd2, join_lines_cons, <- app_assoc.
    by rewrite drop_app_length. }
  destruct (scan_loop _ s3) as [r s4] eqn:Hloop.
  change r with (fst (r, s4)) at 1. simpl fst at 1.
  replace r with (fst (scan_loop (S (length (content s3) - position s3)) s3))
    by by rewrite Hloop.
  apply scan_loop_lines; [done..|].
  rewrite <- length_drop, Hd3, length_app.
  pose proof (length_join_lines records). lia.
Qed.

Local Transparent scan_loop Storage__parse_current_offset.

(** *** Legal files *)

Lemma file_of_header digits records :
  file_of digits records =
    IDENTIFIER ++ [NL] ++ digits ++ [NL]
      ++ join_lines (map (cons TAB) records).
Proof.
  unfold file_of. rewrite !join_lines_cons. unfold frame.
  by rewrite <- !app_assoc.
Qed.

Lemma file_of_snoc digits records r :
  file_of digits (records ++ [r]) =
    file_of digits records ++ [TAB] ++ r ++ [NL].
Proof.
  rewrite !file_of_header, map_app, join_lines_app. simpl map.
  unfold join_lines at 2. simpl. unfold frame.
  rewrite app_nil_r. simpl. rewrite <- !app_assoc. simpl.
  by rewrite <- !app_assoc.
Qed.

Lemma store_returns record s offset s' :
  locked s = false ->
  Storage_store record s = (Return offset, s') ->
  (TAB ∉ record) /\ (NL ∉ record) /\ locked s' = false
  /\ content s' = content s ++ [TAB] ++ record ++ [NL].
Proof.
  intros Hl. unfold Storage_store. rewrite lock_spec by done.
  unfold bind, f_seek_end, f_tell, assert, f_write, ret, raise. simpl.
  destruct (2 <=? Z.of_nat (length (content s))); simpl;
    [|by destruct (lockable s)].
  destruct (byte_in TAB record) eqn:Ht; simpl; [by destruct (lockable s)|].
  destruct (byte_in NL record) eqn:Hn; simpl; [by destruct (lockable s)|].
  rewrite write_at_end. apply byte_in_false in Ht, Hn.
  destruct (lockable s); intros [= <- <-]; simpl; by repeat split.
Qed.

Lemma init_spec s :
  content (snd (Storage__init s)) = file_of (replicate DEFAULT_HEADER x30) []
  /\ locked (snd (Storage__init s)) = locked s.
Proof. rewrite file_of_header. split; reflexivity. Qed.

(** A legal file is free of locks and has the layout of [file_of], its
    records free of markers and newlines. *)
Lemma legal_shape s :
  legal s ->
  locked s = false
  /\ exists digits records,
       content s = file_of digits records
       /\ length digits = DEFAULT_HEADER
       /\ forallb is_digit digits = true
       /\ Forall (fun r => (TAB ∉ r) /\ (NL ∉ r)) records.
Proof.
  induction 1 as [s Hl|s record offset s' _ (Hl & digits & records & Hc & Hlen & Hd & Hr) Hrun
                 |s offset lease s' _ (Hl & digits & records & Hc & Hlen & Hd & Hr) Hpos Hrun].
  - destruct (init_spec s) as [Hc Hl']. split; [congruence|].
    exists (replicate DEFAULT_HEADER x30), []. by repeat split.
  - destruct (store_returns _ _ _ _ Hl Hrun) as (Ht & Hn & Hl' & Hc').
    split; [done|]. exists digits, (records ++ [record]).
    rewrite file_of_snoc, Hc', Hc. repeat split; try done.
    apply Forall_app. split; [done|]. by repeat constructor.
  - rewrite file_of_header in Hc.
    destruct (set_current_spec offset lease s digits _ Hl Hc
                (is_digit_not_NL _ Hd)) as (p' & q' & Hspec).
    rewrite Hspec in Hrun.
    destruct (negb (root_digits_ok digits)); [done|].
    destruct (lease_fails lease (decimal_value digits)); [done|].
    destruct (Nat.eqb_spec (length (format_0d offset (length digits)))
                (length digits)) as [Hfl|]; [|done].
    injection Hrun as <-. split; [done|].
    destruct (format_0d_value offset (length digits) Hpos Hfl) as [Hfd _].
    exists (format_0d offset (length digits)), records.
    rewrite file_of_header. simpl content. repeat split; try done. congruence.
Qed.

(** *** One byte changed *)

(** The byte at [i] is inside a line, or it is the newline of a line. *)
Lemma join_lines_insert ls : forall i old x,
  join_lines ls !! i = Some old ->
  exists pre a post,
    i = (length (join_lines pre) + length a)%nat
    /\ ((exists c, ls = pre ++ (a ++ old :: c) :: post
           /\ <[i:=x]> (join_lines ls) =
                join_lines pre ++ frame (a ++ x :: c) ++ join_lines post)
        \/ (ls = pre ++ a :: post /\ old = NL
            /\ <[i:=x]> (join_lines ls) =
                 join_lines pre ++ (a ++ [x]) ++ join_lines post)).
Proof.
  induction ls as [|l ls IH]; intros i old x Hi; [done|].
  rewrite join_lines_cons in Hi |- *.
  destruct (decide (i < length l)%nat) as [Hlt|Hge].
  - exists [], (take i l), ls.
    assert (l !! i = Some old) as Hl.
    { unfold frame in Hi. rewrite <- app_assoc, lookup_app_l in Hi; done. }
    split; [simpl; rewrite length_take; lia|]. left. exists (drop (S i) l).
    rewrite (take_drop_middle _ _ _ Hl). split; [done|].
    unfold frame. rewrite <- !app_assoc. simpl.
    rewrite insert_app_l, insert_take_drop by done.
    by rewrite <- app_assoc.
  - destruct (decide (i = length l)) as [->|Hne].
    + exists [], l, ls. split; [done|]. right. split; [done|].
      unfold frame in Hi |- *. rewrite <- app_assoc in Hi |- *.
      rewrite lookup_app_r in Hi by lia.
      rewrite Nat.sub_diag in Hi. injection Hi as <-. split; [done|].
      simpl. rewrite insert_app_r_alt by lia. rewrite Nat.sub_diag.
      by rewrite <- app_assoc.
    + assert (length (frame l) <= i)%nat as Hle
        by (unfold frame; rewrite length_app; simpl; lia).
      rewrite lookup_app_r in Hi by done.
      destruct (IH _ _ x Hi) as (pre & a & post & Hidx & Hcase).
      exists (l :: pre), a, post. rewrite join_lines_cons, length_app.
      split; [lia|].
      rewrite insert_app_r_alt by done.
      destruct Hcase as [(c & -> & ->)|(-> & -> & ->)]; [left; exists c|right];
        rewrite <- ?app_assoc; done.
Qed.

Lemma record_line_ok_cons c r :
  record_line_ok (c :: r) = Byte.eqb c TAB && bool_decide (TAB ∉ r).
Proof.
  unfold record_line_ok, frame. simpl app. rewrite find_from_1.
  simpl startswith. f_equal.
  destruct (index_of TAB (r ++ [NL])) as [i|] eqn:Hi.
  - rewrite bool_decide_eq_false_2.
    + destruct (Z.eqb_spec (Z.of_nat (1 + i)) (-1)); [lia|done].
    + intros Hr. apply index_of_Some in Hi as (_ & Hlook & _).
      assert (TAB ∈ r ++ [NL]) as Hin by by eapply list_elem_of_lookup_2.
      apply elem_of_app in Hin as [?|Hin]; [done|].
      by apply list_elem_of_singleton in Hin.
  - rewrite bool_decide_eq_true_2; [done|].
    apply index_of_None in Hi. bytes_solver.
Qed.

Lemma record_line_ok_nil : record_line_ok [] = false.
Proof. reflexivity. Qed.

Lemma records_ok records :
  Forall (fun r => (TAB ∉ r) /\ (NL ∉ r)) records ->
  forallb record_line_ok (map (cons TAB) records) = true
  /\ Forall (fun l => NL ∉ l) (map (cons TAB) records).
Proof.
  induction 1 as [|r records [Ht Hn] _ [IH1 IH2]]; simpl; [done|].
  rewrite record_line_ok_cons, bool_decide_eq_true_2 by done.
  split; [done|]. constructor; [|done].
  apply not_elem_of_cons. by split.
Qed.

Lemma scan_result_tail ls tail :
  tail <> [] -> scan_result ls tail = Raise CorruptedFormat.
Proof.
  intros Ht. destruct ls as [|l1 [|l2 records]]; try done. simpl.
  destruct tail; [done|]. simpl. by rewrite andb_false_r.
Qed.

Lemma scan_result_root l1 l2 records tail :
  root_digits_ok l2 = false ->
  scan_result (l1 :: l2 :: records) tail = Raise CorruptedFormat.
Proof. intros Hr. simpl. by rewrite Hr, andb_false_r. Qed.

Lemma scan_result_record l1 l2 pre bad post tail :
  record_line_ok bad = false ->
  scan_result (l1 :: l2 :: pre ++ bad :: post) tail = Raise CorruptedFormat.
Proof.
  intros Hb. simpl. rewrite forallb_app. simpl. rewrite Hb.
  by rewrite andb_false_r, andb_false_r.
Qed.

Lemma IDENTIFIER_NL : NL ∉ IDENTIFIER.
Proof. apply index_of_None, IDENTIFIER_no_NL. Qed.

Lemma bytes_eqb_refl l : bytes_eqb l l = true.
Proof. unfold bytes_eqb. by apply bool_decide_eq_true_2. Qed.

Lemma is_digit_frame x : is_digit x = true -> is_frame x = false.
Proof. by destruct x. Qed.

Lemma digits_no_TAB l : forallb is_digit l = true -> TAB ∉ l.
Proof.
  intros Hd Hin. rewrite forallb_forall in Hd.
  apply list_elem_of_In in Hin. by apply Hd in Hin.
Qed.

Lemma not_startswith_record l : TAB ∉ l -> record_line_ok l = false.
Proof.
  destruct l as [|c l]; [done|]. intros Hn. rewrite record_line_ok_cons.
  assert (Byte.eqb c TAB = false) as ->; [|done].
  apply byte_eqb_false. bytes_solver.
Qed.

Ltac lines_free :=
  repeat first [ apply Forall_nil
               | apply Forall_cons; split
               | apply Forall_app; split ];
  try done; try apply not_elem_of_nil; bytes_solver.

Lemma mutate_scan ls tail i x s :
  locked s = false ->
  <[i:=x]> (content s) = join_lines ls ++ tail ->
  Forall (fun l => NL ∉ l) ls -> NL ∉ tail ->
  fst (Storage_scan (mutate i x s)) = scan_result ls tail.
Proof. intros Hl Hc. by apply scan_lines. Qed.

(** C4. [scan] accepts every legal file, and it rejects a legal file in
    which one byte of the root line or of a record line has been changed
    exactly when the change touches the framing: a marker or a newline
    has gone, a marker or a newline has come, or the root line has a byte
    that is not a digit.  Any other change is accepted: a byte of a record
    replaced by another byte that is neither a marker nor a newline, or a
    digit of the root line replaced by another digit. *)
Theorem scan_detects_framing_changes s :
  legal s ->
  fst (Storage_scan s) = Return tt
  /\ forall i old x,
       (root_start <= i)%nat -> content s !! i = Some old -> x <> old ->
       fst (Storage_scan (mutate i x s)) =
         if framing_change i old x then Raise CorruptedFormat else Return tt.
Proof.
  intros Hlegal.
  destruct (legal_shape s Hlegal) as (Hl & digits & records & Hc & Hlen & Hd & Hr).
  destruct (records_ok records Hr) as [Hok Hnl].
  pose proof IDENTIFIER_NL as Hid.
  pose proof (is_digit_not_NL _ Hd) as Hdn.
  assert (root_digits_ok digits = true) as Hroot.
  { unfold root_digits_ok. rewrite Hd, Hlen. reflexivity. }
  split.
  { rewrite (scan_lines (IDENTIFIER :: digits :: map (cons TAB) records) [] s);
      [|done|by rewrite app_nil_r|by repeat constructor|by apply not_elem_of_nil].
    simpl. by rewrite bytes_eqb_refl, Hroot, Hok. }
  intros i old x Hi Hold Hx. unfold file_of in Hc. rewrite Hc in Hold.
  destruct (join_lines_insert _ _ _ x Hold)
    as (pre & a & post & Hidx & [(c & Hls & Hins)|(Hls & -> & Hins)]).
  - (* a byte inside a line *)
    destruct pre as [|p0 [|p1 pre]]; simpl in Hls.
    + (* the identifier *)
      injection Hls as Hident _. exfalso.
      assert (length IDENTIFIER = length (a ++ old :: c)) as Hlen' by by f_equal.
      rewrite length_app in Hlen'. simpl in *. unfold root_start in Hi. lia.
    + (* the root line *)
      injection Hls as <- Hdig <-.
      assert (i < records_start)%nat as Hlt.
      { rewrite Hidx. unfold records_start, root_start, join_lines.
        simpl. rewrite app_nil_r. unfold frame. rewrite length_app.
        rewrite <- Hlen, Hdig, !length_app. simpl. lia. }
      apply Nat.ltb_lt in Hlt. unfold framing_change. rewrite Hlt.
      rewrite Hdig in Hd, Hdn, Hroot.
      rewrite forallb_app in Hd. cbn [forallb] in Hd.
      apply andb_prop in Hd as [Hda Hd]. apply andb_prop in Hd as [Hdo Hdc].
      rewrite (is_digit_frame _ Hdo). cbn [orb andb].
      destruct (decide (x = NL)) as [->|Hnx].
      * rewrite (mutate_scan (IDENTIFIER :: a :: c :: map (cons TAB) records)
                   [] i NL s); [|done| | |by apply not_elem_of_nil].
        -- transitivity (@Raise unit CorruptedFormat); [|done].
           apply (scan_result_record IDENTIFIER a [] c).
           apply not_startswith_record. by apply digits_no_TAB.
        -- rewrite Hc, Hins, app_nil_r. unfold join_lines, frame. simpl.
           by rewrite <- !app_assoc.
        -- repeat constructor; try done; bytes_solver.
      * rewrite (mutate_scan
                   (IDENTIFIER :: (a ++ x :: c) :: map (cons TAB) records)
                   [] i x s); [|done| | |by apply not_elem_of_nil].
        -- simpl. rewrite bytes_eqb_refl, Hok. unfold root_digits_ok in *.
           rewrite forallb_app in Hroot |- *. cbn [forallb] in Hroot |- *.
           rewrite !length_app in Hroot |- *. simpl length in Hroot |- *.
           rewrite Hda, Hdo, Hdc in Hroot. rewrite Hda, Hdc.
           rewrite !andb_true_r in Hroot |- *. cbn [andb] in Hroot |- *.
           rewrite Hroot. cbn [andb].
           destruct (is_digit x) eqn:Hdx.
           ++ by rewrite (is_digit_frame _ Hdx).
           ++ cbn [negb]. by rewrite orb_true_r.
        -- rewrite Hc, Hins, app_nil_r. unfold join_lines. simpl.
           by rewrite <- !app_assoc.
        -- repeat constructor; try done. bytes_solver.
    + (* a record line *)
      injection Hls as <- <- Hrec.
      apply fmap_app_inv in Hrec as (rs1 & rest & -> & Hrest & ->).
      unfold fmap in *. change list_fmap with @map in *.
      destruct rest as [|r rs2]; [done|]. injection Hrest as Hline ->.
      apply Forall_app in Hr as [Hr1 Hr2].
      apply Forall_cons in Hr2 as [[Hrt Hrn] Hr2].
      destruct (records_ok rs1 Hr1) as [Hok1 Hnl1].
      destruct (records_ok rs2 Hr2) as [Hok2 Hnl2].
      assert (records_start <= i)%nat as Hge.
      { rewrite Hidx. unfold records_start, root_start.
        rewrite !join_lines_cons, !length_app. unfold frame.
        rewrite !length_app, Hlen. cbn [length]. lia. }
      apply Nat.ltb_ge in Hge. unfold framing_change. rewrite Hge.
      cbn [andb]. rewrite orb_false_r.
      assert (forall line1 lines,
                <[i:=x]> (content s) =
                  join_lines (IDENTIFIER :: digits :: map (cons TAB) rs1
                                ++ lines ++ map (cons TAB) rs2) ->
                Forall (fun l => NL ∉ l) lines ->
                line1 ∈ lines -> record_line_ok line1 = false ->
                fst (Storage_scan (mutate i x s)) = Raise CorruptedFormat)
        as Hbad.
      { intros line1 lines Hcont Hfree Hin Hno.
        apply list_elem_of_split in Hin as (l1 & l2 & ->).
        apply Forall_app in Hfree as [Hf1 Hf2].
        apply Forall_cons in Hf2 as [Hf0 Hf2].
        rewrite (mutate_scan
                   (IDENTIFIER :: digits :: (map (cons TAB) rs1 ++ l1)
                      ++ line1 :: (l2 ++ map (cons TAB) rs2)) [] i x s Hl).
        - by apply scan_result_record.
        - rewrite app_nil_r, Hcont. by rewrite <- !app_assoc.
        - repeat (apply Forall_cons; split; [done|]).
          apply Forall_app. split; [by apply Forall_app|].
          apply Forall_cons. split; [done|]. by apply Forall_app.
        - by apply not_elem_of_nil. }
      destruct a as [|a0 a].
      * (* the marker *)
        simpl in Hline. injection Hline as -> ->.
        change (is_frame TAB) with true. cbn [orb].
        destruct (decide (x = NL)) as [->|Hnx].
        -- apply (Hbad [] [[]; r]); [|lines_free|by left|done].
           rewrite Hc, Hins. rewrite !join_lines_cons, !join_lines_app.
           rewrite !join_lines_cons. unfold frame. simpl.
           by rewrite <- !app_assoc.
        -- apply (Hbad (x :: r) [x :: r]); [| |by left|].
           ++ rewrite Hc, Hins. rewrite !join_lines_cons, !join_lines_app.
              rewrite !join_lines_cons. unfold frame. simpl.
              by rewrite <- !app_assoc.
           ++ lines_free.
           ++ rewrite record_line_ok_cons.
              assert (Byte.eqb x TAB = false) as -> by by apply byte_eqb_false.
              done.
      * (* a byte of the record *)
        simpl in Hline. injection Hline as -> <-.
        assert (is_frame old = false) as ->.
        { unfold is_frame.
          assert (Byte.eqb old TAB = false) as ->
            by (apply byte_eqb_false; bytes_solver).
          assert (Byte.eqb old NL = false) as ->
            by (apply byte_eqb_false; bytes_solver).
          done. }
        cbn [orb]. unfold is_frame.
        destruct (decide (x = NL)) as [->|Hnx].
        -- rewrite orb_true_r.
           apply (Hbad c [TAB :: a; c]); [| |bytes_solver|].
           ++ rewrite Hc, Hins. rewrite !join_lines_cons, !join_lines_app.
              rewrite !join_lines_cons. unfold frame. simpl.
              by rewrite <- !app_assoc.
           ++ lines_free.
           ++ apply not_startswith_record. bytes_solver.
        -- assert (Byte.eqb x NL = false) as -> by by apply byte_eqb_false.
           rewrite orb_false_r.
           destruct (decide (x = TAB)) as [->|Htx].
           ++ change (Byte.eqb TAB TAB) with true.
              apply (Hbad (TAB :: a ++ TAB :: c) [TAB :: a ++ TAB :: c]);
                [| |by left|].
              ** rewrite Hc, Hins. rewrite !join_lines_cons, !join_lines_app.
                 rewrite !join_lines_cons. unfold frame. simpl.
                 by rewrite <- !app_assoc.
              ** lines_free.
              ** rewrite record_line_ok_cons.
                 rewrite bool_decide_eq_false_2; [done|]. bytes_solver.
           ++ assert (Byte.eqb x TAB = false) as -> by by apply byte_eqb_false.
              rewrite (mutate_scan
                         (IDENTIFIER :: digits :: map (cons TAB) rs1
                            ++ (TAB :: a ++ x :: c) :: map (cons TAB) rs2)
                         [] i x s Hl); [| | |by apply not_elem_of_nil].
              ** simpl. rewrite bytes_eqb_refl, Hroot, forallb_app.
                 simpl. rewrite Hok1, Hok2, record_line_ok_cons.
                 rewrite bool_decide_eq_true_2; [done|]. bytes_solver.
              ** rewrite Hc, Hins, app_nil_r.
                 rewrite !join_lines_cons, !join_lines_app.
                 rewrite !join_lines_cons. unfold frame. simpl.
                 by rewrite <- !app_assoc.
              ** repeat (apply Forall_cons; split; [done|]).
                 apply Forall_app. split; [done|].
                 apply Forall_cons. split; [bytes_solver|done].
  - (* the newline of a line *)
    assert (framing_change i NL x = true) as -> by done.
    destruct post as [|l' post].
    { rewrite (mutate_scan pre (a ++ [x]) i x s Hl).
      - apply scan_result_tail. by destruct a.
      - rewrite Hc, Hins. by rewrite app_nil_r.
      - assert (Forall (fun l => NL ∉ l)
                  (IDENTIFIER :: digits :: map (cons TAB) records)) as Hall
          by by repeat constructor.
        rewrite Hls in Hall. by apply Forall_app in Hall as [? _].
      - assert (Forall (fun l => NL ∉ l)
                  (IDENTIFIER :: digits :: map (cons TAB) records)) as Hall
          by by repeat constructor.
        rewrite Hls in Hall. apply Forall_app in Hall as [_ Hall].
        apply Forall_cons in Hall as [Ha _]. bytes_solver. }
    destruct pre as [|p0 [|p1 pre]]; simpl in Hls.
    + injection Hls as Hident _. exfalso. subst a.
      simpl in Hidx. unfold root_start in Hi. lia.
    + injection Hls as <- <- Hrec.
      destruct records as [|r records]; [done|]. injection Hrec as <- <-.
      apply Forall_cons in Hr as [[Hrt Hrn] Hr].
      destruct (records_ok records Hr) as [Hok' Hnl'].
      rewrite (mutate_scan
                 (IDENTIFIER :: (digits ++ [x] ++ TAB :: r)
                    :: map (cons TAB) records) [] i x s Hl);
        [| | |by apply not_elem_of_nil].
      * apply scan_result_root. unfold root_digits_ok.
        rewrite !forallb_app. simpl. by rewrite !andb_false_r.
      * rewrite Hc, Hins, app_nil_r. rewrite !join_lines_cons.
        unfold frame. simpl. by rewrite <- !app_assoc.
      * repeat (apply Forall_cons; split; [try done|]); [|done].
        bytes_solver.
    + injection Hls as <- <- Hrec.
      apply fmap_app_inv in Hrec as (rs1 & rest & -> & Hrest & ->).
      unfold fmap in *. change list_fmap with @map in *.
      destruct rest as [|r [|r' rs2]]; [done..|].
      injection Hrest as -> -> ->.
      apply Forall_app in Hr as [Hr1 Hr2].
      apply Forall_cons in Hr2 as [[Hrt Hrn] Hr2].
      apply Forall_cons in Hr2 as [[Hrt' Hrn'] Hr2].
      destruct (records_ok rs1 Hr1) as [Hok1 Hnl1].
      destruct (records_ok rs2 Hr2) as [Hok2 Hnl2].
      rewrite (mutate_scan
                 (IDENTIFIER :: digits :: map (cons TAB) rs1
                    ++ (TAB :: r ++ [x] ++ TAB :: r') :: map (cons TAB) rs2)
                 [] i x s Hl); [| | |by apply not_elem_of_nil].
      * apply scan_result_record. rewrite record_line_ok_cons.
        rewrite bool_decide_eq_false_2; [done|]. bytes_solver.
      * rewrite Hc, Hins, app_nil_r.
        rewrite !join_lines_cons, !join_lines_app.
        rewrite !join_lines_cons. unfold frame. simpl.
        by rewrite <- !app_assoc.
      * repeat (apply Forall_cons; split; [done|]).
        apply Forall_app. split; [done|].
        apply Forall_cons. split; [bytes_solver|done].
Qed.

(** [hello_storage] is a legal file. *)
Lemma hello_storage_legal : legal hello_storage.
Proof.
  apply (legal_store Storage_open_in_memory (b "hello") 53 hello_storage).
  - apply (legal_init (mkStorage [] 0 false false)). reflexivity.
  - vm_compute. reflexivity.
Qed.

(** C4 as it stands does not hold: in the legal file that holds the one
    record [hello], at offset 53, the [h] at position 54 replaced by a [j]
    and the last digit of the root line, at position 51, replaced by a
    [1] both give files that [scan] accepts. *)
Lemma scan_accepts_changed_bytes :
  legal hello_storage
  /\ content hello_storage !! 54%nat = Some x68
  /\ fst (Storage_scan (mutate 54 x6a hello_storage)) = Return tt
  /\ content hello_storage !! 51%nat = Some x30
  /\ fst (Storage_scan (mutate 51 x31 hello_storage)) = Return tt.
Proof.
  split; [apply hello_storage_legal|]. vm_compute. by repeat split.
Qed.

(** *** The records of a legal file *)


Lemma frame_record r : frame (TAB :: r) = [TAB] ++ r ++ [NL].
Proof. done. Qed.

Lemma slice_record r :
  slice (TAB :: r ++ [NL]) (Some 1) (Some (-1)) = r.
Proof.
  rewrite slice_inner. simpl. rewrite drop_0, length_app. simpl.
  replace (length r + 1 - 1)%nat with (length r) by lia.
  by rewrite take_app_length.
Qed.

Lemma records_loop_table : forall records fuel s ys,
  Forall (fun r => (TAB ∉ r) /\ (NL ∉ r)) records ->
  drop (position s) (content s) = join_lines (map (cons TAB) records) ->
  (length records < fuel)%nat ->
  exists s',
    records_loop fuel (s, ys) =
      (Return tt, (s', ys ++ record_table (position s) records))
    /\ content s' = content s /\ locked s' = locked s
    /\ lockable s' = lockable s.
Proof.
  induction records as [|r records IH]; intros fuel s ys Hr Hd Hf;
    (destruct fuel as [|fuel]; [simpl in Hf; lia|]).
  - simpl records_loop.
    unfold bind at 1, on_file at 1, f_tell; cbn [fst snd].
    unfold bind at 1, on_file at 1, f_readline; cbn [fst snd]. rewrite Hd.
    simpl. rewrite app_nil_r. eexists. split; [done|]. done.
  - apply Forall_cons in Hr as [[Ht Hn] Hr].
    assert (line_of (drop (position s) (content s)) = TAB :: r ++ [NL])
      as Hline.
    { rewrite Hd. simpl map. rewrite join_lines_cons.
      rewrite line_of_frame by (apply not_elem_of_cons; by split). done. }
    simpl records_loop.
    unfold bind at 1, on_file at 1, f_tell; cbn [fst snd].
    unfold bind at 1, on_file at 1, f_readline; cbn [fst snd].
    rewrite Hline.
    change (TAB :: r ++ [NL]) with ((TAB :: r) ++ [NL]) at 1.
    rewrite (endswith_snoc NL (TAB :: r)). cbn [negb].
    change (startswith TAB (TAB :: r ++ [NL])) with true. cbn [negb].
    rewrite find_from_1.
    assert (index_of TAB (r ++ [NL]) = None) as ->.
    { apply index_of_None. rewrite elem_of_app, list_elem_of_singleton.
      intros [?|?]; done. }
    change (-1 =? -1) with true. cbn [negb].
    unfold bind at 1, yield. cbn [fst snd].
    rewrite slice_record.
    set (s1 := set_position _ s).
    destruct (IH fuel s1 (ys ++ [(Z.of_nat (position s), r)]) Hr)
      as (s' & Hrun & Hc & Hl & Hk).
    + unfold s1. simpl. rewrite <- drop_drop, Hd. simpl map.
      rewrite join_lines_cons, frame_record. simpl.
      by rewrite drop_app_length.
    + simpl in Hf. lia.
    + exists s'. rewrite Hrun. split; [|done].
      rewrite <- app_assoc. simpl. do 4 f_equal.
      unfold s1. simpl. rewrite length_app. simpl. f_equal. lia.
Qed.

Lemma records_file_of s digits records :
  locked s = false ->
  content s = file_of digits records ->
  NL ∉ digits ->
  Forall (fun r => (TAB ∉ r) /\ (NL ∉ r)) records ->
  records_of s =
    ((0, IDENTIFIER) :: (Z.of_nat root_start, digits)
       :: record_table (root_start + length digits + 1) records,
     Return tt).
Proof.
  intros Hl Hc Hn Hr. unfold records_of, Storage_records.
  unfold bind at 1, on_file at 1, f_seek. cbn [fst snd].
  change (0 <? 0) with false. cbv iota.
  set (s0 := set_position (Z.to_nat 0) s).
  unfold lock_yielding. cbn [fst snd].
  change (locked s0) with (locked s). rewrite Hl.
  rewrite file_of_header in Hc.
  assert (forall s1 : Storage,
            content s1 = content s -> position s1 = 0%nat ->
            exists s',
              (let* line := on_file f_readline in
               if negb (endswith NL line) then raise CorruptedFormat
               else if negb (bytes_eqb (slice line None (Some (-1))) IDENTIFIER)
               then raise CorruptedFormat
               else
                 let* _ := yield (0, slice line None (Some (-1))) in
                 let* offset := on_file f_tell in
                 let* line := on_file f_readline in
                 if negb (endswith NL line) then raise CorruptedFormat
                 else
                   let* _ := yield (offset, slice line None (Some (-1))) in
                   fun st =>
                     records_loop
                       (S (length (content st.1) - position st.1)) st)
                (s1, []) =
              (Return tt,
               (s', (0, IDENTIFIER) :: (Z.of_nat root_start, digits)
                      :: record_table (root_start + length digits + 1)
                           records))) as Hbody.
  { intros s1 Hc1 Hp1.
    unfold bind at 1, on_file at 1, f_readline. cbn [fst snd].
    rewrite Hp1, drop_0, Hc1, Hc.
    change (IDENTIFIER ++ [NL] ++ digits ++ [NL]
              ++ join_lines (map (cons TAB) records))
      with (IDENTIFIER ++ [NL] ++ (digits ++ [NL]
              ++ join_lines (map (cons TAB) records))).
    rewrite app_assoc.
    rewrite (line_of_frame IDENTIFIER) by apply IDENTIFIER_NL.
    unfold frame. rewrite endswith_snoc, slice_init_snoc, bytes_eqb_refl.
    cbn [negb].
    unfold bind at 1, yield. cbn [fst snd].
    unfold bind at 1, on_file at 1, f_tell. cbn [fst snd].
    unfold bind at 1, on_file at 1, f_readline. cbn [fst snd].
    set (s2 := set_position _ s1).
    assert (position s2 = root_start) as Hp2.
    { unfold s2, root_start. simpl. by rewrite length_app. }
    assert (drop (position s2) (content s2) =
              (digits ++ [NL]) ++ join_lines (map (cons TAB) records)) as Hd2.
    { rewrite Hp2. unfold s2. simpl. rewrite Hc1, Hc.
      unfold root_start.
      replace (length IDENTIFIER + 1)%nat with (length (IDENTIFIER ++ [NL]))
        by (by rewrite length_app).
      rewrite app_assoc, drop_app_length. by rewrite <- app_assoc. }
    rewrite Hd2. rewrite (line_of_frame digits) by done.
    unfold frame. rewrite endswith_snoc, slice_init_snoc. cbn [negb].
    unfold bind at 1, yield. cbn [fst snd].
    set (s3 := set_position _ s2).
    assert (drop (position s3) (content s3) =
              join_lines (map (cons TAB) records)) as Hd3.
    { change (drop (position s2 + length (digits ++ [NL])) (content s2) =
                join_lines (map (cons TAB) records)).
      rewrite <- drop_drop, Hd2. by rewrite drop_app_length. }
    destruct (records_loop_table records
                (S (length (content s3) - position s3)) s3
                (([] ++ [(0, IDENTIFIER)])
                   ++ [(Z.of_nat (position s2), digits)])
                Hr Hd3) as (s' & Hrun & _).
    - rewrite <- length_drop, Hd3.
      pose proof (length_join_lines (map (cons TAB) records)) as Hlen.
      rewrite length_map in Hlen. lia.
    - exists s'. rewrite Hrun. do 2 f_equal. simpl.
      unfold root_start. rewrite !length_app. simpl.
      do 3 f_equal. }
  destruct (lockable s0) eqn:Hk.
  - destruct (Hbody (set_locked true s0) eq_refl eq_refl) as (s' & ->).
    done.
  - destruct (Hbody s0 eq_refl eq_refl) as (s' & ->). done.
Qed.

Lemma record_table_elem offset r : forall records start,
  (offset, r) ∈ record_table start records <->
  exists rs1 rs2,
    records = rs1 ++ r :: rs2
    /\ offset =
         Z.of_nat (start + length (join_lines (map (cons TAB) rs1))).
Proof.
  induction records as [|r0 records IH]; intros start; simpl.
  - split; [by intros ?%elem_of_nil|].
    intros (rs1 & rs2 & Hrs & _). by destruct rs1.
  - rewrite elem_of_cons, IH. split.
    + intros [[= -> ->]|(rs1 & rs2 & -> & ->)].
      * exists [], records. split; [done|]. simpl. f_equal. lia.
      * exists (r0 :: rs1), rs2. split; [done|]. simpl map.
        rewrite join_lines_cons, length_app, frame_record. simpl.
        rewrite length_app. simpl. f_equal. lia.
    + intros (rs1 & rs2 & Hrs & ->). destruct rs1 as [|r1 rs1].
      * injection Hrs as <- <-. left. simpl. do 2 f_equal. lia.
      * injection Hrs as <- ->. right. exists rs1, rs2. split; [done|].
        simpl map. rewrite join_lines_cons, length_app, frame_record. simpl.
        rewrite length_app. simpl. f_equal. lia.
Qed.

Lemma IDENTIFIER_TAB : TAB ∉ IDENTIFIER.
Proof. apply index_of_None. vm_compute. reflexivity. Qed.

(** Where in a sequence of lines a position falls. *)
Lemma join_lines_drop ls i old :
  join_lines ls !! i = Some old ->
  exists pre a post,
    i = (length (join_lines pre) + length a)%nat
    /\ ((exists c, ls = pre ++ (a ++ old :: c) :: post
           /\ drop i (join_lines ls) = frame (old :: c) ++ join_lines post)
        \/ (ls = pre ++ a :: post /\ old = NL
            /\ drop i (join_lines ls) = [NL] ++ join_lines post)).
Proof.
  intros Hi.
  destruct (join_lines_insert ls i old old Hi)
    as (pre & a & post & Hidx & Hcase).
  rewrite list_insert_id in Hcase by done.
  exists pre, a, post. split; [done|].
  destruct Hcase as [(c & Hls & Heq)|(Hls & Hold & Heq)]; [left; exists c|right];
    (split; [done|]); try (split; [done|]); rewrite Heq, Hidx;
    rewrite <- drop_drop, drop_app_length.
  - unfold frame. rewrite <- !app_assoc. by rewrite drop_app_length.
  - rewrite <- !app_assoc. rewrite drop_app_length. by subst old.
Qed.

Lemma load_file_of s digits records :
  content s = file_of digits records ->
  forallb is_digit digits = true ->
  Forall (fun r => (TAB ∉ r) /\ (NL ∉ r)) records ->
  forall offset r,
    fst (Storage_load offset s) = Return r <->
    (offset, r) ∈ record_table (root_start + length digits + 1) records.
Proof.
  intros Hc Hd Hr offset r.
  destruct (load_spec offset s) as (p' & ->). cbn [fst].
  rewrite record_table_elem.
  assert (root_start + length digits + 1 =
          length (join_lines [IDENTIFIER; digits]))%nat as Hstart.
  { unfold root_start, join_lines, frame. simpl.
    rewrite !length_app. simpl. lia. }
  split.
  - destruct (Z.ltb_spec offset 0) as [|Hpos]; [done|].
    destruct (content s !! Z.to_nat offset) as [old|] eqn:Hold.
    2:{ rewrite drop_ge by (by apply lookup_ge_None). done. }
    rewrite Hc in Hold |- *. unfold file_of in *.
    destruct (join_lines_drop _ _ _ Hold)
      as (pre & a & post & Hidx & [(c & Hls & ->)|(Hls & -> & ->)]).
    2:{ unfold load_result. simpl. done. }
    assert (Forall (fun l => NL ∉ l)
              (IDENTIFIER :: digits :: map (cons TAB) records)) as Hfree.
    { destruct (records_ok records Hr) as [_ Hnl].
      repeat (apply Forall_cons; split); try done.
      - apply IDENTIFIER_NL.
      - by apply is_digit_not_NL. }
    assert (NL ∉ old :: c) as Hnc.
    { rewrite Hls in Hfree. apply Forall_app in Hfree as [_ Hfree].
      apply Forall_cons in Hfree as [Hfree _]. bytes_solver. }
    unfold load_result, frame.
    rewrite <- app_assoc, index_of_app_r by (by apply index_of_None).
    simpl index_of at 1. cbn [fmap option_fmap option_map].
    rewrite Nat.add_0_r.
    replace (take (S (length (old :: c))) ((old :: c) ++ [NL] ++ join_lines post))
      with ((old :: c) ++ [NL]).
    2:{ replace (S (length (old :: c))) with (length ((old :: c) ++ [NL]))
          by (rewrite length_app; simpl; lia).
        by rewrite app_assoc, take_app_length. }
    simpl startswith.
    destruct (Byte.eqb old TAB) eqn:Ht; cbn [negb]; [|done].
    apply byte_eqb_true in Ht. subst old.
    assert (exists rs1 rs2, pre = IDENTIFIER :: digits :: map (cons TAB) rs1
              /\ a = [] /\ records = rs1 ++ c :: rs2) as
      (rs1 & rs2 & -> & -> & ->).
    { destruct pre as [|p0 [|p1 pre]]; simpl in Hls.
      - injection Hls as Hident _. exfalso.
        pose proof IDENTIFIER_TAB as Hno. rewrite Hident in Hno. bytes_solver.
      - injection Hls as _ Hdig _. exfalso.
        pose proof (digits_no_TAB _ Hd) as Hno. rewrite Hdig in Hno.
        bytes_solver.
      - injection Hls as <- <- Hrec.
        apply fmap_app_inv in Hrec as (rs1 & rest & -> & Hrest & ->).
        unfold fmap in *. change list_fmap with @map in *.
        destruct rest as [|r0 rs2]; [done|]. injection Hrest as Hline ->.
        apply Forall_app in Hr as [_ Hr2].
        apply Forall_cons in Hr2 as [[Hrt _] _].
        destruct a as [|a0 a].
        + injection Hline as <-. by exists rs1, rs2.
        + exfalso. injection Hline as _ <-. bytes_solver. }
    destruct (find TAB ((TAB :: c) ++ [NL]) 1 =? -1); cbn [negb]; [|done].
    change ((TAB :: c) ++ [NL]) with (TAB :: c ++ [NL]).
    rewrite slice_record. intros [= <-].
    exists rs1, rs2. split; [done|].
    rewrite Hstart, <- length_app, <- join_lines_app.
    simpl in Hidx |- *. lia.
  - intros (rs1 & rs2 & -> & ->).
    destruct (Z.ltb_spec (Z.of_nat (root_start + length digits + 1
                 + length (join_lines (map (cons TAB) rs1)))) 0); [lia|].
    rewrite Nat2Z.id, Hc. unfold file_of.
    apply Forall_app in Hr as [_ Hr2].
    apply Forall_cons in Hr2 as [[Hrt Hrn] _].
    replace (join_lines (IDENTIFIER :: digits :: map (cons TAB) (rs1 ++ r :: rs2)))
      with ((join_lines [IDENTIFIER; digits]
               ++ join_lines (map (cons TAB) rs1))
              ++ [TAB] ++ r ++ [NL] ++ join_lines (map (cons TAB) rs2)).
    2:{ rewrite map_app. simpl map.
        change (IDENTIFIER :: digits ::
                  map (cons TAB) rs1 ++ (TAB :: r) :: map (cons TAB) rs2)
          with ([IDENTIFIER; digits]
                  ++ map (cons TAB) rs1 ++ (TAB :: r) :: map (cons TAB) rs2).
        rewrite !join_lines_app, (join_lines_cons (TAB :: r)), frame_record.
        by rewrite <- !app_assoc. }
    rewrite Hstart, <- length_app, drop_app_length.
    by apply load_result_record.
Qed.


Lemma laid_out_store s digits records record offset s' :
  laid_out s digits records ->
  Storage_store record s = (Return offset, s') ->
  laid_out s' digits (records ++ [record])
  /\ offset = Z.of_nat (length (content s)).
Proof.
  intros (Hl & Hc & Hlen & Hd & Hr) Hrun.
  destruct (store_returns _ _ _ _ Hl Hrun) as (Ht & Hn & Hl' & Hc').
  split.
  - repeat split; try done.
    + by rewrite file_of_snoc, Hc', Hc.
    + apply Forall_app. split; [done|]. by repeat constructor.
  - assert (2 <= length (content s))%nat as Hlen2.
    { rewrite Hc, file_of_header, length_app, IDENTIFIER_length. lia. }
    rewrite store_spec in Hrun by (try done; by apply byte_in_false).
    by injection Hrun as <- _.
Qed.

Lemma laid_out_set_current s digits records offset lease s' :
  laid_out s digits records -> 0 <= offset ->
  Storage_set_current offset lease s = (Return tt, s') ->
  laid_out s' (format_0d offset DEFAULT_HEADER) records.
Proof.
  intros (Hl & Hc & Hlen & Hd & Hr) Hpos Hrun.
  rewrite file_of_header in Hc.
  destruct (set_current_spec offset lease s digits _ Hl Hc
              (is_digit_not_NL _ Hd)) as (p' & q' & Hspec).
  rewrite Hspec in Hrun.
  destruct (negb (root_digits_ok digits)); [done|].
  destruct (lease_fails lease (decimal_value digits)); [done|].
  destruct (Nat.eqb_spec (length (format_0d offset (length digits)))
              (length digits)) as [Hfl|]; [|done].
  injection Hrun as <-.
  destruct (format_0d_value offset (length digits) Hpos Hfl) as [Hfd _].
  rewrite Hlen in *.
  repeat split; try done. rewrite file_of_header. done.
Qed.

Lemma legal_laid_out s :
  legal s -> exists digits records, laid_out s digits records.
Proof.
  intros Hs. destruct (legal_shape s Hs) as (? & digits & records & ? & ? & ? & ?).
  by exists digits, records.
Qed.

Lemma reaches_laid_out s digits records s' :
  laid_out s digits records -> reaches s s' ->
  exists digits' more, laid_out s' digits' (records ++ more).
Proof.
  intros Hs. induction 1 as [|s1 record offset s2 _ (d1 & more & H1) Hrun
                            |s1 offset lease s2 _ (d1 & more & H1) Hpos Hrun].
  - exists digits, []. by rewrite app_nil_r.
  - destruct (laid_out_store _ _ _ _ _ _ H1 Hrun) as [H2 _].
    exists d1, (more ++ [record]). by rewrite app_assoc.
  - exists (format_0d offset DEFAULT_HEADER), more.
    by eapply laid_out_set_current.
Qed.

Lemma legal_reaches s s' : legal s -> reaches s s' -> legal s'.
Proof.
  intros Hs. induction 1; [done| |].
  - by eapply legal_store.
  - by eapply legal_set_current.
Qed.

Lemma length_file_of digits records :
  length (file_of digits records) =
    (root_start + length digits + 1
       + length (join_lines (map (cons TAB) records)))%nat.
Proof.
  rewrite file_of_header, !length_app. unfold root_start. simpl. lia.
Qed.

(** X1.  On a legal file the generator [records] runs to its end and
    yields the identifier at offset 0, the root line at the offset that
    follows the identifier line, and then the records with their offsets:
    the root line read as a number is what [get_current] returns, and
    [load] returns a record [r] at an offset exactly when [records] has
    yielded [r] with that offset. *)
Theorem records_lists_what_load_returns s :
  legal s ->
  exists root_line table,
    records_of s =
      ((0, IDENTIFIER) :: (Z.of_nat root_start, root_line) :: table,
       Return tt)
    /\ fst (Storage_get_current s) = Return (decimal_value root_line)
    /\ forall offset r,
         fst (Storage_load offset s) = Return r <-> (offset, r) ∈ table.
Proof.
  intros Hs.
  destruct (legal_laid_out s Hs) as (digits & records & Hl & Hc & Hlen & Hd & Hr).
  exists digits, (record_table (root_start + length digits + 1) records).
  split; [|split].
  - apply records_file_of; try done. by apply is_digit_not_NL.
  - rewrite file_of_header in Hc.
    destruct (get_current_spec s digits _ Hl Hc (is_digit_not_NL _ Hd))
      as (p' & ->).
    unfold root_digits_ok. rewrite Hd, Hlen. reflexivity.
  - by apply load_file_of.
Qed.

(** X2.  A record stored in a legal file stays readable: the offset that
    [store] has returned is the length of the file before the call, lies
    behind the header, and [load] of it returns the record after any
    further calls of [store] and [set_current] that return. *)
Theorem stored_record_stays_loadable s record offset s1 s2 :
  legal s ->
  Storage_store record s = (Return offset, s1) ->
  reaches s1 s2 ->
  fst (Storage_load offset s2) = Return record
  /\ Z.of_nat records_start <= offset
  /\ offset = Z.of_nat (length (content s)).
Proof.
  intros Hs Hrun Hreach.
  destruct (legal_laid_out s Hs) as (digits & records & Hlay).
  destruct (laid_out_store _ _ _ _ _ _ Hlay Hrun) as [Hlay1 ->].
  destruct (reaches_laid_out _ _ _ _ Hlay1 Hreach)
    as (digits' & more & Hl2 & Hc2 & Hlen2 & Hd2 & Hr2).
  destruct Hlay as (Hl & Hc & Hlen & Hd & Hr).
  split; [|split; [|done]].
  - apply (load_file_of s2 digits' _ Hc2 Hd2 Hr2).
    apply record_table_elem. exists records, more.
    split; [by rewrite <- app_assoc|].
    rewrite Hc, length_file_of, Hlen, Hlen2. done.
  - rewrite Hc, length_file_of, Hlen. unfold records_start. lia.
Qed.

(** *** How many digits a number takes *)

Lemma of_uint_cons (k : N) (D : Decimal.uint -> Decimal.uint) u :
  DecimalPos.Unsigned.of_lu (D Decimal.Nil) = k ->
  (forall v, Decimal.revapp (D u) v = Decimal.revapp u (D v)) ->
  (N.of_uint (D u) =
     k * 10 ^ DecimalPos.Unsigned.usize u + N.of_uint u)%N.
Proof.
  intros Hk Hrev. unfold N.of_uint.
  rewrite !DecimalPos.Unsigned.of_uint_alt. unfold Decimal.rev.
  rewrite Hrev, DecimalPos.Unsigned.of_lu_revapp, Hk.
  unfold Decimal.rev. apply N.add_comm.
Qed.

Lemma of_uint_upper u :
  (N.of_uint u < 10 ^ DecimalPos.Unsigned.usize u)%N.
Proof.
  induction u; simpl DecimalPos.Unsigned.usize;
    [done|rewrite N.pow_succ_r'..];
    (erewrite of_uint_cons; [|reflexivity|reflexivity]);
    simpl (DecimalPos.Unsigned.of_lu _);
    set (X := (10 ^ DecimalPos.Unsigned.usize u)%N) in *; lia.
Qed.


Lemma of_uint_lower u :
  leading u = true ->
  (10 ^ (DecimalPos.Unsigned.usize u - 1) <= N.of_uint u)%N.
Proof.
  destruct u; try done; intros _; simpl DecimalPos.Unsigned.usize;
    (erewrite of_uint_cons; [|reflexivity|reflexivity]);
    simpl (DecimalPos.Unsigned.of_lu _);
    replace (N.succ (DecimalPos.Unsigned.usize u) - 1)%N
      with (DecimalPos.Unsigned.usize u) by lia;
    set (X := (10 ^ DecimalPos.Unsigned.usize u)%N) in *; lia.
Qed.

Lemma nzhead_not_D0 u v : Decimal.nzhead u <> Decimal.D0 v.
Proof. induction u; simpl; congruence. Qed.

Lemma unorm_fixed u :
  Decimal.unorm u = u -> u = Decimal.zero \/ leading u = true.
Proof.
  destruct u; simpl; auto.
  unfold Decimal.unorm. simpl Decimal.nzhead.
  destruct (Decimal.nzhead u) as [|v|v|v|v|v|v|v|v|v|v] eqn:Hn;
    intros Heq; try discriminate Heq.
  - left. by symmetry.
  - by destruct (nzhead_not_D0 u v).
Qed.

Lemma length_bytes_of_uint u :
  N.of_nat (length (bytes_of_uint u)) = DecimalPos.Unsigned.usize u.
Proof. induction u; simpl; lia. Qed.

Lemma length_decimal n w :
  (1 <= w)%nat ->
  (length (decimal n) <= w)%nat <-> (n < 10 ^ N.of_nat w)%N.
Proof.
  intros Hw. unfold decimal. set (u := N.to_uint n).
  assert (N.of_uint u = n) as Hn by apply DecimalN.Unsigned.of_to.
  assert (Decimal.unorm u = u) as Hu.
  { unfold u at 2. rewrite <- Hn at 1. by rewrite DecimalN.Unsigned.to_of. }
  pose proof (length_bytes_of_uint u) as Hlen.
  pose proof (of_uint_upper u) as Hup.
  split.
  - intros Hle. rewrite <- Hn.
    eapply N.lt_le_trans; [exact Hup|]. apply N.pow_le_mono_r; lia.
  - intros Hlt. destruct (unorm_fixed u Hu) as [Hz|Hlead].
    + rewrite Hz. simpl. lia.
    + pose proof (of_uint_lower u Hlead) as Hlow.
      destruct (decide (length (bytes_of_uint u) <= w)%nat); [done|].
      exfalso. rewrite Hn in Hlow.
      assert (10 ^ N.of_nat w <= 10 ^ (DecimalPos.Unsigned.usize u - 1))%N.
      { apply N.pow_le_mono_r; lia. }
      lia.
Qed.

Lemma format_0d_fits n w :
  0 <= n -> (1 <= w)%nat ->
  length (format_0d n w) = w <-> n < 10 ^ Z.of_nat w.
Proof.
  intros Hn Hw. unfold format_0d.
  destruct (Z.ltb_spec n 0); [lia|]. unfold zfill.
  rewrite length_app, length_replicate.
  pose proof (length_decimal (Z.to_N n) w Hw) as Hd.
  assert ((Z.to_N n < 10 ^ N.of_nat w)%N <-> n < 10 ^ Z.of_nat w) as <-.
  { rewrite <- (Z2N.id n) at 2 by done.
    rewrite <- nat_N_Z.
    change 10 with (Z.of_N 10). rewrite <- N2Z.inj_pow. lia. }
  rewrite <- Hd. lia.
Qed.

(** X3.  [set_current] on a legal file, for an offset that is not
    negative: with a lease that differs from the root on file it raises
    ConcurrencyError; otherwise, when the offset has at most
    [DEFAULT_HEADER] digits, it returns, [get_current] then returns the
    offset, the records behind the header are untouched and the file is
    legal; an offset with more digits raises AssertionError.  When it
    raises, the file is as it was. *)
Theorem set_current_then_get_current s offset lease :
  legal s -> 0 <= offset ->
  exists current,
    fst (Storage_get_current s) = Return current
    /\ let '(r, s') := Storage_set_current offset lease s in
       if lease_fails lease current
       then r = Raise ConcurrencyError /\ content s' = content s
       else if offset <? 10 ^ Z.of_nat DEFAULT_HEADER
       then r = Return tt
            /\ fst (Storage_get_current s') = Return offset
            /\ drop records_start (content s')
               = drop records_start (content s)
            /\ legal s'
       else r = Raise AssertionError /\ content s' = content s.
Proof.
  intros Hs Hpos.
  destruct (legal_laid_out s Hs) as (digits & records & Hl & Hc & Hlen & Hd & Hr).
  pose proof (is_digit_not_NL _ Hd) as Hn.
  assert (root_digits_ok digits = true) as Hok
    by (unfold root_digits_ok; rewrite Hd, Hlen; reflexivity).
  rewrite file_of_header in Hc.
  exists (decimal_value digits). split.
  { destruct (get_current_spec s digits _ Hl Hc Hn) as (p' & ->).
    by rewrite Hok. }
  destruct (Storage_set_current offset lease s) as [r s'] eqn:Hrun.
  destruct (set_current_spec offset lease s digits _ Hl Hc Hn)
    as (p' & q' & Hspec).
  assert (Storage_set_current offset lease s = (r, s')) as Hrun' by done.
  rewrite Hspec, Hok in Hrun. cbn [negb] in Hrun.
  destruct (lease_fails lease (decimal_value digits)).
  { by injection Hrun as <- <-. }
  rewrite Hlen in Hrun.
  pose proof (format_0d_fits offset DEFAULT_HEADER Hpos ltac:(unfold DEFAULT_HEADER; lia))
    as Hfits.
  destruct (Z.ltb_spec offset (10 ^ Z.of_nat DEFAULT_HEADER)) as [Hlt|Hge].
  - apply Hfits in Hlt. rewrite Hlt, Nat.eqb_refl in Hrun.
    injection Hrun as <- <-. split; [done|].
    destruct (format_0d_value offset DEFAULT_HEADER Hpos Hlt) as [Hfd Hval].
    split; [|split].
    + match goal with |- fst (Storage_get_current ?s2) = _ =>
        destruct (get_current_spec s2 (format_0d offset DEFAULT_HEADER)
                    (join_lines (map (cons TAB) records)))
          as (p2 & ->); [done|reflexivity|by apply is_digit_not_NL|] end.
      unfold root_digits_ok. rewrite Hfd, Hlt, Hval. reflexivity.
    + simpl content. rewrite Hc. unfold records_start, root_start.
      assert (forall d : list byte, length d = DEFAULT_HEADER ->
                drop (length IDENTIFIER + 1 + DEFAULT_HEADER + 1)
                  (IDENTIFIER ++ [NL] ++ d ++ [NL]
                     ++ join_lines (map (cons TAB) records))
                = join_lines (map (cons TAB) records)) as Hdrop.
      { intros d Hd'. rewrite !app_assoc. apply drop_app_length'.
        rewrite !length_app. simpl. lia. }
      etrans; [exact (Hdrop _ Hlt)|]. symmetry. exact (Hdrop _ Hlen).
    + eapply legal_set_current; [exact Hs|exact Hpos|].
      rewrite Hrun'. done.
  - destruct (Nat.eqb_spec (length (format_0d offset DEFAULT_HEADER))
                DEFAULT_HEADER) as [Heq|Hne].
    + apply Hfits in Heq. lia.
    + by injection Hrun as <- <-.
Qed.

(** *** The lock *)


#[local] Instance same_flags_preorder : PreOrder same_flags.
Proof.
  split; [done|]. intros s1 s2 s3 [? ?] [? ?]. split; congruence.
Qed.

Lemma preserves_f_seek offset : preserves same_flags (f_seek offset).
Proof. intros s r s'. unfold f_seek. destruct (offset <? 0); by intros [= _ <-]. Qed.

Lemma preserves_f_read n : preserves same_flags (f_read n).
Proof. by intros s r s' [= _ <-]. Qed.

Lemma preserves_f_readline : preserves same_flags f_readline.
Proof. by intros s r s' [= _ <-]. Qed.

Lemma preserves_f_write data : preserves same_flags (f_write data).
Proof. by intros s r s' [= _ <-]. Qed.

Lemma preserves_f_tell : preserves same_flags f_tell.
Proof. by intros s r s' [= _ <-]. Qed.

Lemma preserves_f_seek_end : preserves same_flags f_seek_end.
Proof. by intros s r s' [= _ <-]. Qed.

Lemma preserves_getline_loop fuel : forall buffer,
  preserves same_flags (getline_loop fuel buffer).
Proof.
  induction fuel as [|fuel IH]; intros buffer; simpl.
  - by intros s r s' [= _ <-].
  - apply preserves_bind; [apply _|apply preserves_f_read|]. intros data.
    destruct data; [destruct buffer|]; repeat preserves_step. apply IH.
Qed.

Lemma preserves_getline buffer :
  preserves same_flags (Storage__getline buffer).
Proof.
  unfold Storage__getline. preserves_step; [preserves_step|].
  intros s r s'. apply preserves_getline_loop.
Qed.

Lemma preserves_parse line :
  preserves same_flags (Storage__parse_current_offset line).
Proof.
  unfold Storage__parse_current_offset.
  destruct line as [[|c line]|]; try preserves_step.
  - preserves_step.
  - unfold int. destruct (strip _); [preserves_step|].
    destruct (uint_of_bytes _); preserves_step.
Qed.

Lemma preserves_scan_loop fuel : preserves same_flags (scan_loop fuel).
Proof.
  induction fuel as [|fuel IH]; simpl.
  - by intros s r s' [= _ <-].
  - apply preserves_bind; [apply _|apply preserves_f_readline|]. intros line.
    destruct line; [preserves_step|]. repeat preserves_step. apply IH.
Qed.

(** With the body keeping the flags, [__lock] leaves the lock free. *)
Lemma lock_released {A} write (body : eff Storage A) s :
  preserves same_flags body -> locked s = false ->
  locked (snd (Storage___lock write body s)) = false
  /\ lockable (snd (Storage___lock write body s)) = lockable s.
Proof.
  intros Hb Hl. unfold Storage___lock. rewrite Hl.
  destruct (lockable s) eqn:Hk.
  - destruct (body (set_locked true s)) as [r s'] eqn:Hrun.
    destruct (Hb _ _ _ Hrun) as [_ Hk']. simpl in *. by rewrite Hk'.
  - destruct (body s) as [r s'] eqn:Hrun.
    destruct (Hb _ _ _ Hrun) as [Hl' Hk']. simpl. split; congruence.
Qed.

Lemma preserves_subscript line : preserves same_flags (subscript line).
Proof. unfold subscript. destruct line; preserves_step. Qed.

Lemma preserves_attribute line : preserves same_flags (attribute line).
Proof. unfold attribute. destruct line; preserves_step. Qed.

Ltac flags_step :=
  first [ apply preserves_subscript | apply preserves_attribute
        | apply preserves_f_seek | apply preserves_f_read
        | apply preserves_f_readline | apply preserves_f_write
        | apply preserves_f_tell | apply preserves_f_seek_end
        | apply preserves_getline | apply preserves_parse
        | preserves_step ].

Lemma store_body_flags record :
  preserves same_flags
    (let* _ := f_seek_end in
     let* pos := f_tell in
     let* _ := assert (2 <=? pos) in
     let* _ := assert (negb (byte_in TAB record)) in
     let* _ := assert (negb (byte_in NL record)) in
     let* _ := f_write ([TAB] ++ record ++ [NL]) in
     ret pos).
Proof. repeat flags_step. Qed.

(** X4.  The lock is given back: started with the lock free, [store],
    [set_current], [get_current], [scan] and [load] leave it free,
    whether they return or raise, and leave the flag that tells whether
    the file can be locked as it was.  Started with the lock held, as
    inside another operation of the same storage, the four operations
    that take the lock raise AssertionError and [store] and [set_current]
    write nothing. *)
Theorem lock_is_released s :
  (locked s = false ->
   forall record offset lease,
     same_flags s (snd (Storage_store record s))
     /\ same_flags s (snd (Storage_set_current offset lease s))
     /\ same_flags s (snd (Storage_get_current s))
     /\ same_flags s (snd (Storage_scan s))
     /\ same_flags s (snd (Storage_load offset s)))
  /\ (locked s = true ->
      forall record offset lease,
        fst (Storage_store record s) = Raise AssertionError
        /\ fst (Storage_set_current offset lease s) = Raise AssertionError
        /\ fst (Storage_get_current s) = Raise AssertionError
        /\ fst (Storage_scan s) = Raise AssertionError
        /\ content (snd (Storage_store record s)) = content s
        /\ content (snd (Storage_set_current offset lease s)) = content s).
Proof.
  split.
  - intros Hl record offset lease.
    assert (forall {A} write (body : eff Storage A) s0,
              preserves same_flags body -> same_flags s s0 ->
              same_flags s (snd (Storage___lock write body s0))) as Hlock.
    { intros A write body s0 Hb [Hl0 Hk0].
      destruct (lock_released write body s0 Hb) as [? ?]; [congruence|].
      split; congruence. }
    assert (same_flags s (set_position (Z.to_nat 0) s)) as H0 by done.
    split; [|split; [|split; [|split]]].
    + apply Hlock; [apply store_body_flags|done].
    + unfold Storage_set_current, bind at 1, f_seek.
      change (0 <? 0) with false. cbv iota.
      apply Hlock; [|done]. repeat flags_step.
    + unfold Storage_get_current, bind at 1, f_seek.
      change (0 <? 0) with false. cbv iota.
      unfold bind at 1.
      match goal with |- context [Storage___lock ?w ?b ?s0] =>
        pose proof (Hlock _ w b s0) as Hb;
        destruct (Storage___lock w b s0) as [[line| |] s1] end;
        simpl in *.
      * destruct (Storage__parse_current_offset line s1) as [r s2] eqn:Hp.
        pose proof (preserves_parse line _ _ _ Hp). simpl.
        etrans; [apply Hb; [repeat flags_step|done]|done].
      * apply Hb; [repeat flags_step|done].
      * apply Hb; [repeat flags_step|done].
    + unfold Storage_scan, bind at 1, f_seek.
      change (0 <? 0) with false. cbv iota.
      apply Hlock; [|done]. repeat flags_step.
      intros s0 r s'. apply preserves_scan_loop.
    + destruct (Storage_load offset s) as [r s'] eqn:Hrun. simpl.
      revert Hrun. generalize s r s'.
      change (preserves same_flags (Storage_load offset)).
      unfold Storage_load. repeat flags_step.
  - intros Hl record offset lease.
    unfold Storage_store, Storage_set_current, Storage_get_current,
      Storage_scan, bind, f_seek, Storage___lock. simpl. rewrite Hl.
    by repeat split.
Qed.

(** *** Modified items have modified parents *)

Lemma dirtied_item w w' a it :
  dirtied w w' -> items w !! a = Some it ->
  exists it', items w' !! a = Some it'
    /\ i_body it' = i_body it /\ i_link it' = i_link it
    /\ (i_offset it = None -> i_offset it' = None).
Proof.
  intros Hd Ha. destruct (dirtied_lookup _ _ _ _ Hd Ha) as (it' & Ha' & [-> | ->]).
  - by exists it.
  - eexists. split; [done|]. done.
Qed.

Lemma dirtied_item_rev w w' a it' :
  dirtied w w' -> items w' !! a = Some it' ->
  exists it, items w !! a = Some it
    /\ i_link it' = i_link it
    /\ (it' = it \/ it' = with_offset None it).
Proof.
  intros (_&_&_&_&_&_&HF) Ha.
  destruct (Forall2_lookup_r _ _ _ _ _ HF Ha) as (it & ? & [-> | ->]);
    exists it; repeat split; auto.
Qed.

(** One item [x] may be waiting for its parent [a] to be marked. *)
Lemma changed_clears fuel a w w' :
  Item__changed fuel a w = (Return tt, w') ->
  exists it', items w' !! a = Some it' /\ i_offset it' = None.
Proof.
  destruct fuel as [|fuel]; [done|]. simpl.
  unfold bind at 1, read_item.
  destruct (items w !! a) as [it|] eqn:Ha; [|done].
  destruct (i_offset it) as [o|] eqn:Ho.
  2:{ intros [= <-]. by exists it. }
  rewrite (run_bind _ _ _ _ _ (run_update_item _ _ _ _ Ha)).
  set (w3 := set_items _ w). intros Hch.
  assert (items w3 !! a = Some (with_offset None it)) as Ha3.
  { simpl. apply list_lookup_insert_eq. by eapply lookup_lt_Some. }
  assert (dirtied w3 w') as Hd3.
  { revert Hch. generalize w3 (Return tt : outcome unit) w'.
    change (preserves dirtied
              match i_link it with
              | Some l =>
                  match l_parent l with
                  | OStore => assert (String.eqb (l_key l) ROOT)
                  | ONode p => Item__changed fuel p
                  end
              | None => ret tt
              end).
    repeat preserves_step. apply preserves_changed. }
  destruct (dirtied_item _ _ _ _ Hd3 Ha3) as (it3 & Ha3' & _ & _ & Ho3).
  exists it3. split; [done|]. by apply Ho3.
Qed.

Section NodeFacts.
Context `{Json}.

Lemma Node_set_spec fuel a key value w w' :
  Node_set fuel a key value w = (Return tt, w') ->
  Node_get a key w' = (Return value, w')
  /\ (exists it es it' es',
        items w !! a = Some it /\ i_body it = BNode es
        /\ items w' !! a = Some it' /\ i_body it' = BNode es'
        /\ i_offset it' = None
        /\ (forall k, k <> key -> es' !! k = es !! k))
  /\ (exists v0 v, items w !! value = Some v0 /\ items w' !! value = Some v
        /\ i_link v = Some (mkLink (ONode a) key)
        /\ (a <> value -> i_body v = i_body v0))
  /\ trees w' = trees w /\ storage w' = storage w.
Proof.
  unfold Node_set. unfold bind at 1, read_item.
  destruct (items w !! a) as [it|] eqn:Ha; [|done].
  unfold bind at 1, entries_of.
  destruct (i_body it) as [|es] eqn:Hb; [done|]. unfold ret at 1.
  unfold bind at 1, Item__attach. unfold bind at 1, read_item.
  destruct (items w !! value) as [v0|] eqn:Hv; [|done].
  destruct (i_link v0) eqn:Hlink; [done|].
  unfold update_item. rewrite Hv.
  set (l := mkLink (ONode a) key).
  set (w1 := set_items (<[value := with_link (Some l) v0]> (items w)) w).
  assert (value < length (items w))%nat as Hvlt by by eapply lookup_lt_Some.
  assert (a < length (items w))%nat as Halt by by eapply lookup_lt_Some.
  assert (items w1 !! value = Some (with_link (Some l) v0)) as Hv1
    by (simpl; by apply list_lookup_insert_eq).
  unfold bind at 1, read_item. rewrite Hv1.
  unfold bind at 1, get_state.
  set (e := match i_offset (with_link (Some l) v0) with
            | Some o => if i_store it && volatile w1 then ETuple o (Some value)
                        else EItem value
            | None => EItem value
            end).
  assert (exists it1, items w1 !! a = Some it1 /\ i_body it1 = BNode es)
    as (it1 & Ha1 & Hb1).
  { simpl. destruct (decide (a = value)) as [->|Hne].
    - rewrite list_lookup_insert_eq by done. eexists. split; [done|].
      rewrite Ha in Hv. by injection Hv as <-.
    - rewrite list_lookup_insert_ne by done. by exists it. }
  unfold bind at 1, set_entry, update_item. rewrite Ha1, Hb1.
  set (w2 := set_items _ w1).
  assert (items w2 !! a = Some (with_body (BNode (<[key:=e]> es)) it1)) as Ha2.
  { simpl. apply list_lookup_insert_eq. by rewrite length_insert. }
  assert (exists v2, items w2 !! value = Some v2 /\ i_link v2 = Some l
                     /\ (a <> value -> i_body v2 = i_body v0))
    as (v2 & Hv2 & Hl2 & Hbv2).
  { destruct (decide (a = value)) as [->|Hne].
    - eexists. split; [exact Ha2|]. simpl.
      rewrite Hv1 in Ha1. injection Ha1 as <-. by split.
    - simpl. rewrite list_lookup_insert_ne by done.
      rewrite list_lookup_insert_eq by done. by eexists. }
  intros Hch.
  pose proof (preserves_changed fuel a _ _ _ Hch) as Hd.
  destruct (dirtied_item _ _ _ _ Hd Ha2) as (it' & Ha' & Hb' & _ & _).
  destruct (dirtied_item _ _ _ _ Hd Hv2) as (v' & Hv' & Hbv' & Hl' & _).
  assert (i_offset it' = None) as Ho'.
  { destruct (changed_clears _ _ _ _ Hch) as (it3 & Ha3 & Ho3).
    rewrite Ha' in Ha3. by injection Ha3 as <-. }
  split; [|split; [|split; [|split]]].
  - unfold Node_get. rewrite (run_bind _ _ _ _ _ (run_read_item _ _ _ Ha')).
    unfold entries_of. rewrite Hb'. simpl i_body.
    unfold bind, ret. rewrite lookup_insert_eq.
    unfold e. destruct (i_offset _); [destruct (_ && _)|]; done.
  - exists it, es, it', (<[key:=e]> es). repeat split; try done.
    intros k Hk. by rewrite lookup_insert_ne.
  - exists v0, v'. split; [done|]. split; [done|]. split; [by rewrite Hl'|].
    intros Hne. rewrite Hbv'. by apply Hbv2.
  - by destruct Hd as (_ & _ & _ & _ & -> & _).
  - by destruct Hd as (-> & _).
Qed.



Lemma Node_remove_spec fuel a key w c w' :
  Node_remove fuel a key w = (Return c, w') ->
  Node_get a key w' = (Raise KeyError, w')
  /\ (exists itc, items w' !! c = Some itc /\ i_link itc = None)
  /\ (exists it', items w' !! a = Some it' /\ i_offset it' = None)
  /\ trees w' = trees w.
Proof.
  - unfold Node_remove. unfold bind at 1.
    destruct (Node_get a key w) as [rg w1] eqn:Hget.
    destruct (Node_get_loads _ _ _ _ _ Hget) as (Hl & Htr1 & _ & _).
    destruct rg as [c0| |]; [|done..].
    assert (exists it1 es1, items w1 !! a = Some it1 /\ i_body it1 = BNode es1)
      as (it1 & es1 & Ha1 & Hb1).
    { revert Hget. unfold Node_get. unfold bind at 1, read_item.
      destruct (items w !! a) as [it|] eqn:Ha; [|done].
      unfold bind at 1, entries_of.
      destruct (i_body it) as [|es] eqn:Hb; [done|]. intros _.
      destruct Hl as (_ & _ & _ & Hi & _).
      destruct (Hi _ _ Ha) as (it1 & Ha1 & _ & _ & _ & Hbody).
      rewrite Hb in Hbody. destruct (i_body it1) as [|es1] eqn:Hb1; [done|].
      by exists it1, es1. }
    unfold bind at 1, Item__detach. unfold bind at 1, read_item.
    destruct (items w1 !! c0) as [itc|] eqn:Hc; [|done].
    destruct (i_link itc) eqn:Hlink; [|done].
    unfold update_item. rewrite Hc.
    set (w2 := set_items (<[c0 := with_link None itc]> (items w1)) w1).
    assert (c0 < length (items w1))%nat as Hclt by by eapply lookup_lt_Some.
    assert (a < length (items w1))%nat as Halt by by eapply lookup_lt_Some.
    assert (exists it2, items w2 !! a = Some it2 /\ i_body it2 = BNode es1)
      as (it2 & Ha2 & Hb2).
    { simpl. destruct (decide (a = c0)) as [->|Hne].
      - rewrite list_lookup_insert_eq by done. eexists. split; [done|].
        rewrite Ha1 in Hc. by injection Hc as <-.
      - rewrite list_lookup_insert_ne by done. by exists it1. }
    unfold bind at 1, del_entry, update_item. rewrite Ha2, Hb2.
    set (w3 := set_items _ w2).
    assert (items w3 !! a = Some (with_body (BNode (delete key es1)) it2))
      as Ha3.
    { simpl. apply list_lookup_insert_eq. by rewrite length_insert. }
    assert (exists c3, items w3 !! c0 = Some c3 /\ i_link c3 = None)
      as (c3 & Hc3 & Hl3).
    { destruct (decide (a = c0)) as [<-|Hne].
      - eexists. split; [exact Ha3|]. simpl.
        simpl in Ha2. rewrite list_lookup_insert_eq in Ha2 by done.
        by injection Ha2 as <-.
      - simpl. rewrite list_lookup_insert_ne by done.
        rewrite list_lookup_insert_eq by done. by eexists. }
    unfold bind at 1.
    destruct (Item__changed fuel a _) as [[[]| |] w4] eqn:Hch; [|done..].
    change (Item__changed fuel a w3 = (Return tt, w4)) in Hch.
    unfold ret. intros [= <- <-].
    pose proof (preserves_changed fuel a _ _ _ Hch) as Hd.
    destruct (dirtied_item _ _ _ _ Hd Ha3) as (it' & Ha' & Hb' & _ & _).
    destruct (dirtied_item _ _ _ _ Hd Hc3) as (c' & Hc' & _ & Hl' & _).
    destruct (changed_clears _ _ _ _ Hch) as (it4 & Ha4 & Ho4).
    split; [|split; [|split]].
    + unfold Node_get.
      rewrite (run_bind _ _ _ _ _ (run_read_item _ _ _ Ha')).
      unfold entries_of. rewrite Hb'. simpl i_body.
      unfold bind, ret. by rewrite lookup_delete_eq.
    + exists c'. split; [done|]. by rewrite Hl'.
    + by exists it4.
    + destruct Hd as (_ & _ & _ & _ & -> & _). done.
Qed.

(** X6.  [n.remove(key)] raises KeyError for a key that [n] does not
    have and then changes nothing; when it returns the child [c], the
    key is gone ([n.get(key)] raises KeyError), [c] is detached and [n]
    is modified. *)
Theorem Node_remove_then_get fuel a key w :
  (forall it es,
     items w !! a = Some it -> i_body it = BNode es -> es !! key = None ->
     Node_remove fuel a key w = (Raise KeyError, w))
  /\ (forall c w',
        Node_remove fuel a key w = (Return c, w') ->
        Node_get a key w' = (Raise KeyError, w')
        /\ (exists itc, items w' !! c = Some itc /\ i_link itc = None)
        /\ (exists it', items w' !! a = Some it' /\ i_offset it' = None)).
Proof.
  split.
  - intros it es Ha Hb Hk. unfold Node_remove, Node_get.
    unfold bind at 1. rewrite (run_bind _ _ _ _ _ (run_read_item _ _ _ Ha)).
    unfold entries_of. rewrite Hb. unfold bind at 1, ret at 1. by rewrite Hk.
  - intros c w' Hrun.
    destruct (Node_remove_spec _ _ _ _ _ _ Hrun) as (Hget & Hc & Ha & _).
    split; [exact Hget|]. split; [exact Hc|exact Ha].
Qed.

End NodeFacts.

(** One item [x] may be waiting for its parent [a] to be marked. *)
Lemma changed_closes fuel : forall a w w' x,
  Item__changed fuel a w = (Return tt, w') ->
  (forall b, b <> x -> parent_modified w b) ->
  (forall it p k,
     items w !! x = Some it -> i_offset it = None ->
     i_link it = Some (mkLink (ONode p) k) ->
     p = a \/ exists pit, items w !! p = Some pit /\ i_offset pit = None) ->
  parents_modified w'.
Proof.
  induction fuel as [|fuel IH]; intros a w w' x Hrun Hbase Hx; [done|].
  simpl in Hrun. revert Hrun.
  unfold bind at 1, read_item.
  destruct (items w !! a) as [it|] eqn:Ha; [|done].
  destruct (i_offset it) as [o|] eqn:Ho.
  - rewrite (run_bind _ _ _ _ _ (run_update_item _ _ _ _ Ha)).
    set (w1 := set_items (<[a := with_offset None it]> (items w)) w).
    assert (a < length (items w))%nat as Hlt by by eapply lookup_lt_Some.
    assert (forall b, items w1 !! b =
              if decide (b = a) then Some (with_offset None it)
              else items w !! b) as Hlook.
    { intros b. simpl. destruct (decide (b = a)) as [->|].
      - by apply list_lookup_insert_eq.
      - by apply list_lookup_insert_ne. }
    assert (forall p pit, items w !! p = Some pit -> i_offset pit = None ->
              exists pit', items w1 !! p = Some pit' /\ i_offset pit' = None)
      as Hkeep.
    { intros p pit Hp Hpo. rewrite Hlook. destruct (decide (p = a)) as [->|].
      - by eexists.
      - by exists pit. }
    assert (forall b, b <> a -> parent_modified w1 b) as Hothers.
    { intros b Hb itb p k. rewrite Hlook, decide_False by done.
      intros Hib Hob Hlb.
      destruct (decide (b = x)) as [->|Hbx].
      - destruct (Hx _ _ _ Hib Hob Hlb) as [->|(pit & Hp & Hpo)].
        + rewrite Hlook, decide_True by done. by eexists.
        + by eapply Hkeep.
      - destruct (Hbase b Hbx _ _ _ Hib Hob Hlb) as (pit & Hp & Hpo).
        by eapply Hkeep. }
    destruct (i_link it) as [[[|p] k]|] eqn:Hl; cbn [l_parent l_key].
    + unfold assert. destruct (String.eqb k ROOT); [|done]. intros [= <-].
      intros b. destruct (decide (b = a)) as [->|Hb]; [|by apply Hothers].
      intros itb p' k'. rewrite Hlook, decide_True by done.
      intros [= <-]. simpl. by rewrite Hl.
    + intros Hrun. apply (IH p w1 w' a Hrun Hothers).
      intros ita p' k'. rewrite Hlook, decide_True by done.
      intros [= <-] _. simpl. rewrite Hl. intros [= <- <-]. by left.
    + intros [= <-].
      intros b. destruct (decide (b = a)) as [->|Hb]; [|by apply Hothers].
      intros itb p' k'. rewrite Hlook, decide_True by done.
      intros [= <-]. simpl. by rewrite Hl.
  - intros [= <-] b.
    destruct (decide (b = x)) as [->|Hbx]; [|by apply Hbase].
    intros itx p k Hix Hox Hlx.
    destruct (Hx _ _ _ Hix Hox Hlx) as [->|?]; [by exists it|done].
Qed.

Lemma rooted_dirtied w w' a d : dirtied w w' -> rooted w a d -> rooted w' a d.
Proof.
  intros Hd. induction 1 as [a it Ha Hl|a it Ha Hl|a it p k d Ha Hl _ IH];
    destruct (dirtied_item _ _ _ _ Hd Ha) as (it' & Ha' & _ & Hl' & _);
    rewrite <- Hl' in Hl.
  - by eapply rooted_detached.
  - by eapply rooted_store.
  - by eapply rooted_child.
Qed.

Lemma changed_returns w a d :
  rooted w a d -> forall fuel, (d < fuel)%nat ->
  exists w', Item__changed fuel a w = (Return tt, w').
Proof.
  intros Hr fuel. revert w a Hr fuel.
  induction d as [|d IH]; intros w a Hr fuel Hf;
    (destruct fuel as [|fuel]; [lia|]); simpl;
    inversion Hr as [a0 it Ha Hl|a0 it Ha Hl|a0 it p k d0 Ha Hl Hp]; subst;
    rewrite (run_bind _ _ _ _ _ (run_read_item _ _ _ Ha));
    (destruct (i_offset it); [|by eexists]);
    rewrite (run_bind _ _ _ _ _ (run_update_item _ _ _ _ Ha)), Hl;
    cbn [l_parent l_key]; try (by eexists).
  apply IH; [|lia]. eapply rooted_dirtied; [|done].
  repeat split; simpl; try done.
  apply Forall2_same_length_lookup_2; [by rewrite length_insert|].
  intros i x y Hx. destruct (decide (i = a)) as [->|].
  - rewrite list_lookup_insert_eq by by eapply lookup_lt_Some.
    intros [= <-]. rewrite Ha in Hx. injection Hx as <-. by right.
  - rewrite list_lookup_insert_ne by done. intros Hy. left. congruence.
Qed.

Section Marking.
Context `{Json}.

Lemma load_item_clean offset w c w' :
  Store__load offset w = (Return c, w') ->
  c = length (items w)
  /\ exists bd, items w' = items w ++ [mkItem None true (Some offset) bd].
Proof.
  unfold Store__load. unfold bind at 1, on_storage.
  destruct (Storage_load offset (storage w)) as [[record| |] s1]; [|done..].
  destruct (length record <? 2)%nat; [done|].
  unfold bind at 1.
  destruct (bytes_eqb _ _); [|destruct (bytes_eqb _ _)];
    unfold ret, raise; try done;
    (destruct (loads _) as [data|]; [|done]).
  - destruct data; try done. destruct (node_entries d); [|done].
    unfold new_item. intros [= <- <-]. simpl. split; [done|]. by eexists.
  - unfold new_item. intros [= <- <-]. simpl. split; [done|]. by eexists.
Qed.

Lemma Node_get_keeps_parents a key w r w' :
  Node_get a key w = (r, w') -> parents_modified w -> parents_modified w'.
Proof.
  unfold Node_get. unfold bind at 1, read_item.
  destruct (items w !! a) as [it|] eqn:Ha; [|by intros [= _ <-]].
  unfold bind at 1, entries_of.
  destruct (i_body it) as [|es] eqn:Hb; [by intros [= _ <-]|].
  unfold ret at 1.
  destruct (es !! key) as [[o [c|]|c]|] eqn:Hk; try (by intros [= _ <-]).
  destruct (negb (i_store it)); [by intros [= _ <-]|].
  unfold bind at 1.
  destruct (Store__load o w) as [r1 w1] eqn:Hload.
  destruct (load_adds_item _ _ _ _ Hload)
    as (Hd & Hke & Hc1 & Hs1 & Ht1 & Hv1 & Hr1 & Hcr1 & Hitems).
  destruct r1 as [c|e|].
  2,3: intros [= _ <-] Hpm b itb p k; rewrite Hitems; apply Hpm.
  destruct (load_item_clean _ _ _ _ Hload) as (-> & bd & Hi1).
  clear Hitems.
  set (c := length (items w)) in *.
  set (itc := mkItem None true (Some o) bd) in *.
  assert (a < length (items w))%nat as Hlt by by eapply lookup_lt_Some.
  assert (items w1 !! c = Some itc) as Hc
    by (rewrite Hi1; by apply list_lookup_middle).
  set (w2 := set_items
               (<[c := with_link (Some (mkLink (ONode a) key)) itc]>
                  (items w1)) w1).
  assert (items w2 !! a = Some it) as Ha2.
  { simpl. rewrite list_lookup_insert_ne by (unfold c; lia).
    rewrite Hi1. by rewrite lookup_app_l. }
  erewrite (run_bind (Item__attach _ _) _ _ tt w2).
  2:{ unfold Item__attach.
      rewrite (run_bind _ _ _ _ _ (run_read_item _ _ _ Hc)).
      exact (run_update_item _ _ _ _ Hc). }
  rewrite (run_bind _ _ _ w2 w2) by done.
  unfold set_entry.
  rewrite (run_bind _ _ _ _ _ (run_update_item _ _ _ _ Ha2)). rewrite Hb.
  intros [= _ <-] Hpm.
  assert (forall b itb,
            items (set_items
                     (<[a:=with_body
                             (BNode (<[key:=if volatile w2
                                            then ETuple o (Some c)
                                            else EItem c]> es)) it]>
                        (items w2)) w2) !! b = Some itb ->
            (b = c /\ i_offset itb = Some o)
            \/ (exists itb0, items w !! b = Some itb0
                  /\ i_offset itb = i_offset itb0
                  /\ i_link itb = i_link itb0)) as Hold.
  { intros b itb. simpl.
    destruct (decide (b = a)) as [->|Hba].
    - rewrite list_lookup_insert_eq
        by (rewrite length_insert, Hi1, length_app; lia).
      intros [= <-]. right. by exists it.
    - rewrite list_lookup_insert_ne by done.
      destruct (decide (b = c)) as [->|Hbc].
      + rewrite list_lookup_insert_eq
          by (rewrite Hi1, length_app; simpl; unfold c; lia).
        intros [= <-]. by left.
      + rewrite list_lookup_insert_ne by done. rewrite Hi1.
        intros Hb'. right. exists itb. split; [|done].
        apply lookup_app_Some in Hb' as [?|[Hge Hb']]; [done|].
        apply list_lookup_singleton_Some in Hb' as [? _].
        unfold c in Hbc. lia. }
  intros b itb p k Hib Hob Hlb.
  destruct (Hold _ _ Hib) as [[_ Ho]|(itb0 & Hib0 & Ho0 & Hl0)];
    [congruence|].
  rewrite Ho0 in Hob. rewrite Hl0 in Hlb.
  destruct (Hpm b _ _ _ Hib0 Hob Hlb) as (pit & Hp & Hpo).
  assert (p < length (items w))%nat as Hplt by by eapply lookup_lt_Some.
  simpl. destruct (decide (p = a)) as [->|Hpa].
  - rewrite list_lookup_insert_eq
      by (rewrite length_insert, Hi1, length_app; lia).
    eexists. split; [done|]. simpl. rewrite Ha in Hp. by injection Hp as <-.
  - rewrite list_lookup_insert_ne by done.
    rewrite list_lookup_insert_ne by (unfold c; lia).
    rewrite Hi1, lookup_app_l by done. by exists pit.
Qed.

(** X7.  In a store where every modified item that is attached to a
    node has a modified parent, [_changed], [Node.set] and [Node.remove]
    keep it so when they return, and [_changed] leaves its item modified:
    the modified items are found from the root through modified items
    only, which is what [_persist] relies on.  [_changed] returns when
    the chain of links above the item ends, within the recursion limit,
    at a detached item or at the root of the store. *)
Theorem modifications_mark_the_parents w :
  parents_modified w ->
  (forall fuel a w',
     Item__changed fuel a w = (Return tt, w') ->
     parents_modified w'
     /\ exists it', items w' !! a = Some it' /\ i_offset it' = None)
  /\ (forall fuel a key value w',
        Node_set fuel a key value w = (Return tt, w') ->
        parents_modified w')
  /\ (forall fuel a key c w',
        Node_remove fuel a key w = (Return c, w') ->
        parents_modified w')
  /\ (forall fuel a d,
        rooted w a d -> (d < fuel)%nat ->
        exists w', Item__changed fuel a w = (Return tt, w')).
Proof.
  intros Hpm. split; [|split; [|split]].
  - intros fuel a w' Hrun. split.
    + apply (changed_closes fuel a w w' a Hrun); [intros b _; apply Hpm|].
      intros it p k Hi Ho Hl. right. by eapply Hpm.
    + by eapply changed_clears.
  - intros fuel a key value w'. unfold Node_set.
    unfold bind at 1, read_item.
    destruct (items w !! a) as [it|] eqn:Ha; [|done].
    unfold bind at 1, entries_of.
    destruct (i_body it) as [|es] eqn:Hb; [done|]. unfold ret at 1.
    unfold bind at 1, Item__attach. unfold bind at 1, read_item.
    destruct (items w !! value) as [v0|] eqn:Hv; [|done].
    destruct (i_link v0) eqn:Hlink; [done|].
    unfold update_item. rewrite Hv.
    set (l := mkLink (ONode a) key).
    set (w1 := set_items (<[value := with_link (Some l) v0]> (items w)) w).
    assert (value < length (items w))%nat as Hvlt by by eapply lookup_lt_Some.
    assert (a < length (items w))%nat as Halt by by eapply lookup_lt_Some.
    assert (items w1 !! value = Some (with_link (Some l) v0)) as Hv1
      by (simpl; by apply list_lookup_insert_eq).
    unfold bind at 1, read_item. rewrite Hv1.
    unfold bind at 1, get_state.
    match goal with |- context [set_entry a key ?e0] => set (e := e0) end.
    assert (exists it1, items w1 !! a = Some it1 /\ i_body it1 = BNode es)
      as (it1 & Ha1 & Hb1).
    { simpl. destruct (decide (a = value)) as [->|Hne].
      - rewrite list_lookup_insert_eq by done. eexists. split; [done|].
        rewrite Ha in Hv. by injection Hv as <-.
      - rewrite list_lookup_insert_ne by done. by exists it. }
    unfold bind at 1, set_entry, update_item. rewrite Ha1, Hb1.
    set (w2 := set_items _ w1). intros Hch.
    assert (forall b itb, items w2 !! b = Some itb ->
              exists itb0, items w !! b = Some itb0
                /\ i_offset itb = i_offset itb0
                /\ (b <> value -> i_link itb = i_link itb0)
                /\ (b = value -> i_link itb = Some l)) as Hold.
    { intros b itb. simpl.
      destruct (decide (b = a)) as [->|Hba].
      - rewrite list_lookup_insert_eq by by rewrite length_insert.
        intros [= <-]. simpl in Ha1.
        destruct (decide (a = value)) as [->|Hav].
        + rewrite list_lookup_insert_eq in Ha1 by done.
          injection Ha1 as <-. exists v0. by repeat split.
        + rewrite list_lookup_insert_ne in Ha1 by done.
          rewrite Ha in Ha1. injection Ha1 as <-. exists it. by repeat split.
      - rewrite list_lookup_insert_ne by done.
        destruct (decide (b = value)) as [->|Hbv].
        + rewrite list_lookup_insert_eq by done. intros [= <-].
          exists v0. by repeat split.
        + rewrite list_lookup_insert_ne by done. intros Hb0.
          exists itb. by repeat split. }
    assert (forall p pit, items w !! p = Some pit -> i_offset pit = None ->
              exists pit', items w2 !! p = Some pit' /\ i_offset pit' = None)
      as Hkeep.
    { intros p pit Hp Hpo. simpl.
      destruct (decide (p = a)) as [->|Hpa].
      - rewrite list_lookup_insert_eq by by rewrite length_insert.
        eexists. split; [done|]. simpl.
        simpl in Ha1. destruct (decide (a = value)) as [->|Hav].
        + rewrite list_lookup_insert_eq in Ha1 by done.
          injection Ha1 as <-. simpl. rewrite Hv in Hp. by injection Hp as <-.
        + rewrite list_lookup_insert_ne in Ha1 by done.
          rewrite Ha1 in Hp. by injection Hp as <-.
      - rewrite list_lookup_insert_ne by done.
        destruct (decide (p = value)) as [->|Hpv].
        + rewrite list_lookup_insert_eq by done.
          eexists. split; [done|]. simpl. rewrite Hv in Hp.
          by injection Hp as <-.
        + rewrite list_lookup_insert_ne by done. by exists pit. }
    apply (changed_closes fuel a w2 w' value Hch).
    + intros b Hbv itb p k Hib Hob Hlb.
      destruct (Hold _ _ Hib) as (itb0 & Hib0 & Ho0 & Hl0 & _).
      rewrite Ho0 in Hob. rewrite (Hl0 Hbv) in Hlb.
      destruct (Hpm b _ _ _ Hib0 Hob Hlb) as (pit & Hp & Hpo).
      by eapply Hkeep.
    + intros itv p k Hiv Hov Hlv.
      destruct (Hold _ _ Hiv) as (itb0 & _ & _ & _ & Hl0).
      rewrite (Hl0 eq_refl) in Hlv. injection Hlv as <- <-. by left.
  - intros fuel a key c w'. unfold Node_remove. unfold bind at 1.
    destruct (Node_get a key w) as [rg w1] eqn:Hget.
    pose proof (Node_get_keeps_parents _ _ _ _ _ Hget Hpm) as Hpm1.
    destruct rg as [c0| |]; [|done..].
    unfold bind at 1, Item__detach. unfold bind at 1, read_item.
    destruct (items w1 !! c0) as [itc|] eqn:Hc; [|done].
    destruct (i_link itc) eqn:Hlink; [|done].
    unfold update_item. rewrite Hc.
    set (w2 := set_items (<[c0 := with_link None itc]> (items w1)) w1).
    assert (c0 < length (items w1))%nat as Hclt by by eapply lookup_lt_Some.
    unfold bind at 1, del_entry, update_item.
    destruct (items w2 !! a) as [it2|] eqn:Ha2; [|done].
    set (f := fun it => match i_body it with
                        | BNode es => with_body (BNode (delete key es)) it
                        | BLeaf _ => it
                        end).
    set (w3 := set_items (<[a := f it2]> (items w2)) w2).
    assert (a < length (items w2))%nat as Halt by by eapply lookup_lt_Some.
    unfold bind at 1.
    destruct (Item__changed fuel a _) as [[[]| |] w4] eqn:Hch; [|done..].
    change (Item__changed fuel a w3 = (Return tt, w4)) in Hch.
    unfold ret. intros [= _ <-].
    assert (forall it, i_offset (f it) = i_offset it
                       /\ i_link (f it) = i_link it) as Hf.
    { intros it. unfold f. by destruct (i_body it). }
    assert (forall b itb, items w3 !! b = Some itb ->
              exists itb0, items w1 !! b = Some itb0
                /\ i_offset itb = i_offset itb0
                /\ (i_link itb = i_link itb0 \/ i_link itb = None)) as Hold.
    { intros b itb. simpl.
      destruct (decide (b = a)) as [->|Hba].
      - rewrite list_lookup_insert_eq by done. intros [= <-].
        destruct (Hf it2) as [-> ->]. simpl in Ha2.
        destruct (decide (a = c0)) as [->|Hac].
        + rewrite list_lookup_insert_eq in Ha2 by done.
          injection Ha2 as <-. exists itc. split; [done|]. split; [done|].
          by right.
        + rewrite list_lookup_insert_ne in Ha2 by done.
          exists it2. split; [done|]. split; [done|]. by left.
      - rewrite list_lookup_insert_ne by done.
        destruct (decide (b = c0)) as [->|Hbc].
        + rewrite list_lookup_insert_eq by done. intros [= <-].
          exists itc. split; [done|]. split; [done|]. by right.
        + rewrite list_lookup_insert_ne by done. intros Hb0.
          exists itb. split; [done|]. split; [done|]. by left. }
    assert (forall p pit, items w1 !! p = Some pit -> i_offset pit = None ->
              exists pit', items w3 !! p = Some pit' /\ i_offset pit' = None)
      as Hkeep.
    { intros p pit Hp Hpo. simpl.
      destruct (decide (p = a)) as [->|Hpa].
      - rewrite list_lookup_insert_eq by done.
        eexists. split; [done|]. destruct (Hf it2) as [-> _].
        simpl in Ha2. destruct (decide (a = c0)) as [->|Hac].
        + rewrite list_lookup_insert_eq in Ha2 by done.
          injection Ha2 as <-. simpl. rewrite Hc in Hp. by injection Hp as <-.
        + rewrite list_lookup_insert_ne in Ha2 by done.
          rewrite Ha2 in Hp. by injection Hp as <-.
      - rewrite list_lookup_insert_ne by done.
        destruct (decide (p = c0)) as [->|Hpc].
        + rewrite list_lookup_insert_eq by done.
          eexists. split; [done|]. simpl. rewrite Hc in Hp.
          by injection Hp as <-.
        + rewrite list_lookup_insert_ne by done. by exists pit. }
    apply (changed_closes fuel a w3 w4 a Hch).
    + intros b _ itb p k Hib Hob Hlb.
      destruct (Hold _ _ Hib) as (itb0 & Hib0 & Ho0 & [Hl0|Hl0]);
        [|congruence].
      rewrite Ho0 in Hob. rewrite Hl0 in Hlb.
      destruct (Hpm1 b _ _ _ Hib0 Hob Hlb) as (pit & Hp & Hpo).
      by eapply Hkeep.
    + intros ita p k Hia Hoa Hla. right.
      destruct (Hold _ _ Hia) as (itb0 & Hib0 & Ho0 & [Hl0|Hl0]);
        [|congruence].
      rewrite Ho0 in Hoa. rewrite Hl0 in Hla.
      destruct (Hpm1 a _ _ _ Hib0 Hoa Hla) as (pit & Hp & Hpo).
      by eapply Hkeep.
  - intros fuel a d Hr Hf. by eapply changed_returns.
Qed.

End Marking.

(** *** Sorted keys *)

Lemma insert_sorted_elem k x l : k ∈ insert_sorted x l <-> k = x \/ k ∈ l.
Proof.
  induction l as [|y l IH]; simpl.
  - rewrite list_elem_of_singleton, elem_of_nil. tauto.
  - destruct (String.leb x y); rewrite !elem_of_cons; [tauto|].
    rewrite IH. tauto.
Qed.

Lemma sorted_elem k l : k ∈ sorted l <-> k ∈ l.
Proof.
  induction l as [|x l IH]; simpl; [done|].
  rewrite insert_sorted_elem, elem_of_cons, IH. tauto.
Qed.

Lemma insert_sorted_NoDup x l : x ∉ l -> NoDup l -> NoDup (insert_sorted x l).
Proof.
  induction l as [|y l IH]; simpl; intros Hx Hl.
  - apply NoDup_singleton.
  - destruct (String.leb x y); [by apply NoDup_cons|].
    apply not_elem_of_cons in Hx as [Hxy Hx].
    apply NoDup_cons in Hl as [Hy Hl].
    apply NoDup_cons. split; [|by apply IH].
    rewrite insert_sorted_elem. intros [->|?]; done.
Qed.

Lemma sorted_NoDup l : NoDup l -> NoDup (sorted l).
Proof.
  induction l as [|x l IH]; simpl; [done|].
  intros [Hx Hl]%NoDup_cons. apply insert_sorted_NoDup; [|auto].
  by rewrite sorted_elem.
Qed.

Lemma sorted_items_elem {A} (m : gmap string A) k v :
  (k, v) ∈ sorted_items m <-> m !! k = Some v.
Proof.
  unfold sorted_items. rewrite list_elem_of_omap. split.
  - intros (k' & _ & Hkv). destruct (m !! k') eqn:E; [|done].
    simpl in Hkv. by injection Hkv as <- <-.
  - intros Hk. exists k. split; [|by rewrite Hk].
    apply sorted_elem, list_elem_of_fmap. exists (k, v). split; [done|].
    by apply elem_of_map_to_list.
Qed.

Lemma omap_fst_NoDup {A} (m : gmap string A) l :
  NoDup l ->
  NoDup (omap (fun k => (fun v => (k, v)) <$> m !! k) l).*1.
Proof.
  induction l as [|x l IH]; simpl; [intros; apply NoDup_nil_2|].
  intros [Hx Hl]%NoDup_cons. destruct (m !! x); simpl; [|auto].
  apply NoDup_cons. split; [|auto].
  rewrite list_elem_of_fmap. intros ([k v] & -> & Hin).
  apply list_elem_of_omap in Hin as (k' & Hk' & Hkv).
  destruct (m !! k'); [|done]. simpl in Hkv. injection Hkv as -> _. done.
Qed.

Lemma sorted_items_NoDup {A} (m : gmap string A) :
  NoDup (sorted_items m).*1.
Proof.
  apply omap_fst_NoDup, sorted_NoDup, NoDup_fst_map_to_list.
Qed.

(** *** Records stay where they are while the file grows *)

Lemma load_result_grows rest extra r :
  load_result rest = Return r -> load_result (rest ++ extra) = Return r.
Proof.
  unfold load_result.
  destruct (index_of NL rest) as [i|] eqn:Hi; [|by destruct (is_nil rest)].
  rewrite (index_of_app_l _ _ _ _ Hi).
  destruct (index_of_Some _ _ _ Hi) as (Hl & _).
  by rewrite take_app_le by lia.
Qed.

Lemma load_grows offset s s' extra r :
  content s' = content s ++ extra ->
  fst (Storage_load offset s) = Return r ->
  fst (Storage_load offset s') = Return r.
Proof.
  intros Hc.
  destruct (load_spec offset s) as (p & ->).
  destruct (load_spec offset s') as (p' & ->). simpl.
  destruct (offset <? 0); [done|]. rewrite Hc.
  intros Hr.
  destruct (decide (Z.to_nat offset <= length (content s))%nat).
  - rewrite drop_app_le by done. by apply load_result_grows.
  - rewrite drop_ge in Hr by lia. done.
Qed.

Lemma store_offset record s offset s' :
  locked s = false ->
  Storage_store record s = (Return offset, s') ->
  offset = Z.of_nat (length (content s)) /\ lockable s' = lockable s.
Proof.
  intros Hl. unfold Storage_store. rewrite lock_spec by done.
  unfold bind, f_seek_end, f_tell, assert, f_write, ret, raise. simpl.
  destruct (2 <=? Z.of_nat (length (content s))); simpl;
    [|by destruct (lockable s)].
  destruct (byte_in TAB record) eqn:Ht; simpl; [by destruct (lockable s)|].
  destruct (byte_in NL record) eqn:Hn; simpl; [by destruct (lockable s)|].
  destruct (lockable s) eqn:Hk; intros [= <- <-]; simpl; by repeat split.
Qed.

Lemma load_stored record s offset s' :
  locked s = false ->
  Storage_store record s = (Return offset, s') ->
  fst (Storage_load offset s') = Return record.
Proof.
  intros Hl Hrun.
  destruct (store_returns _ _ _ _ Hl Hrun) as (Ht & Hn & _ & Hc).
  destruct (store_offset _ _ _ _ Hl Hrun) as [-> _].
  destruct (load_spec (Z.of_nat (length (content s))) s') as (p' & ->).
  simpl fst. destruct (Z.ltb_spec (Z.of_nat (length (content s))) 0); [lia|].
  rewrite Nat2Z.id, Hc, drop_app_length.
  rewrite <- (app_nil_r [NL]).
  by apply (load_result_record record []).
Qed.


(** No record starts inside a line that has no TAB. *)
Lemma load_result_no_record l tail r :
  l <> [] -> TAB ∉ l -> NL ∈ l -> load_result (l ++ tail) <> Return r.
Proof.
  intros Hne Ht Hn. unfold load_result.
  destruct (index_of NL l) as [i|] eqn:Hi.
  2:{ by apply index_of_None in Hi. }
  rewrite (index_of_app_l _ _ _ _ Hi).
  destruct l as [|x l]; [done|]. simpl.
  apply not_elem_of_cons in Ht as [Hx _].
  assert (Byte.eqb x TAB = false) as -> by (apply byte_eqb_false; congruence).
  done.
Qed.

Lemma load_header_changed o h h' tail r :
  length h' = length h -> TAB ∉ h -> TAB ∉ h' ->
  load_result (drop o ((h ++ [NL]) ++ tail)) = Return r ->
  load_result (drop o ((h' ++ [NL]) ++ tail)) = Return r.
Proof.
  intros Hlen Ht Ht'.
  destruct (decide (o <= length h)%nat) as [Hle|Hgt].
  - rewrite drop_app_le by (rewrite length_app; simpl; lia).
    rewrite drop_app_le by done.
    intros Hr. exfalso. revert Hr. apply load_result_no_record.
    + by destruct (drop o h).
    + rewrite not_elem_of_app, list_elem_of_singleton. split; [|done].
      intros Hin. apply Ht. rewrite <- (take_drop o h).
      apply elem_of_app. by right.
    + rewrite elem_of_app, list_elem_of_singleton. by right.
  - rewrite !drop_app_ge by (rewrite length_app; simpl; lia).
    by rewrite !length_app, Hlen.
Qed.

Lemma set_current_keeps_records s digits tail offset lease s' :
  locked s = false ->
  content s = IDENTIFIER ++ [NL] ++ digits ++ [NL] ++ tail ->
  NL ∉ digits -> 0 <= offset ->
  Storage_set_current offset lease s = (Return tt, s') ->
  (forall o r, fst (Storage_load o s) = Return r ->
               fst (Storage_load o s') = Return r)
  /\ fst (Storage_get_current s') = Return offset
  /\ locked s' = false /\ lockable s' = lockable s.
Proof.
  intros Hl Hc Hn Hpos Hrun.
  destruct (set_current_spec offset lease s digits tail Hl Hc Hn)
    as (p' & q' & Hspec).
  rewrite Hspec in Hrun. clear Hspec.
  destruct (root_digits_ok digits) eqn:Hok; [|done]. cbn [negb] in Hrun.
  destruct (lease_fails lease (decimal_value digits)); [done|].
  destruct (Nat.eqb_spec (length (format_0d offset (length digits)))
              (length digits)) as [Hlen|]; [|done].
  injection Hrun as <-.
  destruct (format_0d_value offset (length digits) Hpos Hlen) as [Hd' Hv'].
  set (digits' := format_0d offset (length digits)) in *.
  unfold root_digits_ok in Hok.
  apply andb_true_iff in Hok as [Hbounds Hd].
  split; [|split; [|done]].
  - intros o r.
    destruct (load_spec o s) as (p1 & ->).
    match goal with |- _ -> fst (Storage_load o ?s2) = _ =>
      destruct (load_spec o s2) as (p2 & ->) end.
    simpl. destruct (o <? 0); [done|]. rewrite Hc.
    replace (IDENTIFIER ++ [NL] ++ digits ++ [NL] ++ tail)
      with (((IDENTIFIER ++ [NL] ++ digits) ++ [NL]) ++ tail)
      by (by rewrite <- !app_assoc).
    replace (IDENTIFIER ++ NL :: digits' ++ NL :: tail)
      with (((IDENTIFIER ++ [NL] ++ digits') ++ [NL]) ++ tail)
      by (by rewrite <- !app_assoc).
    apply load_header_changed.
    + rewrite !length_app. simpl. by rewrite Hlen.
    + rewrite !not_elem_of_app, list_elem_of_singleton.
      split; [apply IDENTIFIER_TAB|]. split; [done|]. by apply digits_no_TAB.
    + rewrite !not_elem_of_app, list_elem_of_singleton.
      split; [apply IDENTIFIER_TAB|]. split; [done|]. by apply digits_no_TAB.
  - match goal with |- fst (Storage_get_current ?s2) = _ =>
      destruct (get_current_spec s2 digits' tail) as (p2 & ->) end;
      [done|done|by apply is_digit_not_NL|].
    simpl. unfold root_digits_ok. rewrite Hlen, Hbounds, Hd'. simpl.
    by rewrite Hv'.
Qed.

(** *** Persisting *)

Lemma persisted_refl w : locked (storage w) = false -> persisted w w.
Proof.
  intros Hl. repeat split; try done.
  - exists []. by rewrite app_nil_r.
  - intros b it Hb. exists it. by repeat split.
Qed.

Lemma persisted_trans w1 w2 w3 :
  persisted w1 w2 -> persisted w2 w3 -> persisted w1 w3.
Proof.
  intros (Hl2 & Hk2 & [e2 He2] & Hc2 & Hr2 & Hv2 & Ht2 & Hs2 & Hn2 & Hi2)
         (Hl3 & Hk3 & [e3 He3] & Hc3 & Hr3 & Hv3 & Ht3 & Hs3 & Hn3 & Hi3).
  repeat split; try congruence.
  - exists (e2 ++ e3). by rewrite He3, He2, app_assoc.
  - intros b it Hb.
    destruct (Hi2 _ _ Hb) as (it2 & Hb2 & ? & ? & ? & Ho2).
    destruct (Hi3 _ _ Hb2) as (it3 & Hb3 & ? & ? & ? & Ho3).
    exists it3. repeat split; try congruence. auto.
Qed.

Lemma persisted_grown w w' : persisted w w' -> grown w w'.
Proof.
  intros (_ & _ & [extra He] & _ & _ & _ & _ & _ & _ & Hi).
  split; [intros o r; by eapply load_grows|].
  intros b it Hb. destruct (Hi _ _ Hb) as (it' & ? & _ & _ & ? & _). eauto.
Qed.

Lemma persisted_offset w w' b o :
  persisted w w' -> offset_of w b = Some o -> offset_of w' b = Some o.
Proof.
  intros (_ & _ & _ & _ & _ & _ & _ & _ & _ & Hi). unfold offset_of.
  destruct (items w !! b) as [it|] eqn:Hb; [|done]. simpl. intros Ho.
  destruct (Hi _ _ Hb) as (it' & -> & _ & _ & _ & Ho'). simpl. auto.
Qed.

Lemma persisted_offset_None w w' b :
  persisted w w' -> offset_of w' b = None -> offset_of w b = None.
Proof.
  intros Hp Hn. destruct (offset_of w b) as [o|] eqn:Ho; [|done].
  by rewrite (persisted_offset _ _ _ _ Hp Ho) in Hn.
Qed.

Section Persist.
Context `{Json}.

Lemma written_grown w w1 w2 :
  grown w1 w2 ->
  (forall a o v, written w w1 a o v -> written w w2 a o v).
Proof.
  intros [He Hi].
  apply (written_mut w w1 (fun a o v => written w w2 a o v)
           (fun e j => child_written w w2 e j)).
  - intros a it v o Ha Hb Hload.
    destruct (Hi _ _ Ha) as (it' & Ha' & Hb').
    apply (written_leaf w w2 a it' v o Ha'); [by rewrite Hb'|].
    by apply He.
  - intros a it es o node Ha Hb Hload Hdom _ Hch.
    destruct (Hi _ _ Ha) as (it' & Ha' & Hb').
    apply (written_node w w2 a it' es o node Ha'); [by rewrite Hb'| |done..].
    by apply He.
  - intros. apply child_on_file.
  - intros. by apply child_clean.
  - intros. by eapply child_dirty.
Qed.

Lemma written_rebase w w1 w2 :
  persisted w w1 -> all_written w w1 -> grown w1 w2 ->
  (forall a o v, written w1 w2 a o v -> written w w2 a o v).
Proof.
  intros Hp Hq Hg.
  apply (written_mut w1 w2 (fun a o v => written w w2 a o v)
           (fun e j => child_written w w2 e j)).
  - intros. by eapply written_leaf.
  - intros a it es o node Ha Hb Hload Hdom _ Hch.
    by eapply written_node.
  - intros. apply child_on_file.
  - intros c o Ho. destruct (offset_of w c) as [o0|] eqn:Ho0.
    + rewrite (persisted_offset _ _ _ _ Hp Ho0) in Ho. injection Ho as ->.
      by apply child_clean.
    + destruct (Hq _ _ Ho0 Ho) as [v Hv].
      apply (child_dirty _ _ c o v); [done|].
      by eapply written_grown.
  - intros c o v Ho _ Hw. apply (child_dirty _ _ c o v); [|done].
    by eapply persisted_offset_None.
Qed.

Lemma all_written_trans w w1 w2 :
  persisted w w1 -> all_written w w1 ->
  persisted w1 w2 -> all_written w1 w2 ->
  all_written w w2.
Proof.
  intros Hp1 Hq1 Hp2 Hq2 b o Hn Ho.
  pose proof (persisted_grown _ _ Hp2) as Hg.
  destruct (offset_of w1 b) as [o1|] eqn:Ho1.
  - rewrite (persisted_offset _ _ _ _ Hp2 Ho1) in Ho. injection Ho as ->.
    destruct (Hq1 _ _ Hn Ho1) as [v Hv]. exists v.
    by eapply written_grown.
  - destruct (Hq2 _ _ Ho1 Ho) as [v Hv]. exists v.
    by eapply written_rebase.
Qed.

Lemma all_written_refl w : all_written w w.
Proof. intros b o Hn Ho. congruence. Qed.

Lemma child_now_persisted w w' e j :
  persisted w w' -> child_now w e j -> child_now w' e j.
Proof.
  intros Hp. destruct e as [o r|c]; simpl; [done|].
  intros (o & -> & Ho). exists o. split; [done|]. by eapply persisted_offset.
Qed.

Section Loop.
Variable persist : addr -> eff World unit.
Hypothesis persist_spec : forall c w w',
  volatile w = false -> locked (storage w) = false ->
  offset_of w c = None ->
  persist c w = (Return tt, w') ->
  persisted w w' /\ all_written w w' /\ is_Some (offset_of w' c).

Lemma persist_entry_spec a node k e w node1 w1 :
  volatile w = false -> locked (storage w) = false ->
  persist_entry persist a node (k, e) w = (Return node1, w1) ->
  persisted w w1 /\ all_written w w1
  /\ exists o, node1 = <[k := JInt o]> node
       /\ child_now w1 e (Some (JInt o)).
Proof.
  intros Hv Hl. unfold persist_entry. destruct e as [o r|c].
  - unfold bind, ret. intros [= <- <-].
    split; [by apply persisted_refl|]. split; [apply all_written_refl|].
    by exists o.
  - unfold bind at 1. unfold bind at 1, read_item.
    destruct (items w !! c) as [child|] eqn:Hc; [|done].
    unfold bind at 1.
    destruct (i_offset child) as [o0|] eqn:Ho0.
    + unfold ret at 1. unfold bind at 1, read_item. rewrite Hc, Ho0.
      unfold bind, from_option, ret, get_state. rewrite Hv.
      intros [= <- <-].
      split; [by apply persisted_refl|]. split; [apply all_written_refl|].
      exists o0. split; [done|]. exists o0. split; [done|].
      unfold offset_of. by rewrite Hc.
    + destruct (persist c w) as [[[]| |] w2] eqn:Hp; [|done..].
      assert (offset_of w c = None) as Hnone
        by (unfold offset_of; by rewrite Hc).
      destruct (persist_spec _ _ _ Hv Hl Hnone Hp) as (Hp2 & Hq2 & [o Ho]).
      unfold bind at 1, read_item.
      unfold offset_of in Ho.
      destruct (items w2 !! c) as [child2|] eqn:Hc2; [|done].
      simpl in Ho. rewrite Ho.
      unfold bind, from_option, ret, get_state.
      assert (volatile w2 = false) as ->.
      { destruct Hp2 as (_ & _ & _ & _ & _ & -> & _). done. }
      intros [= <- <-]. split; [done|]. split; [done|].
      exists o. split; [done|]. exists o. split; [done|].
      unfold offset_of. by rewrite Hc2.
Qed.

Lemma persist_loop_spec a : forall l node w node' w',
  volatile w = false -> locked (storage w) = false ->
  NoDup l.*1 ->
  fold_eff (persist_entry persist a) l node w = (Return node', w') ->
  persisted w w' /\ all_written w w'
  /\ (forall k, k ∉ l.*1 -> node' !! k = node !! k)
  /\ (forall k e, (k, e) ∈ l -> child_now w' e (node' !! k)).
Proof.
  induction l as [|[k e] l IH]; intros node w node' w' Hv Hl Hnd.
  - simpl. unfold ret. intros [= <- <-].
    split; [by apply persisted_refl|]. split; [apply all_written_refl|].
    split; [done|]. intros k e Hin. by apply elem_of_nil in Hin.
  - cbn [fold_eff]. unfold bind at 1.
    destruct (persist_entry persist a node (k, e) w) as [[node1| |] w1]
      eqn:Hstep; [|done..].
    destruct (persist_entry_spec _ _ _ _ _ _ _ Hv Hl Hstep)
      as (Hp1 & Hq1 & o & -> & Hnow).
    simpl in Hnd. apply NoDup_cons in Hnd as [Hk Hnd].
    assert (volatile w1 = false) as Hv1.
    { destruct Hp1 as (_ & _ & _ & _ & _ & -> & _). done. }
    assert (locked (storage w1) = false) as Hl1 by by destruct Hp1.
    intros Hfold.
    destruct (IH _ _ _ _ Hv1 Hl1 Hnd Hfold) as (Hp2 & Hq2 & Hout & Hin).
    split; [by eapply persisted_trans|].
    split; [by eapply all_written_trans|]. split.
    + intros k' Hk'. simpl in Hk'. apply not_elem_of_cons in Hk' as [Hne Hk'].
      rewrite (Hout _ Hk'). by rewrite lookup_insert_ne.
    + intros k' e' [[= -> ->]|Hin']%elem_of_cons; [|by apply Hin].
      rewrite (Hout _ Hk), lookup_insert_eq.
      by eapply child_now_persisted.
Qed.

End Loop.

Lemma record_then_offset w wn a itn record o s1 :
  persisted w wn -> all_written w wn ->
  offset_of w a = None -> items wn !! a = Some itn ->
  Storage_store record (storage wn) = (Return o, s1) ->
  let w' := set_items (<[a := with_offset (Some o) itn]> (items wn))
              (set_storage s1 wn) in
  (grown wn w' -> fst (Storage_load o (storage w')) = Return record ->
   exists v, written w w' a o v) ->
  persisted w w' /\ all_written w w' /\ is_Some (offset_of w' a).
Proof.
  intros Hp Hq Hnone Ha Hst w' Hmake.
  assert (locked (storage wn) = false) as Hl by by destruct Hp.
  destruct (store_returns _ _ _ _ Hl Hst) as (_ & _ & Hl1 & Hc1).
  destruct (store_offset _ _ _ _ Hl Hst) as [_ Hk1].
  pose proof (load_stored _ _ _ _ Hl Hst) as Hload.
  assert (a < length (items wn))%nat as Hlt by by eapply lookup_lt_Some.
  assert (grown wn w') as Hg.
  { split; [intros o' r; simpl; by eapply load_grows|].
    intros b it Hb. simpl.
    destruct (decide (b = a)) as [->|Hne].
    - rewrite list_lookup_insert_eq by done. eexists. split; [done|].
      rewrite Ha in Hb. by injection Hb as <-.
    - rewrite list_lookup_insert_ne by done. eauto. }
  assert (offset_of w' a = Some o) as Hoa.
  { unfold offset_of. simpl. by rewrite list_lookup_insert_eq. }
  assert (forall b, b <> a -> offset_of w' b = offset_of wn b) as Hob.
  { intros b Hne. unfold offset_of. simpl.
    by rewrite list_lookup_insert_ne. }
  destruct Hp as (_ & Hk & [extra He] & Hcr & Hr & Hv & Ht & Hs & Hn & Hi).
  split; [|split].
  - repeat split; simpl; try done; try congruence.
    + exists (extra ++ [TAB] ++ record ++ [NL]).
      rewrite Hc1, He. by rewrite <- app_assoc.
    + by rewrite length_insert.
    + intros b it Hb. destruct (Hi _ _ Hb) as (it' & Hb' & ? & ? & ? & Ho).
      destruct (decide (b = a)) as [->|Hne].
      * rewrite list_lookup_insert_eq by done. eexists. split; [done|].
        rewrite Ha in Hb'. injection Hb' as <-. simpl.
        repeat split; try done. intros o' Ho'.
        unfold offset_of in Hnone. rewrite Hb in Hnone. simpl in Hnone.
        congruence.
      * rewrite list_lookup_insert_ne by done. exists it'. by repeat split.
  - intros b ob Hnb Hb. destruct (decide (b = a)) as [->|Hne].
    + rewrite Hoa in Hb. injection Hb as <-. by apply Hmake.
    + rewrite (Hob _ Hne) in Hb. destruct (Hq _ _ Hnb Hb) as [v Hw].
      exists v. by eapply written_grown.
  - by rewrite Hoa.
Qed.

Lemma persist_spec fuel : forall a w w',
  volatile w = false -> locked (storage w) = false ->
  offset_of w a = None ->
  Item__persist fuel a w = (Return tt, w') ->
  persisted w w' /\ all_written w w' /\ is_Some (offset_of w' a).
Proof.
  induction fuel as [|fuel IH]; intros a w w' Hv Hl Hnone; [done|].
  simpl. unfold bind at 1, read_item.
  destruct (items w !! a) as [it|] eqn:Ha; [|done].
  destruct (i_body it) as [v|es] eqn:Hb.
  - unfold bind, assert, Store__record, on_storage, ret, raise.
    destruct (bool_decide (is_Some (i_link it))); [|done].
    destruct (bool_decide (i_offset it = None)); [|done].
    cbv beta iota.
    destruct (Storage_store _ (storage w)) as [[o| |] s1] eqn:Hst; [|done..].
    unfold Item__set_offset, update_item. simpl items. rewrite Ha.
    intros [= <-].
    eapply (record_then_offset w w a it _ o s1);
      [by apply persisted_refl|apply all_written_refl|done|done|exact Hst|].
    intros Hg Hload. exists v.
    apply (written_leaf _ _ a (with_offset (Some o) it) v o);
      [|exact Hb|exact Hload].
    simpl. apply list_lookup_insert_eq. by eapply lookup_lt_Some.
  - unfold bind, assert, Store__record, on_storage, ret, raise.
    destruct (bool_decide (is_Some (i_link it))); [|done].
    cbv beta iota.
    destruct (fold_eff _ (sorted_items es) ∅ w) as [[node| |] wn] eqn:Hfold;
      [|done..].
    destruct (persist_loop_spec _ IH a _ _ _ _ _ Hv Hl
                (sorted_items_NoDup es) Hfold) as (Hp & Hq & Hout & Hin).
    destruct (Storage_store _ (storage wn)) as [[o| |] s1] eqn:Hst; [|done..].
    unfold Item__set_offset, update_item. simpl items.
    destruct (items wn !! a) as [itn|] eqn:Han; [|done].
    intros [= <-].
    eapply (record_then_offset w wn a itn _ o s1);
      [done|done|done|done|exact Hst|].
    intros Hg Hload.
    assert (i_body itn = BNode es) as Hbn.
    { destruct Hp as (_ & _ & _ & _ & _ & _ & _ & _ & _ & Hi).
      destruct (Hi _ _ Ha) as (it' & Ha' & _ & _ & Hb' & _).
      rewrite Han in Ha'. injection Ha' as <-. congruence. }
    exists (JDict node).
    apply (written_node _ _ a (with_offset (Some o) itn) es o node);
      [|exact Hbn|exact Hload| |].
    + simpl. apply list_lookup_insert_eq. by eapply lookup_lt_Some.
    + intros k. split.
      * intros Hnk. destruct (es !! k) as [e|] eqn:Hek; [|done].
        apply sorted_items_elem in Hek. apply Hin in Hek.
        rewrite Hnk in Hek. destruct e; [done|]. by destruct Hek as (? & ? & _).
      * intros Hek. rewrite Hout; [done|].
        rewrite list_elem_of_fmap. intros ([k' e] & -> & Hke).
        apply sorted_items_elem in Hke. simpl in Hek. congruence.
    + intros k e Hek. apply sorted_items_elem in Hek. apply Hin in Hek.
      destruct e as [o' r|c]; simpl in Hek.
      * rewrite Hek. apply child_on_file.
      * destruct Hek as (oc & -> & Hoc).
        destruct (offset_of w c) as [o0|] eqn:Ho0.
        -- rewrite (persisted_offset _ _ _ _ Hp Ho0) in Hoc.
           injection Hoc as ->. by apply child_clean.
        -- destruct (Hq _ _ Ho0 Hoc) as [vc Hw].
           apply (child_dirty _ _ c oc vc); [done|].
           by eapply written_grown.
Qed.

(** X8.  [_persist] on a modified item of a store that is not volatile,
    when it returns: the item has an offset and the file holds at that
    offset its record, which is for a leaf its value and for a node the
    offsets of its children, the children that were modified being on
    the file in the same way ([written]); the same holds of every item
    that was modified and has an offset now; the file has only grown at
    its end, an item that had an offset has kept it, and links, values
    and entries are what they were. *)
Theorem persist_writes_the_subtree fuel a w w' :
  volatile w = false -> locked (storage w) = false ->
  offset_of w a = None ->
  Item__persist fuel a w = (Return tt, w') ->
  (exists o v, offset_of w' a = Some o /\ written w w' a o v)
  /\ (forall b o, offset_of w b = None -> offset_of w' b = Some o ->
        exists v, written w w' b o v)
  /\ persisted w w'.
Proof.
  intros Hv Hl Hnone Hrun.
  destruct (persist_spec _ _ _ _ Hv Hl Hnone Hrun) as (Hp & Hq & [o Ho]).
  split; [|by split].
  destruct (Hq _ _ Hnone Ho) as [v Hw]. by exists o, v.
Qed.

Lemma written_offset w w' a o v : written w w' a o v -> 0 <= o.
Proof.
  assert (forall r, fst (Storage_load o (storage w')) = Return r -> 0 <= o)
    as Hpos.
  { intros r. destruct (load_spec o (storage w')) as (p & ->). simpl.
    destruct (Z.ltb_spec o 0); [done|lia]. }
  destruct 1; eauto.
Qed.

(** X9.  [commit] of a store that is not volatile, whose root is a
    modified item, on a file with a header: when it returns [R], the
    root item has the offset [R], the file holds the tree of the
    modified items under it ([written]), [get_current] of the file
    returns [R], which is the observed root as well, and the items
    that had an offset have kept it. *)
Theorem commit_writes_the_tree fuel w a digits tail R w' :
  volatile w = false -> locked (storage w) = false ->
  content (storage w) = IDENTIFIER ++ [NL] ++ digits ++ [NL] ++ tail ->
  NL ∉ digits ->
  root w = RootItem a -> offset_of w a = None ->
  Store_commit fuel w = (Return R, w') ->
  (exists v, written w w' a R v)
  /\ offset_of w' a = Some R
  /\ fst (Storage_get_current (storage w')) = Return R
  /\ current_root w' = R /\ root w' = RootItem a
  /\ (forall b o, offset_of w b = Some o -> offset_of w' b = Some o)
  /\ (forall b o, offset_of w b = None -> offset_of w' b = Some o ->
        exists v, written w w' b o v).
Proof.
  intros Hv Hl Hc Hn Hroot Hnone. unfold Store_commit.
  unfold bind at 1, Store_commit_offset. unfold bind at 1, get_state.
  rewrite Hroot. unfold bind at 1, read_item.
  unfold offset_of in Hnone.
  destruct (items w !! a) as [it|] eqn:Ha; [|done].
  simpl in Hnone. rewrite Hnone. unfold bind at 1.
  destruct (Item__persist fuel a w) as [[[]| |] w1] eqn:Hper; [|done..].
  assert (offset_of w a = None) as Hnone'
    by (unfold offset_of; by rewrite Ha).
  destruct (persist_spec _ _ _ _ Hv Hl Hnone' Hper) as (Hp & Hq & [o Ho]).
  unfold bind at 1, read_item.
  pose proof Ho as Ho'. unfold offset_of in Ho'.
  destruct (items w1 !! a) as [it1|] eqn:Ha1; [|done].
  simpl in Ho'. rewrite Ho'. unfold from_option, ret at 1.
  unfold bind at 1, get_state. unfold bind at 1, on_storage.
  destruct (Storage_set_current o (Some (current_root w1)) (storage w1))
    as [[[]| |] s2] eqn:Hset; [|done..].
  unfold bind, ret. intros [= <- <-].
  destruct (Hq _ _ Hnone' Ho) as [v Hw].
  pose proof (written_offset _ _ _ _ _ Hw) as Hpos.
  pose proof Hp as (Hl1 & Hk1 & [extra He] & Hcr & Hr1 & Hv1 & Ht1 & Hs1
                    & Hlen1 & Hi1).
  assert (content (storage w1)
          = IDENTIFIER ++ [NL] ++ digits ++ [NL] ++ (tail ++ extra)) as Hc1.
  { rewrite He, Hc. by rewrite <- !app_assoc. }
  destruct (set_current_keeps_records _ _ _ _ _ _ Hl1 Hc1 Hn Hpos Hset)
    as (Hloads & Hget & Hl2 & Hk2).
  set (w2 := set_current_root o (set_storage s2 w1)).
  assert (grown w1 w2) as Hg.
  { split; [done|]. intros b itb Hb. by exists itb. }
  assert (forall b, offset_of w2 b = offset_of w1 b) as Hsame by done.
  split; [exists v; by eapply written_grown|].
  split; [by rewrite Hsame|]. split; [done|]. split; [done|].
  split; [simpl; congruence|]. split.
  - intros b ob Hb. rewrite Hsame. by eapply persisted_offset.
  - intros b ob Hb Hb2. rewrite Hsame in Hb2.
    destruct (Hq _ _ Hb Hb2) as [vb Hwb]. exists vb.
    by eapply written_grown.
Qed.

Lemma decode_record kind payload (k : Kind -> json -> eff World addr) w :
  payload <> [] ->
  (let record := Kind_value kind ++ payload in
   if (length record <? 2)%nat then raise StoreError
   else
     let* kd :=
       (if bytes_eqb (slice record None (Some 1)) (Kind_value Kind_node)
        then ret Kind_node
        else if bytes_eqb (slice record None (Some 1)) (Kind_value Kind_leaf)
        then ret Kind_leaf
        else raise ValueError) in
     match loads (slice record (Some 1) None) with
     | None => raise StoreError
     | Some data => k kd data
     end) w
  = match loads payload with
    | None => (Raise StoreError, w)
    | Some data => k kind data w
    end.
Proof.
  intros Hne. cbv zeta.
  change (Some 1) with (Some (Z.of_nat 1)).
  rewrite slice_to, slice_from.
  destruct payload as [|x rest]; [done|].
  destruct kind; simpl; unfold bind, ret; simpl; by destruct (loads _).
Qed.

(** X10.  What [_persist] has written, [_load] reads back: when the file
    holds at [o] the record of the item [a], made of a JSON value that
    [loads] gets back from its [dumps], [Store._load(o)], in any store
    on a file with the same content, returns a new item with the offset
    [o] that is a leaf with the value of [a], or a node with the keys of
    [a] whose entries are the tuples [(offset, None)] of the children as
    the record names them. *)
Theorem written_item_loads w w' a o v w2 :
  written w w' a o v ->
  loads (dumps v) = Some v -> dumps v <> [] ->
  content (storage w2) = content (storage w') ->
  exists it bd w3,
    items w' !! a = Some it
    /\ Store__load o w2 = (Return (length (items w2)), w3)
    /\ items w3 = items w2 ++ [mkItem None true (Some o) bd]
    /\ match i_body it, bd with
       | BLeaf x, BLeaf x' => x' = x
       | BNode es, BNode es' =>
           (forall k, es' !! k = None <-> es !! k = None)
           /\ (forall k e, es !! k = Some e ->
                 exists oc, es' !! k = Some (ETuple oc None)
                   /\ child_written w w' e (Some (JInt oc)))
       | _, _ => False
       end.
Proof.
  intros Hw Hloads Hne Hc.
  assert (forall record,
            fst (Storage_load o (storage w')) = Return record ->
            exists s3, Storage_load o (storage w2) = (Return record, s3))
    as Hread.
  { intros record.
    destruct (load_spec o (storage w')) as (p & ->).
    destruct (load_spec o (storage w2)) as (p2 & ->). simpl.
    rewrite Hc. intros ->. eauto. }
  destruct Hw as [a it v o Ha Hb Hload|a it es o node Ha Hb Hload Hdom Hch].
  - destruct (Hread _ Hload) as (s3 & Hrun).
    exists it, (BLeaf v). eexists. split; [done|].
    unfold Store__load. unfold bind at 1, on_storage. rewrite Hrun.
    rewrite (decode_record Kind_leaf (dumps v)
               (fun kd data =>
                  match kd with
                  | Kind_node =>
                      match data with
                      | JDict d =>
                          match node_entries d with
                          | Some e =>
                              new_item (mkItem None true (Some o) (BNode e))
                          | None => raise StoreError
                          end
                      | _ => raise StoreError
                      end
                  | Kind_leaf =>
                      new_item (mkItem None true (Some o) (BLeaf data))
                  end)) by done.
    rewrite Hloads.
    unfold new_item. simpl. split; [done|]. split; [done|]. by rewrite Hb.
  - destruct (Hread _ Hload) as (s3 & Hrun).
    assert (forall k j, node !! k = Some j -> exists oc, j = JInt oc) as Hint.
    { intros k j Hk. destruct (es !! k) as [e|] eqn:He.
      - specialize (Hch _ _ He). rewrite Hk in Hch.
        inversion Hch; eauto.
      - apply Hdom in He. congruence. }
    assert (node_entries node
            = Some (omap (fun j => (fun o => ETuple o None) <$> as_int j)
                      node)) as Hne'.
    { unfold node_entries. rewrite bool_decide_eq_true_2; [done|].
      intros k j Hk. destruct (Hint _ _ Hk) as [oc ->]. by eexists. }
    exists it. eexists (BNode _). eexists. split; [done|].
    unfold Store__load. unfold bind at 1, on_storage. rewrite Hrun.
    rewrite (decode_record Kind_node (dumps (JDict node))
               (fun kd data =>
                  match kd with
                  | Kind_node =>
                      match data with
                      | JDict d =>
                          match node_entries d with
                          | Some e =>
                              new_item (mkItem None true (Some o) (BNode e))
                          | None => raise StoreError
                          end
                      | _ => raise StoreError
                      end
                  | Kind_leaf =>
                      new_item (mkItem None true (Some o) (BLeaf data))
                  end)) by done.
    rewrite Hloads, Hne'.
    unfold new_item. simpl. split; [done|]. split; [done|]. rewrite Hb.
    split.
    + intros k. rewrite lookup_omap, <- Hdom.
      destruct (node !! k) as [j|] eqn:Hk; [|done]. simpl.
      destruct (Hint _ _ Hk) as [oc ->]. done.
    + intros k e He. specialize (Hch _ _ He).
      rewrite lookup_omap.
      destruct (node !! k) as [j|] eqn:Hk; [|inversion Hch].
      destruct (Hint _ _ Hk) as [oc ->]. exists oc. done.
Qed.

End Persist.

(** *** Reading leaves nothing to commit *)

#[local] Instance flags_kept_preorder : PreOrder flags_kept.
Proof.
  split; [done|]. intros w1 w2 w3 [? ?] [? ?]. split; congruence.
Qed.

Lemma preserves_load offset : preserves same_flags (Storage_load offset).
Proof. unfold Storage_load. repeat flags_step. Qed.

(** An effect on the heaps only. *)
Lemma flags_kept_heap {A} (m : eff World A) :
  (forall w, storage (snd (m w)) = storage w) -> preserves flags_kept m.
Proof.
  intros Hm w r w' Hrun. unfold flags_kept.
  specialize (Hm w). rewrite Hrun in Hm. simpl in Hm. by rewrite Hm.
Qed.

Lemma flags_read_item a : preserves flags_kept (read_item a).
Proof.
  apply flags_kept_heap. intros w. unfold read_item. by destruct (items w !! a).
Qed.

Lemma flags_update_item a f : preserves flags_kept (update_item a f).
Proof.
  apply flags_kept_heap. intros w. unfold update_item.
  by destruct (items w !! a).
Qed.

Lemma flags_new_item it : preserves flags_kept (new_item it).
Proof. by apply flags_kept_heap. Qed.

Lemma flags_read_tree t : preserves flags_kept (read_tree t).
Proof.
  apply flags_kept_heap. intros w. unfold read_tree. by destruct (trees w !! t).
Qed.

Lemma flags_update_tree t f : preserves flags_kept (update_tree t f).
Proof.
  apply flags_kept_heap. intros w. unfold update_tree.
  by destruct (trees w !! t).
Qed.

Lemma flags_new_tree x : preserves flags_kept (new_tree x).
Proof. by apply flags_kept_heap. Qed.

Ltac heap_step :=
  first [ apply flags_read_item | apply flags_update_item
        | apply flags_new_item | apply flags_read_tree
        | apply flags_update_tree | apply flags_new_tree
        | preserves_step ].

Section Reading.
Context `{Json}.

Lemma flags_Store__load offset : preserves flags_kept (Store__load offset).
Proof.
  unfold Store__load. apply preserves_bind; [apply _| |intros record].
  { intros w r w'. unfold on_storage.
    destruct (Storage_load offset (storage w)) as [r1 s1] eqn:Hrun.
    intros [= _ <-]. exact (preserves_load _ _ _ _ Hrun). }
  repeat heap_step.
Qed.

Lemma flags_Node_get a key : preserves flags_kept (Node_get a key).
Proof.
  unfold Node_get, entries_of, Item__attach, set_entry.
  repeat (heap_step || apply flags_Store__load).
Qed.

Lemma flags_Tree__get t name raw default :
  preserves flags_kept (Tree__get t name raw default).
Proof.
  unfold Tree__get, Schema_extra, Schema_pose, Schema_descend.
  repeat (heap_step || apply flags_Node_get).
Qed.

(** [commit] when nothing but loading has happened since a state in
    which the root was not modified. *)
Lemma commit_after_loading fuel w w1 R digits tail :
  locked (storage w) = false ->
  content (storage w) = IDENTIFIER ++ [NL] ++ digits ++ [NL] ++ tail ->
  NL ∉ digits ->
  root_digits_ok digits = true ->
  decimal_value digits = R ->
  current_root w = R ->
  (root w = RootInt R
   \/ exists a it, root w = RootItem a /\ items w !! a = Some it
                   /\ i_offset it = Some R) ->
  only_loaded w w1 -> flags_kept w w1 ->
  exists w2,
    Store_commit fuel w1 = (Return R, w2)
    /\ content (storage w2) = content (storage w)
    /\ current_root w2 = R
    /\ root w2 = root w
    /\ items w2 = items w1.
Proof.
  intros Hl Hc Hn Hok Hval Hcur Hroot
         (Hc1 & _ & _ & Hi & _ & _ & _ & Hr1 & Hcr1) [Hl1 _].
  assert (root w1 = RootInt R
          \/ exists a it, root w1 = RootItem a /\ items w1 !! a = Some it
                          /\ i_offset it = Some R) as Hroot1.
  { rewrite Hr1. destruct Hroot as [?|(a & it & ? & Ha & Ho)]; [by left|].
    right. destruct (Hi _ _ Ha) as (it' & Ha' & _ & _ & Ho' & _).
    exists a, it'. split; [done|]. split; [done|]. congruence. }
  pose proof (commit_offset_clean fuel w1 R Hroot1) as Hoff.
  rewrite Hl in Hl1. rewrite <- Hc1 in Hc.
  destruct (commit_after_offset fuel w1 R w1 digits tail Hoff Hl1 Hc Hn)
    as (p' & q' & ->).
  rewrite Hok, Hcr1, Hcur, Hval, Z.eqb_refl. cbn [negb].
  assert (format_0d R (length digits) = digits) as Hfmt.
  { rewrite <- Hval. unfold root_digits_ok in Hok.
    apply andb_true_iff in Hok as [[Hlen _]%andb_true_iff Hd].
    apply format_0d_roundtrip; [|done].
    intros ->. simpl in Hlen. done. }
  rewrite Hfmt, Nat.eqb_refl.
  eexists. split; [done|]. simpl. rewrite <- Hc1, Hc. by repeat split.
Qed.

(** X11.  Reading does not make [commit] write: in a store whose root
    is not modified and is the root [R] of the file, after [Node.get] on
    any node, or [Tree._get] on any facade (the facades in the caches
    being the children they were created as), whatever they return or
    raise, [commit] returns [R] and leaves the file with the bytes it
    had; the children that the reading has loaded stay in memory. *)
Theorem reading_leaves_nothing_to_commit fuel w R digits tail :
  locked (storage w) = false ->
  content (storage w) = IDENTIFIER ++ [NL] ++ digits ++ [NL] ++ tail ->
  NL ∉ digits ->
  root_digits_ok digits = true ->
  decimal_value digits = R ->
  current_root w = R ->
  (root w = RootInt R
   \/ exists a it, root w = RootItem a /\ items w !! a = Some it
                   /\ i_offset it = Some R) ->
  (forall a key r w1,
     Node_get a key w = (r, w1) ->
     exists w2,
       Store_commit fuel w1 = (Return R, w2)
       /\ content (storage w2) = content (storage w)
       /\ current_root w2 = R /\ root w2 = root w /\ items w2 = items w1)
  /\ (cache_ok w ->
      forall t name r w1,
        Tree__get t name false None w = (r, w1) ->
        exists w2,
          Store_commit fuel w1 = (Return R, w2)
          /\ content (storage w2) = content (storage w)
          /\ current_root w2 = R /\ root w2 = root w /\ items w2 = items w1).
Proof.
  intros Hl Hc Hn Hok Hval Hcur Hroot. split.
  - intros a key r w1 Hrun.
    destruct (Node_get_loads _ _ _ _ _ Hrun) as (Hload & _).
    eapply commit_after_loading; try done.
    exact (flags_Node_get _ _ _ _ _ Hrun).
  - intros Hcache t name r w1 Hrun.
    destruct (Tree__get_loads _ _ _ _ _ Hcache Hrun) as (Hload & _).
    eapply commit_after_loading; try done.
    exact (flags_Tree__get _ _ _ _ _ _ _ Hrun).
Qed.

End Reading.

(** *** The files that [scan] accepts *)

(** Every file is a sequence of lines followed by a last line without
    its newline, which may be empty. *)
Lemma lines_of_content (c : list byte) :
  exists ls tail,
    c = join_lines ls ++ tail
    /\ Forall (fun l => NL ∉ l) ls /\ NL ∉ tail.
Proof.
  induction c as [|x c (ls & tail & -> & Hls & Htail)].
  - exists [], []. split; [done|]. split; [done|]. apply not_elem_of_nil.
  - destruct (decide (x = NL)) as [->|Hx].
    + exists ([] :: ls), tail. split; [done|]. split; [|done].
      constructor; [apply not_elem_of_nil|done].
    + destruct ls as [|l ls].
      * exists [], (x :: tail). split; [done|]. split; [done|].
        apply not_elem_of_cons. split; [congruence|done].
      * exists ((x :: l) :: ls), tail. split; [done|].
        apply Forall_cons in Hls as [Hl Hls]. split; [|done].
        constructor; [|done]. apply not_elem_of_cons. split; [congruence|done].
Qed.

Lemma record_line_ok_inv l :
  record_line_ok l = true -> exists r, l = TAB :: r /\ TAB ∉ r.
Proof.
  destruct l as [|c r]; [by rewrite record_line_ok_nil|].
  rewrite record_line_ok_cons. intros [Hc Hr]%andb_true_iff.
  apply byte_eqb_true in Hc as ->. apply bool_decide_eq_true in Hr.
  by exists r.
Qed.

Lemma record_lines_inv ls :
  forallb record_line_ok ls = true -> Forall (fun l => NL ∉ l) ls ->
  exists records,
    ls = map (cons TAB) records
    /\ Forall (fun r => (TAB ∉ r) /\ (NL ∉ r)) records.
Proof.
  induction ls as [|l ls IH]; simpl.
  - intros _ _. by exists [].
  - intros [Hl Hls]%andb_true_iff [Hn Hns]%Forall_cons.
    destruct (record_line_ok_inv _ Hl) as (r & -> & Ht).
    destruct (IH Hls Hns) as (records & -> & Hrs).
    exists (r :: records). split; [done|]. constructor; [|done].
    split; [done|]. by apply not_elem_of_cons in Hn as [_ ?].
Qed.

(** X15.  [scan] accepts exactly the files made of the identifier line,
    a root line of one to [MAX_HEADER] digits and record lines, each a
    marker followed by a record without marker and newline, every line
    with its newline; on any other file that is not locked it raises
    CorruptedFormat, and no other exception. *)
Theorem scan_accepts_exactly s :
  locked s = false ->
  (fst (Storage_scan s) = Return tt
   <-> exists digits records,
         content s = file_of digits records
         /\ root_digits_ok digits = true
         /\ Forall (fun r => (TAB ∉ r) /\ (NL ∉ r)) records)
  /\ (fst (Storage_scan s) = Return tt
      \/ fst (Storage_scan s) = Raise CorruptedFormat).
Proof.
  intros Hl. split.
  - split.
    + destruct (lines_of_content (content s)) as (ls & tail & Hc & Hls & Ht).
      rewrite (scan_lines ls tail s Hl Hc Hls Ht). unfold scan_result.
      destruct ls as [|l1 [|l2 records]]; [done..|].
      destruct (bytes_eqb l1 IDENTIFIER) eqn:H1; [|done].
      destruct (root_digits_ok l2) eqn:H2; [|done].
      destruct (forallb record_line_ok records) eqn:H3; [|done].
      destruct tail; [|done]. intros _.
      apply bool_decide_eq_true in H1 as ->.
      apply Forall_cons in Hls as [_ [_ Hrs]%Forall_cons].
      destruct (record_lines_inv _ H3 Hrs) as (rs & -> & Hok).
      exists l2, rs. split; [|done]. by rewrite Hc, app_nil_r.
    + intros (digits & records & Hc & Hok & Hrs).
      destruct (records_ok _ Hrs) as [Hall Hnl].
      assert (NL ∉ digits) as Hd.
      { unfold root_digits_ok in Hok.
        apply andb_true_iff in Hok as [_ Hok]. by apply is_digit_not_NL. }
      rewrite (scan_lines (IDENTIFIER :: digits :: map (cons TAB) records) []
                 s Hl).
      * unfold scan_result. by rewrite bytes_eqb_refl, Hok, Hall.
      * by rewrite app_nil_r.
      * constructor; [apply IDENTIFIER_NL|]. by constructor.
      * apply not_elem_of_nil.
  - destruct (lines_of_content (content s)) as (ls & tail & Hc & Hls & Ht).
    rewrite (scan_lines ls tail s Hl Hc Hls Ht). unfold scan_result.
    destruct ls as [|l1 [|l2 records]]; [by right..|].
    destruct (_ && _); [by left|by right].
Qed.

(** *** Getting a child or creating it *)

Section GetOrCreate.
Context `{Json}.

(** A child that [get] has returned is in memory: [get] returns it again
    and changes nothing. *)
Lemma Node_get_again a key w c w1 :
  Node_get a key w = (Return c, w1) ->
  Node_get a key w1 = (Return c, w1) /\ has_key w a key.
Proof.
  unfold Node_get at 1. unfold bind at 1, read_item.
  destruct (items w !! a) as [it|] eqn:Ha; [|done].
  unfold bind at 1, entries_of.
  destruct (i_body it) as [|es] eqn:Hb; [done|]. unfold ret at 1.
  assert (forall e, es !! key = Some e -> has_key w a key) as Hkey.
  { intros e He. exists it, es. by repeat split. }
  destruct (es !! key) as [[o [c0|]|c0]|] eqn:Hk; [| | |done].
  - intros [= <- <-]. split; [|by eapply Hkey]. unfold Node_get.
    rewrite (run_bind _ _ _ _ _ (run_read_item _ _ _ Ha)).
    unfold entries_of. rewrite Hb. unfold bind, ret. by rewrite Hk.
  - destruct (negb (i_store it)); [done|].
    unfold bind at 1.
    destruct (Store__load o w) as [[c0| |] w2] eqn:Hload; [|done..].
    destruct (load_item_clean _ _ _ _ Hload) as (-> & bd & Hi2).
    set (c0 := length (items w)) in *.
    assert (a < length (items w))%nat as Hlt by by eapply lookup_lt_Some.
    assert (items w2 !! c0 = Some (mkItem None true (Some o) bd)) as Hc0
      by (rewrite Hi2; by apply list_lookup_middle).
    unfold bind at 1, Item__attach.
    rewrite (run_bind _ _ _ _ _ (run_read_item _ _ _ Hc0)).
    cbn [i_link]. rewrite (run_update_item _ _ _ _ Hc0).
    unfold bind at 1, get_state. unfold bind at 1, set_entry, update_item.
    cbn [items set_items].
    rewrite list_lookup_insert_ne by (unfold c0; lia).
    rewrite Hi2, lookup_app_l, Ha, Hb by done.
    unfold ret. intros [= <- <-]. split; [|by eapply Hkey].
    unfold Node_get. unfold bind at 1, read_item. cbn [items set_items].
    rewrite list_lookup_insert_eq
      by (rewrite length_insert, length_app; lia).
    unfold bind, entries_of, ret. cbn [i_body with_body].
    rewrite lookup_insert_eq. cbn [volatile set_items].
    by destruct (volatile w2).
  - intros [= <- <-]. split; [|by eapply Hkey]. unfold Node_get.
    rewrite (run_bind _ _ _ _ _ (run_read_item _ _ _ Ha)).
    unfold entries_of. rewrite Hb. unfold bind, ret. by rewrite Hk.
Qed.

Lemma Node_get_KeyError a key w w1 :
  Node_get a key w = (Raise KeyError, w1) -> w1 = w /\ ~ has_key w a key.
Proof.
  intros Hget. destruct (Node_get_loads _ _ _ _ _ Hget) as (_ & _ & _ & Hno).
  split; [|by apply Hno]. revert Hget.
  unfold Node_get. unfold bind at 1, read_item.
  destruct (items w !! a) as [it|] eqn:Ha; [|done].
  unfold bind at 1, entries_of.
  destruct (i_body it) as [|es] eqn:Hb; [done|]. unfold ret at 1.
  destruct (es !! key) as [[o [c0|]|c0]|] eqn:Hk; try done.
  - destruct (negb (i_store it)); [done|].
    unfold bind at 1.
    destruct (Store__load o w) as [r2 w2] eqn:Hload.
    destruct (load_adds_item _ _ _ _ Hload) as (_ & Hne & _).
    destruct r2 as [c0|e|]; [| |done].
    + destruct (load_item_clean _ _ _ _ Hload) as (-> & bd & Hi2).
      assert (items w2 !! length (items w)
              = Some (mkItem None true (Some o) bd)) as Hc0
        by (rewrite Hi2; by apply list_lookup_middle).
      unfold bind at 1, Item__attach.
      rewrite (run_bind _ _ _ _ _ (run_read_item _ _ _ Hc0)).
      cbn [i_link]. rewrite (run_update_item _ _ _ _ Hc0).
      unfold bind at 1, get_state. unfold bind at 1, set_entry, update_item.
      cbn [items set_items].
      match goal with
      | |- context [match ?x with Some _ => _ | None => _ end] =>
          destruct x
      end; unfold ret; intros [= ?]; done.
    + intros [= -> _]. done.
  - by intros [= <-].
Qed.

Lemma Node_node_spec fuel a key w n created w' :
  Node_node fuel a key w = (Return (n, created), w') ->
  Node_get a key w' = (Return n, w')
  /\ (exists itn es, items w' !! n = Some itn /\ i_body itn = BNode es
        /\ (created = true ->
            n = length (items w) /\ es = ∅
            /\ i_link itn = Some (mkLink (ONode a) key)))
  /\ (created = true <-> ~ has_key w a key)
  /\ trees w' = trees w.
Proof.
  unfold Node_node. unfold bind at 1, read_item.
  destruct (items w !! a) as [it|] eqn:Ha; [|done].
  unfold bind at 1, entries_of.
  destruct (i_body it) as [|es] eqn:Hb; [done|]. unfold ret at 1.
  unfold catch. unfold bind at 1.
  destruct (Node_get a key w) as [[c|e|] w1] eqn:Hget.
  - destruct (Node_get_again _ _ _ _ _ Hget) as [Hagain Hkey].
    unfold bind at 1, read_item.
    destruct (items w1 !! c) as [itc|] eqn:Hc; [|done].
    unfold bind, assert, is_Node.
    destruct (i_body itc) as [|esc] eqn:Hbc; [done|].
    unfold ret. intros [= <- <- <-].
    destruct (Node_get_loads _ _ _ _ _ Hget) as (_ & Htrees & _).
    split; [done|]. split; [|split; [|done]].
    + exists itc, esc. by repeat split.
    + split; [done|]. intros Hno. by destruct Hno.
  - case_bool_decide as He; [subst e|done].
    destruct (Node_get_KeyError _ _ _ _ Hget) as [-> Hno].
    unfold bind at 1, Node_new, new_item.
    set (w2 := set_items (items w ++ [mkItem None false None (BNode ∅)]) w).
    unfold bind at 1.
    destruct (Node_set fuel a key (length (items w)) w2)
      as [[[]| |] w3] eqn:Hset; [|done..].
    unfold ret. intros [= <- <- <-].
    destruct (Node_set_spec _ _ _ _ _ _ Hset)
      as (Hget' & _ & (v0 & v & Hv0 & Hv & Hl & Hbody) & Htrees & _).
    assert (items w2 !! length (items w)
            = Some (mkItem None false None (BNode ∅))) as Hnew
      by (by apply list_lookup_middle).
    rewrite Hnew in Hv0. injection Hv0 as <-.
    assert (a <> length (items w)) as Hne
      by (apply lookup_lt_Some in Ha; lia).
    specialize (Hbody Hne). simpl in Hbody.
    split; [done|]. split; [|by split].
    exists v, ∅. by repeat split.
  - done.
Qed.


End GetOrCreate.

(** *** Values and facades handed out by a tree *)

Section Facades.
Context `{Json}.




(** X14.  The root of a store: once [_get_root] has returned an item,
    the store holds it and [_get_root] returns it again without reading
    the file; [_set_root] of a detached item attaches it to the store
    under [__ROOT__] and makes it the item that [_get_root] returns; of
    an attached item it raises StoreError and changes nothing; on a new
    file, whose root is 0, [_get_root] raises NullEntryPoint. *)
Theorem root_is_kept w :
  (forall a w1,
     Store__get_root w = (Return a, w1) ->
     root w1 = RootItem a /\ Store__get_root w1 = (Return a, w1))
  /\ (forall v w1,
        Store__set_root v w = (Return tt, w1) ->
        Store__get_root w1 = (Return v, w1)
        /\ exists it, items w1 !! v = Some it
             /\ i_link it = Some (mkLink OStore ROOT))
  /\ (forall v it,
        items w !! v = Some it -> is_Some (i_link it) ->
        Store__set_root v w = (Raise StoreError, w))
  /\ (root w = RootInt 0 -> Store__get_root w = (Raise NullEntryPoint, w)).
Proof.
  split; [|split; [|split]].
  - intros a w1. unfold Store__get_root. unfold bind at 1, get_state.
    destruct (root w) as [|r|a0] eqn:Hr; [done| |].
    + destruct (r =? 0); [done|]. unfold bind at 1.
      destruct (Store__load r w) as [[c| |] w2] eqn:Hload; [|done..].
      unfold bind at 1. unfold bind at 1, Item__attach.
      unfold bind at 1, read_item. cbn [items set_root].
      destruct (items w2 !! c) as [itc|]; [|done].
      destruct (i_link itc); [done|].
      unfold update_item. cbn [items set_root].
      destruct (items w2 !! c); [|done].
      unfold ret. intros [= <- <-]. split; [done|].
      unfold bind, get_state. done.
    + unfold ret. intros [= <- <-]. split; [done|].
      unfold bind, get_state. by rewrite Hr.
  - intros v w1. unfold Store__set_root, Item__attach, bind, read_item.
    destruct (items w !! v) as [it|] eqn:Hv; [|done].
    destruct (i_link it); [done|].
    unfold update_item. rewrite Hv. intros [= <-].
    split; [done|]. eexists. split.
    + simpl. apply list_lookup_insert_eq. by eapply lookup_lt_Some.
    + done.
  - intros v it Hv [l Hl]. unfold Store__set_root, Item__attach, bind, read_item.
    by rewrite Hv, Hl.
  - intros Hr. unfold Store__get_root, bind, get_state. by rewrite Hr.
Qed.

End Facades.

(** *** Creating the nodes of a facade *)

Lemma facades_kept_refl w : facades_kept w w.
Proof. intros t x Ht. exists x. by repeat split. Qed.

Lemma facades_kept_trans w1 w2 w3 :
  facades_kept w1 w2 -> facades_kept w2 w3 -> facades_kept w1 w3.
Proof.
  intros H12 H23 t x Ht.
  destruct (H12 _ _ Ht) as (x2 & Ht2 & ? & ? & ? & ? & Hn2).
  destruct (H23 _ _ Ht2) as (x3 & Ht3 & ? & ? & ? & ? & Hn3).
  exists x3. repeat split; try congruence. auto.
Qed.

Section Realize.
Context `{Json}.

(** [get] of a child that is in memory looks at the items only. *)
Lemma Node_get_items a key w c w2 :
  Node_get a key w = (Return c, w) -> items w2 = items w ->
  Node_get a key w2 = (Return c, w2).
Proof.
  intros Hget Hi.
  assert (exists it es e,
            items w !! a = Some it /\ i_body it = BNode es
            /\ es !! key = Some e
            /\ (e = EItem c \/ exists o, e = ETuple o (Some c)))
    as (it & es & e & Ha & Hb & Hk & He).
  { revert Hget. unfold Node_get. unfold bind at 1, read_item.
    destruct (items w !! a) as [it|] eqn:Ha; [|done].
    unfold bind at 1, entries_of.
    destruct (i_body it) as [|es] eqn:Hb; [done|]. unfold ret at 1.
    destruct (es !! key) as [[o [c0|]|c0]|] eqn:Hk; [| | |done].
    - intros [= <-]. exists it, es. eexists. repeat split; eauto.
    - destruct (negb (i_store it)); [done|].
      unfold bind at 1.
      destruct (Store__load o w) as [[c0| |] w3] eqn:Hload; [|done..].
      destruct (load_item_clean _ _ _ _ Hload) as (-> & bd & Hi3).
      assert (a < length (items w))%nat as Hlt by by eapply lookup_lt_Some.
      assert (items w3 !! length (items w)
              = Some (mkItem None true (Some o) bd)) as Hc0
        by (rewrite Hi3; by apply list_lookup_middle).
      unfold bind at 1, Item__attach.
      rewrite (run_bind _ _ _ _ _ (run_read_item _ _ _ Hc0)).
      cbn [i_link]. rewrite (run_update_item _ _ _ _ Hc0).
      unfold bind at 1, get_state. unfold bind at 1, set_entry, update_item.
      cbn [items set_items].
      rewrite list_lookup_insert_ne by lia.
      rewrite Hi3, lookup_app_l, Ha, Hb by done.
      unfold ret. intros [= _ Hw].
      apply (f_equal (fun w => length (items w))) in Hw. simpl in Hw.
      rewrite !length_insert, length_app in Hw. simpl in Hw. lia.
    - intros [= <-]. exists it, es. eexists. repeat split; eauto. }
  rewrite <- Hi in Ha. unfold Node_get.
  rewrite (run_bind _ _ _ _ _ (run_read_item _ _ _ Ha)).
  unfold entries_of. rewrite Hb. unfold bind, ret. rewrite Hk.
  by destruct He as [->|[o ->]].
Qed.

Lemma realize_exists fuel t w w' :
  Tree___realize fuel t w = (Return tt, w') -> is_Some (trees w !! t).
Proof.
  destruct fuel as [|fuel]; [done|]. simpl. unfold bind at 1, read_tree.
  by destruct (trees w !! t).
Qed.

Lemma realize_spec fuel : forall t w w' x,
  Tree___realize fuel t w = (Return tt, w') -> trees w !! t = Some x ->
  facades_kept w w'
  /\ exists x' n,
       trees w' !! t = Some x' /\ t_node x' = Some n
       /\ (t_node x = None ->
           exists p name pn,
             t_parent x = Some p /\ t_name x = Some name
             /\ Node_get pn name w' = (Return n, w')
             /\ (exists itn es,
                   items w' !! n = Some itn /\ i_body itn = BNode es)
             /\ (p <> t ->
                 exists px, trees w' !! p = Some px /\ t_node px = Some pn)).
Proof.
  induction fuel as [|fuel IH]; intros t w w' x Hrun Ht; [done|].
  revert Hrun. cbn [Tree___realize].
  rewrite (run_bind _ _ _ _ _ (run_read_tree _ _ _ Ht)).
  destruct (t_node x) as [n0|] eqn:Hn.
  { intros [= <-]. split; [apply facades_kept_refl|].
    exists x, n0. by repeat split. }
  destruct (t_parent x) as [p|] eqn:Hp; [|done].
  cbn [from_option]. rewrite (run_bind (ret p) _ w p w eq_refl).
  unfold bind at 1.
  destruct (Tree___realize fuel p w) as [[[]| |] w1] eqn:Hrp; [|done..].
  destruct (realize_exists _ _ _ _ Hrp) as [px Hpx].
  destruct (IH _ _ _ _ Hrp Hpx) as (Hk1 & px1 & pn & Hpx1 & Hpn & _).
  rewrite (run_bind _ _ _ _ _ (run_node_of _ _ _ _ Hpx1 Hpn)).
  destruct (t_name x) as [name|] eqn:Hname; [|done].
  cbn [from_option]. rewrite (run_bind (ret name) _ w1 name w1 eq_refl).
  unfold bind at 1.
  destruct (Node_node (S fuel) pn name w1) as [[[n created]| |] w2] eqn:Hnn;
    [|done..].
  destruct (Node_node_spec _ _ _ _ _ _ _ Hnn) as (Hget2 & Hnode2 & _ & Htr2).
  destruct (Hk1 _ _ Ht) as (xt1 & Ht1 & He1 & Hp1 & Hn1 & Hs1 & _).
  assert (trees w2 !! t = Some xt1) as Ht2 by (by rewrite Htr2).
  rewrite (run_bind _ _ _ _ _ (run_update_tree _ _ _ _ Ht2)).
  set (w3 := set_trees (<[t := with_node (Some n) xt1]> (trees w2)) w2).
  assert (t < length (trees w2))%nat as Hlt by by eapply lookup_lt_Some.
  assert (trees w3 !! t = Some (with_node (Some n) xt1)) as Ht3
    by (simpl; by apply list_lookup_insert_eq).
  intros Hend.
  assert (items w' = items w2 /\ trees w' = trees w3) as [Hi' Ht'].
  { revert Hend. destruct created.
    - unfold Tree__setup.
      rewrite (run_bind _ _ _ _ _ (run_read_tree _ _ _ Ht3)).
      unfold bind, Schema_setup, ret. by intros [= <-].
    - by intros [= <-]. }
  split; [|exists (with_node (Some n) xt1), n;
           split; [by rewrite Ht'|]; split; [done|]].
  - intros t0 x0 Ht0.
    destruct (Hk1 _ _ Ht0) as (x0' & Ht0' & ? & ? & ? & ? & Hn0).
    rewrite Ht'. simpl. rewrite Htr2.
    destruct (decide (t0 = t)) as [->|Hne].
    + rewrite list_lookup_insert_eq by (by rewrite <- Htr2).
      eexists. split; [done|]. rewrite Ht in Ht0. injection Ht0 as <-.
      rewrite Ht1 in Ht0'. injection Ht0' as <-.
      repeat split; try done. intros n1 Hn1'. congruence.
    + rewrite list_lookup_insert_ne by done. exists x0'. by repeat split.
  - intros _. exists p, name, pn. split; [done|]. split; [done|].
    split; [by apply (Node_get_items _ _ w2)|].
    split.
    { destruct Hnode2 as (itn & es & Hitn & Hbn & _).
      exists itn, es. by rewrite Hi'. }
    intros Hne. exists px1. split; [|done].
    rewrite Ht'. simpl. rewrite list_lookup_insert_ne by done.
    by rewrite Htr2.
Qed.

(** X17.  [__realize], when it returns, leaves the facade with a node
    and with the entries, the parent and the name it had.  A facade that
    had its node is left alone and nothing changes; for one that had
    none, its node is a node item that the node of its parent returns
    under the name of the facade, found there or created.  The facades
    that had a node keep it. *)
Theorem realize_creates_the_nodes fuel t w w' x :
  Tree___realize fuel t w = (Return tt, w') -> trees w !! t = Some x ->
  (exists x' n,
     trees w' !! t = Some x' /\ t_node x' = Some n
     /\ t_entries x' = t_entries x /\ t_parent x' = t_parent x
     /\ t_name x' = t_name x
     /\ (t_node x = None ->
         exists p name pn,
           t_parent x = Some p /\ t_name x = Some name
           /\ Node_get pn name w' = (Return n, w')
           /\ (exists itn es,
                 items w' !! n = Some itn /\ i_body itn = BNode es)
           /\ (p <> t ->
               exists px, trees w' !! p = Some px /\ t_node px = Some pn)))
  /\ (forall t0 x0 n0,
        trees w !! t0 = Some x0 -> t_node x0 = Some n0 ->
        exists x0', trees w' !! t0 = Some x0' /\ t_node x0' = Some n0)
  /\ (is_Some (t_node x) -> w' = w).
Proof.
  intros Hrun Ht.
  destruct (realize_spec _ _ _ _ _ Hrun Ht) as (Hk & x' & n & Ht' & Hn' & Hnew).
  destruct (Hk _ _ Ht) as (x1 & Ht1 & He & Hp & Hna & _).
  rewrite Ht' in Ht1. injection Ht1 as <-.
  split; [by exists x', n|]. split.
  - intros t0 x0 n0 Ht0 Hn0.
    destruct (Hk _ _ Ht0) as (x0' & Ht0' & _ & _ & _ & _ & Hkeep).
    exists x0'. split; [done|]. by apply Hkeep.
  - intros [n0 Hn0]. destruct fuel as [|fuel]; [done|].
    revert Hrun. cbn [Tree___realize].
    rewrite (run_bind _ _ _ _ _ (run_read_tree _ _ _ Ht)), Hn0.
    by intros [= <-].
Qed.

(** *** Leaves keep their values *)

#[local] Instance leaves_kept_preorder : PreOrder leaves_kept.
Proof.
  split.
  - intros w a it v Ha Hb. by exists it.
  - intros w1 w2 w3 H12 H23 a it v Ha Hb.
    destruct (H12 _ _ _ Ha Hb) as (it2 & Ha2 & Hb2). by eapply H23.
Qed.

Lemma leaves_same_items {A} (m : eff World A) :
  (forall w, items (snd (m w)) = items w) -> preserves leaves_kept m.
Proof.
  intros Hm w r w' Hrun a it v Ha Hb.
  specialize (Hm w). rewrite Hrun in Hm. simpl in Hm. rewrite Hm. by exists it.
Qed.

Lemma leaves_read_item a : preserves leaves_kept (read_item a).
Proof.
  apply leaves_same_items. intros w. unfold read_item.
  by destruct (items w !! a).
Qed.

Lemma leaves_read_tree t : preserves leaves_kept (read_tree t).
Proof.
  apply leaves_same_items. intros w. unfold read_tree.
  by destruct (trees w !! t).
Qed.

Lemma leaves_update_tree t f : preserves leaves_kept (update_tree t f).
Proof.
  apply leaves_same_items. intros w. unfold update_tree.
  by destruct (trees w !! t).
Qed.

Lemma leaves_new_tree x : preserves leaves_kept (new_tree x).
Proof. by apply leaves_same_items. Qed.

Lemma leaves_on_storage {A} (m : eff Storage A) :
  preserves leaves_kept (on_storage m).
Proof.
  apply leaves_same_items. intros w. unfold on_storage.
  by destruct (m (storage w)).
Qed.

Lemma leaves_new_item it : preserves leaves_kept (new_item it).
Proof.
  intros w r w' [= _ <-] a it0 v Ha Hb. exists it0. split; [|done].
  simpl. by apply lookup_app_l_Some.
Qed.

Lemma leaves_update_item a f :
  (forall it v, i_body it = BLeaf v -> i_body (f it) = BLeaf v) ->
  preserves leaves_kept (update_item a f).
Proof.
  intros Hf w r w'. unfold update_item.
  destruct (items w !! a) as [it|] eqn:Ha; intros [= _ <-]; [|reflexivity].
  intros b itb v Hb Hbody. simpl.
  destruct (decide (b = a)) as [->|Hne].
  - rewrite list_lookup_insert_eq by (by eapply lookup_lt_Some).
    eexists. split; [done|]. rewrite Ha in Hb. injection Hb as <-. auto.
  - rewrite list_lookup_insert_ne by done. by exists itb.
Qed.

Lemma leaves_set_entry a key e : preserves leaves_kept (set_entry a key e).
Proof.
  apply leaves_update_item. intros it v Hb. by rewrite Hb.
Qed.

Lemma leaves_attach a l : preserves leaves_kept (Item__attach a l).
Proof.
  unfold Item__attach.
  repeat (preserves_step || apply leaves_read_item
          || (apply leaves_update_item; by intros)).
Qed.

Lemma leaves_changed fuel : forall a,
  preserves leaves_kept (Item__changed fuel a).
Proof.
  induction fuel as [|fuel IH]; intros a; simpl.
  - preserves_step.
  - repeat (preserves_step || apply leaves_read_item || apply IH
            || (apply leaves_update_item; by intros)).
Qed.

Lemma leaves_Store__load offset : preserves leaves_kept (Store__load offset).
Proof.
  unfold Store__load.
  repeat (preserves_step || apply leaves_on_storage || apply leaves_new_item).
Qed.

Lemma leaves_Node_get a key : preserves leaves_kept (Node_get a key).
Proof.
  unfold Node_get, entries_of.
  repeat (preserves_step || apply leaves_read_item || apply leaves_set_entry
          || apply leaves_attach || apply leaves_Store__load).
Qed.

Lemma leaves_Node_set fuel a key value :
  preserves leaves_kept (Node_set fuel a key value).
Proof.
  unfold Node_set, entries_of.
  repeat (preserves_step || apply leaves_read_item || apply leaves_set_entry
          || apply leaves_attach || apply leaves_changed).
Qed.

Lemma leaves_Node_node fuel a key :
  preserves leaves_kept (Node_node fuel a key).
Proof.
  unfold Node_node, entries_of, Node_new.
  repeat (preserves_step || apply leaves_read_item || apply leaves_new_item
          || apply leaves_Node_get || apply leaves_Node_set).
Qed.

Lemma leaves_realize fuel : forall t,
  preserves leaves_kept (Tree___realize fuel t).
Proof.
  induction fuel as [|fuel IH]; intros t; cbn [Tree___realize].
  - preserves_step.
  - unfold node_of, Tree__setup, Schema_setup.
    repeat (preserves_step || apply leaves_read_tree || apply IH
            || apply leaves_update_tree || apply leaves_Node_node
            || (apply leaves_same_items; by intros)).
Qed.

(** [t._set(name, v)] of a JSON value: the facade has its node, which
    has the new leaf under [name]. *)
Lemma Tree_set_value_spec fuel t name v w w' x :
  trees w !! t = Some x ->
  Tree__set fuel t name (AValue v) w = (Return tt, w') ->
  exists x2 n leaf itn es itl,
    trees w' !! t = Some x2 /\ t_entries x2 = t_entries x
    /\ t_node x2 = Some n
    /\ items w' !! n = Some itn /\ i_body itn = BNode es
    /\ Node_get n name w' = (Return leaf, w')
    /\ items w' !! leaf = Some itl /\ i_body itl = BLeaf v.
Proof.
  intros Ht. unfold Tree__set.
  rewrite (run_bind _ _ _ _ _ (run_read_tree _ _ _ Ht)).
  unfold Schema_validate. unfold bind at 1, ret at 1.
  unfold bind at 1, Leaf_new, new_item.
  set (leaf := length (items w)).
  set (w1 := set_items (items w ++ [mkItem None false None (BLeaf v)]) w).
  assert (trees w1 !! t = Some x) as Ht1 by done.
  unfold bind at 1.
  destruct (Tree___realize fuel t w1) as [[[]| |] w2] eqn:Hreal; [|done..].
  destruct (realize_spec _ _ _ _ _ Hreal Ht1)
    as (Hk & x2 & n & Ht2 & Hn2 & _).
  destruct (Hk _ _ Ht1) as (x2' & Ht2' & He2 & _).
  rewrite Ht2 in Ht2'. injection Ht2' as <-.
  assert (items w1 !! leaf = Some (mkItem None false None (BLeaf v))) as Hl1
    by (by apply list_lookup_middle).
  destruct (leaves_realize _ _ _ _ _ Hreal _ _ _ Hl1 eq_refl)
    as (itl & Hl2 & Hbl).
  rewrite (run_bind _ _ _ _ _ (run_node_of _ _ _ _ Ht2 Hn2)).
  intros Hset.
  destruct (Node_set_spec _ _ _ _ _ _ Hset)
    as (Hget & (it & es & it' & es' & Ha & Hb & Ha' & Hb' & _)
        & (v0 & v' & Hv0 & Hv' & _ & Hbody) & Htrees & _).
  rewrite Hl2 in Hv0. injection Hv0 as <-.
  assert (n <> leaf) as Hne.
  { intros ->. rewrite Hl2 in Ha. injection Ha as <-. congruence. }
  specialize (Hbody Hne). rewrite Hbl in Hbody.
  exists x2, n, leaf, it', es', v'.
  split; [by rewrite Htrees|]. by repeat split.
Qed.


End Realize.

(** *** The names that a facade has *)

Section Names.
Context `{Json}.

Lemma Node_get_KeyError_inv a key w w1 :
  Node_get a key w = (Raise KeyError, w1) ->
  exists it es, items w !! a = Some it /\ i_body it = BNode es
                /\ es !! key = None.
Proof.
  intros Hget. destruct (Node_get_KeyError _ _ _ _ Hget) as [-> Hno].
  revert Hget. unfold Node_get. unfold bind at 1, read_item.
  destruct (items w !! a) as [it|] eqn:Ha; [|done].
  unfold bind at 1, entries_of.
  destruct (i_body it) as [|es] eqn:Hb; [done|]. intros _.
  exists it, es. split; [done|]. split; [done|].
  destruct (es !! key) eqn:Hk; [|done].
  destruct Hno. exists it, es. by repeat split.
Qed.

Lemma Tree__has_node f t name w x n it es :
  trees w !! t = Some x -> t_node x = Some n ->
  items w !! n = Some it -> i_body it = BNode es ->
  Tree__has (S f) t name w = (Return (bool_decide (is_Some (es !! name))), w).
Proof.
  intros Ht Hn Ha Hb. unfold Tree__has. cbn [Tree___load].
  unfold bind at 1.
  rewrite (run_bind _ _ _ _ _ (run_read_tree _ _ _ Ht)), Hn.
  unfold ret at 1.
  rewrite (run_bind _ _ _ _ _ (run_read_tree _ _ _ Ht)), Hn.
  unfold Node_keys.
  unfold bind at 1. rewrite (run_bind _ _ _ _ _ (run_read_item _ _ _ Ha)).
  unfold entries_of. rewrite Hb. unfold bind, ret. do 2 f_equal.
  apply bool_decide_ext. rewrite list_elem_of_fmap. split.
  - intros ([k e] & -> & Hin). apply elem_of_map_to_list in Hin. by eexists.
  - intros [e He]. exists (name, e). split; [done|].
    by apply elem_of_map_to_list.
Qed.

(** X18.  The names of a facade: after [t._set(name, v)] of a JSON value
    has returned, [t._has(name)] is true; after [t._del(name)] has
    returned on a facade that has its node, [t._has(name)] is false;
    [t._del(name)] raises KeyError for a name that the node of [t] does
    not have and changes nothing; on a facade without a node it returns
    and does nothing. *)
Theorem Tree_has_after_set_and_del fuel t name w x :
  trees w !! t = Some x ->
  (forall v w',
     Tree__set fuel t name (AValue v) w = (Return tt, w') ->
     forall f, Tree__has (S f) t name w' = (Return true, w'))
  /\ (forall n w',
        t_node x = Some n ->
        Tree__del fuel t name w = (Return tt, w') ->
        forall f, Tree__has (S f) t name w' = (Return false, w'))
  /\ (forall n it es,
        t_node x = Some n -> items w !! n = Some it ->
        i_body it = BNode es -> es !! name = None ->
        Tree__del fuel t name w = (Raise KeyError, w))
  /\ (t_node x = None -> Tree__del fuel t name w = (Return tt, w)).
Proof.
  intros Ht. split; [|split; [|split]].
  - intros v w' Hset f.
    destruct (Tree_set_value_spec _ _ _ _ _ _ _ Ht Hset)
      as (x2 & n & leaf & itn & es & itl
          & Ht' & _ & Hn2 & Ha' & Hb' & Hget & _).
    destruct (Node_get_again _ _ _ _ _ Hget) as [_ (it & es0 & Ha & Hb & Hk)].
    rewrite Ha' in Ha. injection Ha as <-.
    rewrite Hb' in Hb. injection Hb as <-.
    rewrite (Tree__has_node f t name w' x2 n itn es Ht' Hn2 Ha' Hb').
    by rewrite bool_decide_eq_true_2.
  - intros n w' Hn. unfold Tree__del.
    rewrite (run_bind _ _ _ _ _ (run_read_tree _ _ _ Ht)), Hn.
    unfold bind at 1.
    destruct (Node_remove fuel n name w) as [[c| |] w1] eqn:Hrem; [|done..].
    unfold ret. intros [= <-] f.
    destruct (Node_remove_spec _ _ _ _ _ _ Hrem) as (Hget & _ & _ & Htrees).
    destruct (Node_get_KeyError_inv _ _ _ _ Hget) as (it & es & Ha & Hb & Hk).
    assert (trees w1 !! t = Some x) as Ht1 by (by rewrite Htrees).
    rewrite (Tree__has_node f t name w1 x n it es Ht1 Hn Ha Hb).
    rewrite bool_decide_eq_false_2; [done|].
    rewrite Hk. by intros [? ?].
  - intros n it es Hn Ha Hb Hk. unfold Tree__del.
    rewrite (run_bind _ _ _ _ _ (run_read_tree _ _ _ Ht)), Hn.
    unfold Node_remove, Node_get.
    unfold bind at 1. unfold bind at 1.
    rewrite (run_bind _ _ _ _ _ (run_read_item _ _ _ Ha)).
    unfold entries_of. rewrite Hb. unfold bind at 1, ret at 1. by rewrite Hk.
  - intros Hn. unfold Tree__del.
    rewrite (run_bind _ _ _ _ _ (run_read_tree _ _ _ Ht)). by rewrite Hn.
Qed.

(** *** Dropping the root *)

(** X19.  Dropping the root: when [detach_root] returns the item [a],
    [a] was the root and is detached now, the store has no root, so that
    [commit] raises DetachedRoot and [_get_root] raises StoreError, both
    changing nothing, and [_set_root(a)] makes [a] the root again.
    After [_reset], on a file whose root line is the observed root,
    [commit] returns the observed root and leaves the bytes of the file
    and the items as they are, modified or not. *)
Theorem dropping_the_root fuel w :
  (forall a w1,
     Store_detach_root w = (Return a, w1) ->
     root w = RootItem a /\ root w1 = RootNone
     /\ (exists it, items w1 !! a = Some it /\ i_link it = None)
     /\ Store_commit fuel w1 = (Raise DetachedRoot, w1)
     /\ Store__get_root w1 = (Raise StoreError, w1)
     /\ exists w2, Store__set_root a w1 = (Return tt, w2)
                   /\ root w2 = RootItem a)
  /\ (forall digits tail,
        locked (storage w) = false ->
        content (storage w)
          = IDENTIFIER ++ [NL] ++ digits ++ [NL] ++ tail ->
        NL ∉ digits ->
        root_digits_ok digits = true ->
        decimal_value digits = current_root w ->
        exists w2,
          Store_commit fuel (snd (Store__reset w))
            = (Return (current_root w), w2)
          /\ content (storage w2) = content (storage w)
          /\ items w2 = items w).
Proof.
  split.
  - intros a w1. unfold Store_detach_root. unfold bind at 1, get_state.
    destruct (root w) as [|r|a0] eqn:Hr; [done..|].
    unfold bind at 1, Item__detach. unfold bind at 1, read_item.
    destruct (items w !! a0) as [it|] eqn:Ha; [|done].
    destruct (i_link it) eqn:Hl; [|done].
    rewrite (run_update_item _ _ _ _ Ha).
    unfold bind, ret. intros [= <- <-].
    assert (a0 < length (items w))%nat as Hlt by by eapply lookup_lt_Some.
    split; [done|]. split; [done|]. split.
    { eexists. split; [simpl; by apply list_lookup_insert_eq|done]. }
    split; [done|]. split; [done|].
    unfold Store__set_root, Item__attach, bind, read_item. simpl.
    rewrite list_lookup_insert_eq by done. simpl.
    unfold update_item. simpl. rewrite list_lookup_insert_eq by done.
    eexists. split; done.
  - intros digits tail Hl Hc Hn Hok Hval.
    destruct (commit_after_loading fuel (snd (Store__reset w))
                (snd (Store__reset w)) (current_root w) digits tail)
      as (w2 & Hrun & Hc2 & _ & _ & Hi2); try done.
    + by left.
    + exists w2. by repeat split.
Qed.

End Names.

(** *** A modification marks the items above it, and no other *)

Lemma above_same_links w w' a b :
  (forall c it', items w' !! c = Some it' ->
     exists it, items w !! c = Some it /\ i_link it = i_link it') ->
  above w' a b -> above w a b.
Proof.
  intros Hl. induction 1 as [a|a it' p k b Ha Hlink _ IH]; [constructor|].
  destruct (Hl _ _ Ha) as (it & Ha0 & Hl0).
  apply (above_parent w a it p k b Ha0); [by rewrite Hl0|done].
Qed.

Lemma changed_marks_chain fuel : forall a w r w',
  Item__changed fuel a w = (r, w') ->
  forall b it, items w !! b = Some it ->
    exists it', items w' !! b = Some it'
      /\ (it' = it
          \/ (it' = with_offset None it /\ above w a b
              /\ is_Some (i_offset it))).
Proof.
  induction fuel as [|fuel IH]; intros a w r w'.
  { intros [= _ <-] b it Hb. exists it. by split; [|left]. }
  simpl. unfold bind at 1, read_item.
  destruct (items w !! a) as [ita|] eqn:Ha.
  2:{ intros [= _ <-] b it Hb. exists it. by split; [|left]. }
  destruct (i_offset ita) as [o|] eqn:Ho.
  2:{ intros [= _ <-] b it Hb. exists it. by split; [|left]. }
  rewrite (run_bind _ _ _ _ _ (run_update_item _ _ _ _ Ha)).
  set (w1 := set_items (<[a := with_offset None ita]> (items w)) w).
  assert (a < length (items w))%nat as Hlt by by eapply lookup_lt_Some.
  assert (forall b it, items w !! b = Some it ->
            exists it1, items w1 !! b = Some it1
              /\ ((b <> a /\ it1 = it)
                  \/ (b = a /\ it = ita /\ it1 = with_offset None ita)))
    as Hstep.
  { intros b it Hb. simpl. destruct (decide (b = a)) as [->|Hne].
    - rewrite list_lookup_insert_eq by done. eexists. split; [done|].
      right. rewrite Ha in Hb. by injection Hb as <-.
    - rewrite list_lookup_insert_ne by done. exists it. split; [done|].
      by left. }
  assert (forall b it, items w !! b = Some it ->
            exists it', items w1 !! b = Some it'
              /\ (it' = it
                  \/ (it' = with_offset None it /\ above w a b
                      /\ is_Some (i_offset it)))) as Hone.
  { intros b it Hb. destruct (Hstep _ _ Hb) as (it1 & Hb1 & [[_ ->]|(-> & -> & ->)]).
    - exists it. split; [done|]. by left.
    - eexists. split; [done|]. right. split; [done|].
      split; [constructor|]. by rewrite Ho. }
  destruct (i_link ita) as [[[|p] k]|] eqn:Hl; cbn [l_parent l_key].
  - unfold assert. destruct (String.eqb k ROOT); intros [= _ <-]; exact Hone.
  - intros Hrec b it Hb.
    destruct (Hstep _ _ Hb) as (it1 & Hb1 & Hcase).
    destruct (IH _ _ _ _ Hrec _ _ Hb1) as (it' & Hb' & Hres).
    exists it'. split; [done|].
    assert (above w1 p b -> above w a b) as Hab.
    { intros Hab. eapply above_parent; [exact Ha|exact Hl|].
      eapply above_same_links; [|exact Hab].
      intros c itc' Hc. simpl in Hc.
      destruct (decide (c = a)) as [->|Hne].
      - rewrite list_lookup_insert_eq in Hc by done. injection Hc as <-.
        by exists ita.
      - rewrite list_lookup_insert_ne in Hc by done. by exists itc'. }
    destruct Hcase as [[Hne ->]|(-> & -> & ->)].
    + destruct Hres as [->|(-> & Habove & Hs)]; [by left|].
      right. by repeat split; [apply Hab|].
    + destruct Hres as [->|(_ & _ & Hs)].
      * right. split; [done|]. split; [constructor|]. by rewrite Ho.
      * simpl in Hs. by destruct Hs.
  - intros [= _ <-]. exact Hone.
Qed.

(** X20.  [leaf.set(v)], when it returns: [leaf.get()] returns [v] and
    the leaf is modified; any other item is as it was, or has lost its
    offset and nothing else, and then it had an offset and is found from
    the leaf by following the links to the parents: a change marks the
    items above it, and no other.  The file, the facades and the root of
    the store are untouched. *)
Theorem Leaf_set_marks_the_chain fuel a v w w' :
  Leaf_set fuel a v w = (Return tt, w') ->
  Leaf_get a w' = (Return v, w')
  /\ (exists it', items w' !! a = Some it' /\ i_offset it' = None)
  /\ (forall b it, b <> a -> items w !! b = Some it ->
        exists it', items w' !! b = Some it'
          /\ (it' = it
              \/ (it' = with_offset None it /\ above w a b
                  /\ is_Some (i_offset it))))
  /\ storage w' = storage w /\ trees w' = trees w /\ root w' = root w.
Proof.
  unfold Leaf_set. unfold bind at 1, read_item.
  destruct (items w !! a) as [it|] eqn:Ha; [|done].
  destruct (i_body it) as [v0|] eqn:Hb; [|done].
  rewrite (run_bind _ _ _ _ _ (run_update_item _ _ _ _ Ha)).
  set (w1 := set_items (<[a := with_body (BLeaf v) it]> (items w)) w).
  assert (a < length (items w))%nat as Hlt by by eapply lookup_lt_Some.
  assert (items w1 !! a = Some (with_body (BLeaf v) it)) as Ha1
    by (simpl; by apply list_lookup_insert_eq).
  intros Hch.
  pose proof (preserves_changed fuel a _ _ _ Hch) as Hd.
  destruct (dirtied_item _ _ _ _ Hd Ha1) as (it' & Ha' & Hb' & _ & _).
  split; [|split; [|split]].
  - unfold Leaf_get. rewrite (run_bind _ _ _ _ _ (run_read_item _ _ _ Ha')).
    by rewrite Hb'.
  - by eapply changed_clears.
  - intros b itb Hne Hib.
    assert (items w1 !! b = Some itb) as Hib1
      by (simpl; by rewrite list_lookup_insert_ne).
    destruct (changed_marks_chain _ _ _ _ _ Hch _ _ Hib1)
      as (itb' & Hib' & Hres).
    exists itb'. split; [done|].
    destruct Hres as [->|(-> & Hab & Hs)]; [by left|].
    right. split; [done|]. split; [|done].
    eapply above_same_links; [|exact Hab].
    intros c itc' Hc. simpl in Hc.
    destruct (decide (c = a)) as [->|Hca].
    + rewrite list_lookup_insert_eq in Hc by done. injection Hc as <-.
      by exists it.
    + rewrite list_lookup_insert_ne in Hc by done. by exists itc'.
  - destruct Hd as (-> & _ & -> & _ & -> & _). done.
Qed.

(** *** Witnesses *)

Lemma load_store_roundtrip_witness :
  locked Storage_open_in_memory = false
  /\ (2 <= length (content Storage_open_in_memory))%nat
  /\ byte_in TAB (b "hello") = false
  /\ byte_in NL (b "hello") = false
  /\ exists offset s',
       Storage_store (b "hello") Storage_open_in_memory = (Return offset, s')
       /\ fst (Storage_load offset s') = Return (b "hello").
Proof.
  assert (locked Storage_open_in_memory = false) as H1 by reflexivity.
  assert (2 <= length (content Storage_open_in_memory))%nat as H2
    by (apply Nat.leb_le; vm_compute; reflexivity).
  assert (byte_in TAB (b "hello") = false) as H3 by reflexivity.
  assert (byte_in NL (b "hello") = false) as H4 by reflexivity.
  repeat (split; [assumption|]).
  exact (load_store_roundtrip (b "hello") Storage_open_in_memory H1 H2 H3 H4).
Defined.



Lemma commit_is_compare_and_swap_witness :
  let wA := example_config (H := example_json) in
  let wB := replaced_child (H := example_json) in
  let wA' := snd (Store_commit (H := example_json) 8 wA) in
  let wB1 := on_file_of wA' wB in
  Store_commit (H := example_json) 8 wA = (Return 94, wA')
  /\ current_root wB = 0
  /\ current_root wA' = 94
  /\ fst (Storage_get_current (storage wA')) = Return 94
  /\ fst (Store_commit (H := example_json) 8 wB1) = Raise ConcurrencyError
  /\ fst (Storage_get_current
            (storage (snd (Store_commit (H := example_json) 8 wB1))))
     = Return 94
  /\ (fst (Store_commit (H := example_json) 8 wB1) = Raise ConcurrencyError
      <-> decimal_value (b "000000000000094") <> current_root wB1).
Proof.
  intros wA wB wA' wB1.
  assert (locked (storage wA) = false) as HlA by reflexivity.
  assert (locked (storage wB) = false) as HlB by reflexivity.
  assert (content (storage wA) =
            IDENTIFIER ++ [NL] ++ replicate 15 x30 ++ [NL] ++ []) as HcA
    by (vm_compute; reflexivity).
  assert (NL ∉ replicate 15 x30) as Hn
    by compute_done.
  assert (current_root wB = 0) as HcurB by reflexivity.
  assert (Store_commit (H := example_json) 8 wA = (Return 94, wA')) as HA
    by (vm_compute; reflexivity).
  assert (94 <> 0) as Hne by lia.
  assert (0 <= 94) as Hpos by lia.
  destruct (commit_is_compare_and_swap (H := example_json)) as [T1 T2].
  destruct (T2 8%nat 8%nat wA wA' wB 0 94 (replicate 15 x30) []
              HlA HlB HcA Hn HcurB HA Hne Hpos) as (Hcur & Hget & HB).
  assert (Store_commit_offset (H := example_json) 8 wB1 =
            (Return 116, snd (Store_commit_offset (H := example_json) 8 wB1)))
    as Hoff by (vm_compute; reflexivity).
  destruct (HB _ _ Hoff) as (HrB & HgB & _).
  assert (locked (storage wB1) = false) as HlB1 by reflexivity.
  assert (content (storage
                     (snd (Store_commit_offset (H := example_json) 8 wB1))) =
            IDENTIFIER ++ [NL] ++ b "000000000000094" ++ [NL]
              ++ drop 53 (content (storage
                   (snd (Store_commit_offset (H := example_json) 8 wB1)))))
    as HcB by (vm_compute; reflexivity).
  assert (NL ∉ b "000000000000094") as Hn'
    by compute_done.
  assert (root_digits_ok (b "000000000000094") = true) as Hok by reflexivity.
  destruct (T1 8%nat wB1 116 _ _ _ HlB1 Hoff HcB Hn' Hok) as (Hiff & _ & _).
  repeat (split; [assumption|]). exact Hiff.
Defined.



Lemma scan_detects_framing_changes_witness :
  legal hello_storage
  /\ (root_start <= 53)%nat
  /\ content hello_storage !! 53%nat = Some TAB
  /\ x20 <> TAB
  /\ fst (Storage_scan hello_storage) = Return tt
  /\ fst (Storage_scan (mutate 53 x20 hello_storage)) = Raise CorruptedFormat.
Proof.
  assert (legal hello_storage) as H1 by apply hello_storage_legal.
  assert (root_start <= 53)%nat as H2
    by (apply Nat.leb_le; vm_compute; reflexivity).
  assert (content hello_storage !! 53%nat = Some TAB) as H3
    by (vm_compute; reflexivity).
  assert (x20 <> TAB) as H4 by discriminate.
  repeat (split; [assumption|]).
  destruct (scan_detects_framing_changes hello_storage H1) as [T1 T2].
  split; [exact T1|]. exact (T2 53%nat TAB x20 H2 H3 H4).
Defined.

Lemma records_lists_what_load_returns_witness :
  legal hello_storage
  /\ exists root_line table,
       records_of hello_storage =
         ((0, IDENTIFIER) :: (Z.of_nat root_start, root_line) :: table,
          Return tt)
       /\ fst (Storage_get_current hello_storage)
          = Return (decimal_value root_line)
       /\ forall offset r,
            fst (Storage_load offset hello_storage) = Return r
            <-> (offset, r) ∈ table.
Proof.
  assert (legal hello_storage) as H1 by apply hello_storage_legal.
  split; [assumption|].
  exact (records_lists_what_load_returns hello_storage H1).
Defined.

Lemma stored_record_stays_loadable_witness :
  let s2 := snd (Storage_set_current 53 None hello_storage) in
  legal Storage_open_in_memory
  /\ Storage_store (b "hello") Storage_open_in_memory
     = (Return 53, hello_storage)
  /\ reaches hello_storage s2
  /\ fst (Storage_load 53 s2) = Return (b "hello")
  /\ Z.of_nat records_start <= 53
  /\ 53 = Z.of_nat (length (content Storage_open_in_memory)).
Proof.
  intros s2.
  assert (legal Storage_open_in_memory) as H1
    by (apply (legal_init (mkStorage [] 0 false false)); reflexivity).
  assert (Storage_store (b "hello") Storage_open_in_memory
          = (Return 53, hello_storage)) as H2
    by (vm_compute; reflexivity).
  assert (reaches hello_storage s2) as H3.
  { apply (reaches_set_current hello_storage hello_storage 53 None s2).
    - apply reaches_here.
    - lia.
    - vm_compute. reflexivity. }
  repeat (split; [assumption|]).
  exact (stored_record_stays_loadable Storage_open_in_memory (b "hello") 53
           hello_storage s2 H1 H2 H3).
Defined.

Lemma set_current_then_get_current_witness :
  legal hello_storage
  /\ 0 <= 53
  /\ exists current,
       fst (Storage_get_current hello_storage) = Return current
       /\ let '(r, s') := Storage_set_current 53 None hello_storage in
          if lease_fails None current
          then r = Raise ConcurrencyError
               /\ content s' = content hello_storage
          else if 53 <? 10 ^ Z.of_nat DEFAULT_HEADER
          then r = Return tt
               /\ fst (Storage_get_current s') = Return 53
               /\ drop records_start (content s')
                  = drop records_start (content hello_storage)
               /\ legal s'
          else r = Raise AssertionError
               /\ content s' = content hello_storage.
Proof.
  assert (legal hello_storage) as H1 by apply hello_storage_legal.
  assert (0 <= 53) as H2 by lia.
  repeat (split; [assumption|]).
  exact (set_current_then_get_current hello_storage 53 None H1 H2).
Defined.

Lemma lock_is_released_witness :
  locked hello_storage = false
  /\ locked (set_locked true hello_storage) = true
  /\ same_flags hello_storage (snd (Storage_store (b "x") hello_storage))
  /\ fst (Storage_store (b "x") (set_locked true hello_storage))
     = Raise AssertionError.
Proof.
  assert (locked hello_storage = false) as H1 by reflexivity.
  assert (locked (set_locked true hello_storage) = true) as H2
    by reflexivity.
  repeat (split; [assumption|]).
  split.
  - exact (proj1 (proj1 (lock_is_released hello_storage) H1 (b "x") 0 None)).
  - exact (proj1 (proj2 (lock_is_released (set_locked true hello_storage))
                    H2 (b "x") 0 None)).
Defined.


Lemma Node_remove_then_get_witness :
  let w := replaced_child (H := example_json) in
  let w' := snd (Node_remove (H := example_json) 8 0%nat "k" w) in
  Node_remove (H := example_json) 8 0%nat "k" w = (Return 2%nat, w')
  /\ Node_get (H := example_json) 0%nat "k" w' = (Raise KeyError, w').
Proof.
  intros w w'.
  assert (Node_remove (H := example_json) 8 0%nat "k" w
          = (Return 2%nat, w')) as H1
    by (vm_compute; reflexivity).
  split; [assumption|].
  exact (proj1 (proj2 (Node_remove_then_get (H := example_json) 8 0%nat "k" w)
                  2%nat w' H1)).
Defined.

Lemma modifications_mark_the_parents_witness :
  let w := snd (Leaf_new (JInt 5) (empty_config (H := example_json))) in
  let w' := snd (Node_set 8 0%nat "k" 1%nat w) in
  parents_modified w
  /\ Node_set 8 0%nat "k" 1%nat w = (Return tt, w')
  /\ parents_modified w'.
Proof.
  intros w w'.
  assert (parents_modified w) as H1.
  { intros [|[|b']] it p k Hb Ho Hl; vm_compute in Hb;
      try discriminate Hb; injection Hb as <-; discriminate Hl. }
  assert (Node_set 8 0%nat "k" 1%nat w = (Return tt, w')) as H2
    by (vm_compute; reflexivity).
  repeat (split; [assumption|]).
  exact (proj1 (proj2 (modifications_mark_the_parents (H := example_json)
                         w H1))
           8%nat 0%nat "k" 1%nat w' H2).
Defined.

Lemma persist_writes_the_subtree_witness :
  let w := replaced_child (H := example_json) in
  let w' := snd (Item__persist (H := example_json) 8 0%nat w) in
  volatile w = false
  /\ locked (storage w) = false
  /\ offset_of w 0%nat = None
  /\ Item__persist (H := example_json) 8 0%nat w = (Return tt, w')
  /\ exists o v,
       offset_of w' 0%nat = Some o
       /\ written (H := example_json) w w' 0%nat o v.
Proof.
  intros w w'.
  assert (volatile w = false) as H1 by reflexivity.
  assert (locked (storage w) = false) as H2 by reflexivity.
  assert (offset_of w 0%nat = None) as H3 by reflexivity.
  assert (Item__persist (H := example_json) 8 0%nat w = (Return tt, w'))
    as H4 by (vm_compute; reflexivity).
  repeat (split; [assumption|]).
  exact (proj1 (persist_writes_the_subtree (H := example_json) 8 0%nat w w'
                  H1 H2 H3 H4)).
Defined.

Lemma commit_writes_the_tree_witness :
  let w := example_config (H := example_json) in
  let w' := snd (Store_commit (H := example_json) 8 w) in
  volatile w = false
  /\ locked (storage w) = false
  /\ content (storage w)
     = IDENTIFIER ++ [NL] ++ replicate 15 x30 ++ [NL] ++ []
  /\ root w = RootItem 0%nat
  /\ offset_of w 0%nat = None
  /\ Store_commit (H := example_json) 8 w = (Return 94, w')
  /\ (exists v, written (H := example_json) w w' 0%nat 94 v)
  /\ offset_of w' 0%nat = Some 94
  /\ fst (Storage_get_current (storage w')) = Return 94.
Proof.
  intros w w'.
  assert (volatile w = false) as H1 by reflexivity.
  assert (locked (storage w) = false) as H2 by reflexivity.
  assert (content (storage w)
          = IDENTIFIER ++ [NL] ++ replicate 15 x30 ++ [NL] ++ []) as H3
    by (vm_compute; reflexivity).
  assert (NL ∉ replicate 15 x30) as H4 by compute_done.
  assert (root w = RootItem 0%nat) as H5 by reflexivity.
  assert (offset_of w 0%nat = None) as H6 by reflexivity.
  assert (Store_commit (H := example_json) 8 w = (Return 94, w')) as H7
    by (vm_compute; reflexivity).
  repeat (split; [assumption|]).
  destruct (commit_writes_the_tree (H := example_json) 8 w 0%nat
              (replicate 15 x30) [] 94 w' H1 H2 H3 H4 H5 H6 H7)
    as (T1 & T2 & T3 & _).
  repeat (split; [assumption|]). exact T3.
Defined.

Lemma written_item_loads_witness :
  let J := reading_json [JInt 2] in
  let w := replaced_child (H := J) in
  let w' := snd (Item__persist (H := J) 8 0%nat w) in
  written (H := J) w w' 2%nat 53 (JInt 2)
  /\ loads (Json := J) (dumps (Json := J) (JInt 2)) = Some (JInt 2)
  /\ dumps (Json := J) (JInt 2) <> []
  /\ exists it bd w3,
       items w' !! 2%nat = Some it
       /\ Store__load (H := J) 53 w' = (Return (length (items w')), w3)
       /\ items w3 = items w' ++ [mkItem None true (Some 53) bd]
       /\ match i_body it, bd with
          | BLeaf x, BLeaf x' => x' = x
          | BNode es, BNode es' =>
              (forall k, es' !! k = None <-> es !! k = None)
              /\ (forall k e, es !! k = Some e ->
                    exists oc, es' !! k = Some (ETuple oc None)
                      /\ child_written (H := J) w w' e (Some (JInt oc)))
          | _, _ => False
          end.
Proof.
  intros J w w'.
  assert (written (H := J) w w' 2%nat 53 (JInt 2)) as H1.
  { apply (written_leaf (H := J) w w' 2%nat
             (mkItem (Some (mkLink (ONode 0) "k")) false (Some 53)
                (BLeaf (JInt 2))) (JInt 2) 53).
    - vm_compute. reflexivity.
    - reflexivity.
    - vm_compute. reflexivity. }
  assert (loads (Json := J) (dumps (Json := J) (JInt 2)) = Some (JInt 2))
    as H2 by (vm_compute; reflexivity).
  assert (dumps (Json := J) (JInt 2) <> []) as H3 by discriminate.
  assert (content (storage w') = content (storage w')) as H4 by reflexivity.
  repeat (split; [assumption|]).
  exact (written_item_loads (H := J) w w' 2%nat 53 (JInt 2) w' H1 H2 H3 H4).
Defined.

Lemma reading_leaves_nothing_to_commit_witness :
  let w := snd (Store_commit (H := example_json) 8
                  (example_config (H := example_json))) in
  let w1 := snd (Tree__get (H := example_json) 0%nat "d" false None w) in
  locked (storage w) = false
  /\ current_root w = 94
  /\ cache_ok w
  /\ exists w2,
       Store_commit (H := example_json) 8 w1 = (Return 94, w2)
       /\ content (storage w2) = content (storage w)
       /\ current_root w2 = 94 /\ root w2 = root w /\ items w2 = items w1.
Proof.
  intros w w1.
  assert (locked (storage w) = false) as H1 by reflexivity.
  assert (content (storage w)
          = IDENTIFIER ++ [NL] ++ b "000000000000094" ++ [NL]
              ++ drop 53 (content (storage w))) as H2
    by (vm_compute; reflexivity).
  assert (NL ∉ b "000000000000094") as H3 by compute_done.
  assert (root_digits_ok (b "000000000000094") = true) as H4 by reflexivity.
  assert (decimal_value (b "000000000000094") = 94) as H5 by reflexivity.
  assert (current_root w = 94) as H6 by (vm_compute; reflexivity).
  assert (exists a it, root w = RootItem a /\ items w !! a = Some it
                       /\ i_offset it = Some 94) as H7.
  { exists 0%nat. eexists. split; [vm_compute; reflexivity|].
    split; [vm_compute; reflexivity|]. reflexivity. }
  assert (cache_ok w) as H8 by (apply cache_okb_spec; vm_compute; reflexivity).
  repeat (split; [assumption|]).
  exact (proj2 (reading_leaves_nothing_to_commit (H := example_json) 8 w 94
                  (b "000000000000094") (drop 53 (content (storage w)))
                  H1 H2 H3 H4 H5 H6 (or_intror H7))
           H8 0%nat "d" _ w1 (surjective_pairing _)).
Defined.



Lemma root_is_kept_witness :
  let w := snd (Node_new (fresh_store (H := example_json))) in
  let w1 := snd (Store__set_root 0%nat w) in
  root (fresh_store (H := example_json)) = RootInt 0
  /\ Store__get_root (H := example_json) (fresh_store (H := example_json))
     = (Raise NullEntryPoint, fresh_store (H := example_json))
  /\ Store__set_root 0%nat w = (Return tt, w1)
  /\ Store__get_root (H := example_json) w1 = (Return 0%nat, w1).
Proof.
  intros w w1.
  assert (root (fresh_store (H := example_json)) = RootInt 0) as H1
    by reflexivity.
  assert (Store__set_root 0%nat w = (Return tt, w1)) as H2
    by (vm_compute; reflexivity).
  split; [assumption|]. split.
  - exact (proj2 (proj2 (proj2 (root_is_kept (H := example_json)
                                  (fresh_store (H := example_json))))) H1).
  - split; [assumption|].
    exact (proj1 (proj1 (proj2 (root_is_kept (H := example_json) w))
                    0%nat w1 H2)).
Defined.

Lemma scan_accepts_exactly_witness :
  locked hello_storage = false
  /\ (fst (Storage_scan hello_storage) = Return tt
      <-> exists digits records,
            content hello_storage = file_of digits records
            /\ root_digits_ok digits = true
            /\ Forall (fun r => (TAB ∉ r) /\ (NL ∉ r)) records).
Proof.
  assert (locked hello_storage = false) as H1 by reflexivity.
  split; [assumption|].
  exact (proj1 (scan_accepts_exactly hello_storage H1)).
Defined.


Lemma realize_creates_the_nodes_witness :
  let w := snd ((let* a := facade (H := example_json) 0%nat "a" in
                 facade (H := example_json) a "b")
                (empty_config (H := example_json))) in
  let w' := snd (Tree___realize (H := example_json) 8 2%nat w) in
  Tree___realize (H := example_json) 8 2%nat w = (Return tt, w')
  /\ trees w !! 2%nat
     = Some (mkTree ∅ (Some 1%nat) (Some "b") None (mkSchema 0))
  /\ forall t0 x0 n0,
       trees w !! t0 = Some x0 -> t_node x0 = Some n0 ->
       exists x0', trees w' !! t0 = Some x0' /\ t_node x0' = Some n0.
Proof.
  intros w w'.
  assert (Tree___realize (H := example_json) 8 2%nat w = (Return tt, w'))
    as H1 by (vm_compute; reflexivity).
  assert (trees w !! 2%nat
          = Some (mkTree ∅ (Some 1%nat) (Some "b") None (mkSchema 0))) as H2
    by (vm_compute; reflexivity).
  repeat (split; [assumption|]).
  exact (proj1 (proj2 (realize_creates_the_nodes (H := example_json) 8 2%nat
                         w w' _ H1 H2))).
Defined.

Lemma Tree_has_after_set_and_del_witness :
  let w := empty_config (H := example_json) in
  let w' := snd (Tree__set (H := example_json) 8 0%nat "k"
                   (AValue (JInt 5)) w) in
  trees w !! 0%nat = Some (mkTree ∅ None None (Some 0%nat) (mkSchema 0))
  /\ Tree__set (H := example_json) 8 0%nat "k" (AValue (JInt 5)) w
     = (Return tt, w')
  /\ Tree__has (H := example_json) 1 0%nat "k" w' = (Return true, w').
Proof.
  intros w w'.
  assert (trees w !! 0%nat
          = Some (mkTree ∅ None None (Some 0%nat) (mkSchema 0))) as H1
    by reflexivity.
  assert (Tree__set (H := example_json) 8 0%nat "k" (AValue (JInt 5)) w
          = (Return tt, w')) as H2
    by (vm_compute; reflexivity).
  repeat (split; [assumption|]).
  exact (proj1 (Tree_has_after_set_and_del (H := example_json) 8 0%nat "k"
                  w _ H1)
           (JInt 5) w' H2 0%nat).
Defined.

Lemma dropping_the_root_witness :
  let w := empty_config (H := example_json) in
  let w1 := snd (Store_detach_root w) in
  Store_detach_root w = (Return 0%nat, w1)
  /\ root w = RootItem 0%nat
  /\ root w1 = RootNone
  /\ Store_commit (H := example_json) 8 w1 = (Raise DetachedRoot, w1).
Proof.
  intros w w1.
  assert (Store_detach_root w = (Return 0%nat, w1)) as H1
    by (vm_compute; reflexivity).
  split; [assumption|].
  destruct (proj1 (dropping_the_root (H := example_json) 8 w) 0%nat w1 H1)
    as (T1 & T2 & _ & T4 & _).
  repeat (split; [assumption|]). exact T4.
Defined.

Lemma Leaf_set_marks_the_chain_witness :
  let w := snd (Store_commit (H := example_json) 8
                  (example_config (H := example_json))) in
  let w' := snd (Leaf_set 8 1%nat (JInt 7) w) in
  Leaf_set 8 1%nat (JInt 7) w = (Return tt, w')
  /\ Leaf_get 1%nat w' = (Return (JInt 7), w')
  /\ storage w' = storage w.
Proof.
  intros w w'.
  assert (Leaf_set 8 1%nat (JInt 7) w = (Return tt, w')) as H1
    by (vm_compute; reflexivity).
  split; [assumption|].
  destruct (Leaf_set_marks_the_chain 8 1%nat (JInt 7) w w' H1)
    as (T1 & _ & _ & T4 & _).
  split; [exact T1|exact T4].
Defined.

